(** * kconfig-hardened-check: the rule evaluation engine and its parsers

    A shallow embedding of [kconfig_hardened_check/__init__.py]: the check
    classes ([OptCheck], [KconfigCheck], [CmdlineCheck], [VersionCheck],
    [OR], [AND]), the population functions, the two text parsers, the
    architecture and version detectors, the rule catalog, the report and the
    driver, followed by the properties proved about them.

    Python values are modelled as follows.
    - [str] is [string], a text of ASCII characters; a function that opens a
      file takes the text that the text-mode file object hands out, in which
      every line end is a line feed.
    - An attribute that is [None] or a [str] is an [option string].
    - [int] is [Z]; [str(n)] is stdpp's [pretty].
    - A [dict] with string keys and string values is a [gmap string string]
      (the order of the keys plays no part in what is proved here).
    - An object is the record of its attributes, a complex check holds its
      children; a method that assigns to attributes returns the object with
      the new values.
    - An exception, a failed [assert] and [sys.exit(msg)] all end the run:
      they are the [Raise] case of the result type [Res]. *)

From Stdlib Require Import ZArith String Ascii List Bool Lia.
From stdpp Require Import base option list gmap strings pretty.

Set Warnings "-register-all".

Local Open Scope Z_scope.

(** ** Python primitives *)

Module Py.

Inductive exn : Type :=
| AssertionError (msg : string)
| SystemExit (msg : string)
| IndexError
| KeyError
| ValueError
| AttributeError.

Inductive Res (A : Type) : Type :=
| Ok (a : A)
| Raise (e : exn).
Global Arguments Ok {A} a.
Global Arguments Raise {A} e.

(** Sequencing: an exception ends the computation. *)
Global Instance Res_bind : MBind Res := fun A B k m =>
  match m with
  | Ok a => k a
  | Raise e => Raise e
  end.

(** [assert(b), msg] *)
Definition assert (b : bool) (msg : string) : Res unit :=
  if b then Ok tt else Raise (AssertionError msg).

Definition is_ok {A} (m : Res A) : bool :=
  match m with Ok _ => true | Raise _ => false end.

(** [s.startswith(p)] *)
Fixpoint startswith (s p : string) {struct p} : bool :=
  match p, s with
  | EmptyString, _ => true
  | String a p', String b s' => Ascii.eqb a b && startswith s' p'
  | String _ _, EmptyString => false
  end.
Global Arguments startswith : simpl never.

(** [s[n:]] *)
Fixpoint drop (n : nat) (s : string) : string :=
  match n, s with
  | O, _ => s
  | S n', String _ s' => drop n' s'
  | S _, EmptyString => EmptyString
  end.

(** [c.isspace()] for the characters of an ASCII text. *)
Definition isspace (c : ascii) : bool :=
  let n := nat_of_ascii c in
  ((9 <=? n)%nat && (n <=? 13)%nat) || ((28 <=? n)%nat && (n <=? 32)%nat).

Fixpoint lstrip (s : string) : string :=
  match s with
  | EmptyString => EmptyString
  | String c s' => if isspace c then lstrip s' else s
  end.

Fixpoint rstrip (s : string) : string :=
  match s with
  | EmptyString => EmptyString
  | String c s' =>
      match rstrip s' with
      | EmptyString => if isspace c then EmptyString else String c EmptyString
      | t => String c t
      end
  end.

(** [s.strip()] *)
Definition strip (s : string) : string := rstrip (lstrip s).

(** [s.split(sep, 1)] for a one-character separator: one or two pieces. *)
Fixpoint split1 (sep : ascii) (s : string) : list string :=
  match s with
  | EmptyString => [EmptyString]
  | String c s' =>
      if Ascii.eqb c sep then [EmptyString; s']
      else match split1 sep s' with
           | [a] => [String c a]
           | a :: rest => String c a :: rest
           | [] => []
           end
  end.

(** [a, b = l] *)
Definition unpack2 (l : list string) : Res (string * string) :=
  match l with
  | [a; b] => Ok (a, b)
  | _ => Raise ValueError
  end.

(** [c in s] for a character [c] *)
Fixpoint contains (c : ascii) (s : string) : bool :=
  match s with
  | EmptyString => false
  | String c' s' => Ascii.eqb c' c || contains c s'
  end.

(** [s.split()]: the maximal runs of characters that are not white space. *)
Fixpoint split_go (cur : option string) (s : string) : list string :=
  match s with
  | EmptyString => option_list (String.rev <$> cur)
  | String c s' =>
      if isspace c
      then option_list (String.rev <$> cur) ++ split_go None s'
      else split_go (Some (String c (default EmptyString cur))) s'
  end.

Definition split (s : string) : list string := split_go None s.

(** [f.readline()] on the text that is left: the line with its ["\n"], and
    the rest. At the end of the text the line is empty. *)
Fixpoint readline (text : string) : string * string :=
  match text with
  | EmptyString => (EmptyString, EmptyString)
  | String c rest =>
      if Ascii.eqb c "010" then (String c EmptyString, rest)
      else let '(l, r) := readline rest in (String c l, r)
  end.

(** [f.readlines()]: every line with its ["\n"]; the last line may lack it. *)
Fixpoint readlines (text : string) : list string :=
  match text with
  | EmptyString => []
  | String c rest =>
      if Ascii.eqb c "010" then String c EmptyString :: readlines rest
      else match readlines rest with
           | l :: ls => String c l :: ls
           | [] => [String c EmptyString]
           end
  end.

(** ["{}".format(x)] for an attribute that is [None] or a string *)
Definition format_opt (x : option string) : string :=
  match x with
  | Some s => s
  | None => "None"
  end.

(** [if x:] for a value that is [None] or a string *)
Definition truthy (x : option string) : bool :=
  match x with
  | Some (String _ _) => true
  | _ => false
  end.

(** *** Regular expressions

    The patterns of the program are sequences of literal text and starred
    character classes. [re_match p s] is [p.match(s)]: some prefix of [s]
    is matched by [p]. *)
Inductive re_item : Type :=
| Lit (s : string)
| Star (cls : ascii -> bool).

Fixpoint strip_prefix (p s : string) : option string :=
  match p, s with
  | EmptyString, _ => Some s
  | String a p', String b s' => if Ascii.eqb a b then strip_prefix p' s' else None
  | String _ _, EmptyString => None
  end.

(** A starred class followed by the rest of the pattern, [k]: the class
    takes any number of characters, as long as the rest still matches. *)
Fixpoint re_star (k : string -> bool) (cls : ascii -> bool) (s : string) : bool :=
  k s ||
  match s with
  | String c s' => cls c && re_star k cls s'
  | EmptyString => false
  end.

Fixpoint re_match (p : list re_item) (s : string) : bool :=
  match p with
  | [] => true
  | Lit l :: p' =>
      match strip_prefix l s with
      | Some s' => re_match p' s'
      | None => false
      end
  | Star cls :: p' => re_star (re_match p') cls s
  end.

Definition in_range (lo hi c : ascii) : bool :=
  (nat_of_ascii lo <=? nat_of_ascii c)%nat && (nat_of_ascii c <=? nat_of_ascii hi)%nat.

(** The class [[a-zA-Z0-9_]] *)
Definition is_word (c : ascii) : bool :=
  in_range "a" "z" c || in_range "A" "Z" c || in_range "0" "9" c || Ascii.eqb c "_".

(** The class of the value part of an enabled option: [is_word] and the
    double quote. *)
Definition is_word_or_quote (c : ascii) : bool :=
  is_word c || Ascii.eqb c "034".

(** The double quote character, as a string. *)
Definition dq : string := String "034" EmptyString.

(** [t[i]] on a tuple *)
Definition getitem {A} (t : list A) (i : nat) : Res A :=
  match t !! i with
  | Some x => Ok x
  | None => Raise IndexError
  end.

End Py.
Import Py.


(** ** The check classes *)

Module Checks.

(** The values of the [type] property. *)
Inductive opt_type : Type := kconfig | version | cmdline | complex.

Global Instance opt_type_eq_dec : EqDecision opt_type.
Proof. solve_decision. Defined.

Definition SIMPLE_OPTION_TYPES : list opt_type := [kconfig; version; cmdline].

(** What a population pass hands to the checks: a parsed option map or the
    kernel version tuple. *)
Inductive data : Type :=
| Dict (d : gmap string string)
| Tuple (t : list Z).

(** The attributes of an [OptCheck] object. *)
Record OptCheck : Type := mkOptCheck {
  name : string;
  expected : option string;
  decision : string;
  reason : string;
  state : option string;
  result : option string
}.

(** The attributes of a [VersionCheck] object. *)
Record VersionCheck : Type := mkVersionCheck {
  ver_expected : Z * Z;
  ver : data;
  vresult : option string
}.

(** A check object: one constructor per concrete class. A complex check
    carries its [result] attribute and the tuple [opts]. *)
Inductive check : Type :=
| KconfigCheck (o : OptCheck)
| CmdlineCheck (o : OptCheck)
| Version (v : VersionCheck)
| OR (res : option string) (opts : list check)
| AND (res : option string) (opts : list check).

Definition set_name (o : OptCheck) (n : string) : OptCheck :=
  mkOptCheck n (expected o) (decision o) (reason o) (state o) (result o).

Definition set_result (o : OptCheck) (r : string) : OptCheck :=
  mkOptCheck (name o) (expected o) (decision o) (reason o) (state o) (Some r).

Definition set_state (o : OptCheck) (s : option string) : OptCheck :=
  mkOptCheck (name o) (expected o) (decision o) (reason o) s (result o).

Definition set_vresult (v : VersionCheck) (r : string) : VersionCheck :=
  mkVersionCheck (ver_expected v) (ver v) (Some r).

Definition set_ver (v : VersionCheck) (d : data) : VersionCheck :=
  mkVersionCheck (ver_expected v) d (vresult v).

(** *** Constructors *)

Definition nonempty (s : string) : bool :=
  match s with EmptyString => false | _ => true end.

(** [OptCheck.__init__] *)
Definition OptCheck_init (cls reason decision name : string)
    (expected : option string) : Res OptCheck :=
  _ ← assert (nonempty reason && nonempty decision && nonempty name)
        ("invalid " +:+ cls +:+ " check for " +:+ dq +:+ name +:+ dq);
  Ok (mkOptCheck name expected decision reason None None).

(** [KconfigCheck.__init__] *)
Definition KconfigCheck_init (reason decision name : string)
    (expected : option string) : Res check :=
  o ← OptCheck_init "KconfigCheck" reason decision name expected;
  Ok (KconfigCheck (set_name o ("CONFIG_" +:+ name))).

Definition CmdlineCheck_init (reason decision name : string)
    (expected : option string) : Res check :=
  o ← OptCheck_init "CmdlineCheck" reason decision name expected;
  Ok (CmdlineCheck o).

(** [VersionCheck.__init__]: [ver] starts as the empty tuple. *)
Definition VersionCheck_init (ver_expected : Z * Z) : check :=
  Version (mkVersionCheck ver_expected (Tuple []) None).

Definition is_opt_check (c : check) : bool :=
  match c with
  | KconfigCheck _ | CmdlineCheck _ => true
  | _ => false
  end.

(** The three assertions of [ComplexOptCheck.__init__], as a test. *)
Definition ComplexOptCheck_ok (opts : list check) : bool :=
  match opts with
  | [] => false
  | [_] => false
  | c0 :: _ => is_opt_check c0
  end.

(** [ComplexOptCheck.__init__]; the messages of the last two assertions
    go on with the printed form of [opts], which is left out. *)
Definition ComplexOptCheck_init (cls : string) (opts : list check) : Res unit :=
  _ ← assert (bool_decide (opts ≠ [])) ("empty " +:+ cls +:+ " check");
  _ ← assert (bool_decide (length opts ≠ 1%nat)) ("useless " +:+ cls +:+ " check");
  assert (match opts with c0 :: _ => is_opt_check c0 | [] => false end)
         ("invalid " +:+ cls +:+ " check").

Definition OR_init (opts : list check) : Res check :=
  _ ← ComplexOptCheck_init "OR" opts; Ok (OR None opts).

Definition AND_init (opts : list check) : Res check :=
  _ ← ComplexOptCheck_init "AND" opts; Ok (AND None opts).

(** *** Properties of the objects *)

(** [opt.type] *)
Definition type_of (c : check) : opt_type :=
  match c with
  | KconfigCheck _ => kconfig
  | CmdlineCheck _ => cmdline
  | Version _ => version
  | OR _ _ | AND _ _ => complex
  end.

(** [opt.result] *)
Definition result_of (c : check) : option string :=
  match c with
  | KconfigCheck o | CmdlineCheck o => result o
  | Version v => vresult v
  | OR r _ | AND r _ => r
  end.

(** [opt.name]: a complex check answers with [self.opts[0].name]; a
    [VersionCheck] has no such attribute. *)
Fixpoint name_of (c : check) : Res string :=
  match c with
  | KconfigCheck o | CmdlineCheck o => Ok (name o)
  | Version _ => Raise AttributeError
  | OR _ opts | AND _ opts =>
      match opts with
      | c0 :: _ => name_of c0
      | [] => Raise IndexError
      end
  end.

(** [opt.expected] *)
Fixpoint expected_of (c : check) : Res (option string) :=
  match c with
  | KconfigCheck o | CmdlineCheck o => Ok (expected o)
  | Version _ => Raise AttributeError
  | OR _ opts | AND _ opts =>
      match opts with
      | c0 :: _ => expected_of c0
      | [] => Raise IndexError
      end
  end.

(** *** Evaluation *)

(** [OptCheck.check]: the outcome text. *)
Definition OptCheck_outcome (expected state : option string) : string :=
  match expected with
  | None =>
      (* the option presence check *)
      match state with
      | None => "FAIL: not present"
      | Some _ => "OK: is present"
      end
  | Some e =>
      (* the option value check *)
      if bool_decide (Some e = state) then "OK"
      else match state with
           | None =>
               if bool_decide (e = "is not set") then "OK: not found"
               else "FAIL: not found"
           | Some s => "FAIL: " +:+ dq +:+ s +:+ dq
           end
  end.

Definition OptCheck_check (o : OptCheck) : OptCheck :=
  set_result o (OptCheck_outcome (expected o) (state o)).

(** [self.ver[i]]: a tuple is indexed; a map of option names has no key
    [0] or [1]. *)
Definition ver_item (d : data) (i : nat) : Res Z :=
  match d with
  | Tuple t => getitem t i
  | Dict _ => Raise KeyError
  end.

Definition version_ok (e : Z * Z) : string :=
  "OK: version >= " +:+ pretty e.1 +:+ "." +:+ pretty e.2.

Definition version_fail (e : Z * Z) : string :=
  "FAIL: version < " +:+ pretty e.1 +:+ "." +:+ pretty e.2.

(** [VersionCheck.check] *)
Definition VersionCheck_check (v : VersionCheck) : Res VersionCheck :=
  let e := ver_expected v in
  v0 ← ver_item (ver v) 0;
  if e.1 <? v0 then Ok (set_vresult v (version_ok e))
  else if v0 <? e.1 then Ok (set_vresult v (version_fail e))
  else
    v1 ← ver_item (ver v) 1;
    if e.2 <=? v1 then Ok (set_vresult v (version_ok e))
    else Ok (set_vresult v (version_fail e)).

(** [opt.result.startswith(p)]: [None] has no such method. *)
Definition result_str (c : check) : Res string :=
  match result_of c with
  | Some r => Ok r
  | None => Raise AttributeError
  end.

(** The body of [if i != 0:] in [OR.check]: more info for additional
    checks. [r] is [opt.result]. *)
Definition OR_describe (opt : check) (r : string) : Res string :=
  if bool_decide (r = "OK") then
    n ← name_of opt; e ← expected_of opt;
    Ok ("OK: " +:+ n +:+ " " +:+ dq +:+ format_opt e +:+ dq)
  else if bool_decide (r = "OK: not found") then
    n ← name_of opt; Ok ("OK: " +:+ n +:+ " not found")
  else if bool_decide (r = "OK: is present") then
    n ← name_of opt; Ok ("OK: " +:+ n +:+ " is present")
  else
    (* VersionCheck provides enough info *)
    _ ← assert (startswith r "OK: version")
          ("unexpected OK description " +:+ dq +:+ r +:+ dq);
    Ok r.

(** The body of [if not opt.result.startswith('OK'):] in [AND.check]. *)
Definition AND_describe (opt : check) (r : string) : Res string :=
  if startswith r ("FAIL: " +:+ dq) || bool_decide (r = "FAIL: not found") then
    n ← name_of opt; e ← expected_of opt;
    Ok ("FAIL: " +:+ n +:+ " not " +:+ dq +:+ format_opt e +:+ dq)
  else if bool_decide (r = "FAIL: not present") then
    n ← name_of opt; Ok ("FAIL: " +:+ n +:+ " not present")
  else
    (* VersionCheck provides enough info *)
    _ ← assert (startswith r "FAIL: version")
          ("unexpected FAIL description " +:+ dq +:+ r +:+ dq);
    Ok r.

(** How a [for] loop over the children ended: with [return] after setting
    [self.result], or by running out of children. *)
Inductive loop_exit : Type :=
| Returned (r : option string)
| Exhausted.

(** The state a loop leaves: how it ended, the children as they are now,
    and (ghost) the indices on which [opt.check()] was called, in call
    order. *)
Record loop_state : Type := mkLoop {
  loop_end : loop_exit;
  loop_opts : list check;
  loop_visited : list nat
}.

Section Loops.

(** [opt.check()] on a child. *)
Variable check_opt : check -> Res check.

(** [for i, opt in enumerate(self.opts)] of [OR.check], from index [i]
    on. *)
Fixpoint OR_loop (i : nat) (opts : list check) : Res loop_state :=
  match opts with
  | [] => Ok (mkLoop Exhausted [] [])
  | opt :: rest =>
      opt' ← check_opt opt;
      r ← result_str opt';
      if startswith r "OK" then
        r' ← (if bool_decide (i ≠ 0%nat) then OR_describe opt' r else Ok r);
        Ok (mkLoop (Returned (Some r')) (opt' :: rest) [i])
      else
        st ← OR_loop (S i) rest;
        Ok (mkLoop (loop_end st) (opt' :: loop_opts st) (i :: loop_visited st))
  end.

(** [for i, opt in reversed(list(enumerate(self.opts)))] of [AND.check],
    for the children from index [i] on: the children after [opt] come
    first, and [opt] is reached only if the loop has not returned. *)
Fixpoint AND_loop (i : nat) (opts : list check) : Res loop_state :=
  match opts with
  | [] => Ok (mkLoop Exhausted [] [])
  | opt :: rest =>
      st ← AND_loop (S i) rest;
      match loop_end st with
      | Returned r => Ok (mkLoop (Returned r) (opt :: loop_opts st) (loop_visited st))
      | Exhausted =>
          opt' ← check_opt opt;
          let visited := loop_visited st ++ [i] in
          if bool_decide (i = 0%nat) then
            Ok (mkLoop (Returned (result_of opt')) (opt' :: loop_opts st) visited)
          else
            r ← result_str opt';
            if negb (startswith r "OK") then
              r' ← AND_describe opt' r;
              Ok (mkLoop (Returned (Some r')) (opt' :: loop_opts st) visited)
            else
              Ok (mkLoop Exhausted (opt' :: loop_opts st) visited)
      end
  end.

End Loops.

(** [opt.check()], by class. The object comes back with its [result] (and
    that of the children that were checked) updated. *)
Fixpoint do_check (c : check) : Res check :=
  match c with
  | KconfigCheck o => Ok (KconfigCheck (OptCheck_check o))
  | CmdlineCheck o => Ok (CmdlineCheck (OptCheck_check o))
  | Version v => v' ← VersionCheck_check v; Ok (Version v')
  | OR res opts =>
      st ← OR_loop do_check 0 opts;
      match loop_end st with
      | Returned r => Ok (OR r (loop_opts st))
      | Exhausted =>
          (* self.result = self.opts[0].result *)
          c0 ← getitem (loop_opts st) 0;
          Ok (OR (result_of c0) (loop_opts st))
      end
  | AND res opts =>
      st ← AND_loop do_check 0 opts;
      match loop_end st with
      | Returned r => Ok (AND r (loop_opts st))
      | Exhausted => Ok (AND res (loop_opts st))
      end
  end.

(** [perform_checks] *)
Fixpoint perform_checks (checklist : list check) : Res (list check) :=
  match checklist with
  | [] => Ok []
  | opt :: rest =>
      opt' ← do_check opt; rest' ← perform_checks rest; Ok (opt' :: rest')
  end.

(** *** Population *)

(** [opt.state = s]; only an [OptCheck] has the attribute that the rest of
    the program reads. *)
Definition with_state (opt : check) (s : option string) : check :=
  match opt with
  | KconfigCheck o => KconfigCheck (set_state o s)
  | CmdlineCheck o => CmdlineCheck (set_state o s)
  | _ => opt
  end.

(** [opt.ver = d] *)
Definition with_ver (opt : check) (d : data) : check :=
  match opt with
  | Version v => Version (set_ver v d)
  | _ => opt
  end.

(** [data.get(key, None)]: a tuple has no [get]. *)
Definition data_get (d : data) (key : string) : Res (option string) :=
  match d with
  | Dict m => Ok (m !! key)
  | Tuple _ => Raise AttributeError
  end.

(** The text of [opt.type] *)
Definition type_str (t : opt_type) : string :=
  match t with
  | kconfig => "kconfig"
  | version => "version"
  | cmdline => "cmdline"
  | complex => "complex"
  end.

Definition populate_simple_opt_with_data (opt : check) (d : data)
    (data_type : opt_type) : Res check :=
  _ ← (if bool_decide (type_of opt ≠ complex) then Ok tt
       else n ← name_of opt;
            Raise (AssertionError ("unexpected ComplexOptCheck " +:+ dq +:+ n +:+ dq)));
  _ ← assert (bool_decide (type_of opt ∈ SIMPLE_OPTION_TYPES))
        ("invalid opt type " +:+ dq +:+ type_str (type_of opt) +:+ dq);
  _ ← assert (bool_decide (data_type ∈ SIMPLE_OPTION_TYPES))
        ("invalid data type " +:+ dq +:+ type_str data_type +:+ dq);
  if bool_decide (data_type ≠ type_of opt) then Ok opt
  else if bool_decide (data_type ∈ [kconfig; cmdline]) then
    n ← name_of opt;
    s ← data_get d n;
    Ok (with_state opt s)
  else
    _ ← assert (bool_decide (data_type = version))
          ("unexpected data type " +:+ dq +:+ type_str data_type +:+ dq);
    Ok (with_ver opt d).

Section ForEach.
Context {A B : Type} (f : A -> Res B).

(** A [for] loop that updates every element of a sequence in turn. *)
Fixpoint for_each (l : list A) : Res (list B) :=
  match l with
  | [] => Ok []
  | x :: rest => y ← f x; rest' ← for_each rest; Ok (y :: rest')
  end.
End ForEach.

Fixpoint populate_opt_with_data (opt : check) (d : data)
    (data_type : opt_type) : Res check :=
  let child (o : check) : Res check :=
    if bool_decide (type_of o = complex)
    then (* Recursion for nested ComplexOptCheck objects *)
         populate_opt_with_data o d data_type
    else populate_simple_opt_with_data o d data_type in
  match opt with
  | OR res opts => opts' ← for_each child opts; Ok (OR res opts')
  | AND res opts => opts' ← for_each child opts; Ok (AND res opts')
  | _ =>
      _ ← assert (bool_decide (type_of opt ∈ [kconfig; cmdline]))
            ("bad type " +:+ dq +:+ type_str (type_of opt) +:+ dq
             +:+ " for a simple check");
      populate_simple_opt_with_data opt d data_type
  end.

Definition populate_with_data (checklist : list check) (d : data)
    (data_type : opt_type) : Res (list check) :=
  for_each (fun opt => populate_opt_with_data opt d data_type) checklist.

End Checks.

(** ** The parsers and the architecture detector *)

Module Parsers.

Definition supported_archs : list string := ["X86_64"; "X86_32"; "ARM64"; "ARM"].

(** ["CONFIG_[a-zA-Z0-9_]*=y"] *)
Definition arch_pattern : list re_item :=
  [Lit "CONFIG_"; Star is_word; Lit "=y"].

(** The loop of [detect_arch] over the lines that are left; [arch] is the
    variable of that name. *)
Fixpoint detect_arch_loop (archs : list string) (arch : option string)
    (lines : list string) : Res (option string * string) :=
  match lines with
  | [] =>
      if negb (truthy arch) then Ok (None, "failed to detect architecture")
      else Ok (arch, "OK")
  | line :: rest =>
      if re_match arch_pattern line then
        '(option, _) ← unpack2 (split1 "=" (drop 7 line));
        if bool_decide (option ∈ archs) then
          if negb (truthy arch) then detect_arch_loop archs (Some option) rest
          else Ok (None, "more than one supported architecture is detected")
        else detect_arch_loop archs arch rest
      else detect_arch_loop archs arch rest
  end.

(** [detect_arch(fname, archs)], on the text of the file. *)
Definition detect_arch (text : string) (archs : list string)
    : Res (option string * string) :=
  detect_arch_loop archs None (readlines text).

(** [CONFIG_[a-zA-Z0-9_]*=] followed by the starred class of word
    characters and the double quote. *)
Definition opt_is_on : list re_item :=
  [Lit "CONFIG_"; Star is_word; Lit "="; Star is_word_or_quote].

(** ["# CONFIG_[a-zA-Z0-9_]* is not set"] *)
Definition opt_is_off : list re_item :=
  [Lit "# CONFIG_"; Star is_word; Lit " is not set"].

(** The first half of the loop body of [parse_kconfig_file]: [option] and
    [value] for a line, [None] when both stay [None]. *)
Definition kconfig_line (line : string) : Res (option (string * string)) :=
  if re_match opt_is_on line then
    '(option, value) ← unpack2 (split1 "=" line);
    if bool_decide (value = "is not set")
    then Raise (SystemExit ("[!] ERROR: bad enabled kconfig option " +:+ dq +:+ line +:+ dq))
    else Ok (Some (option, value))
  else if re_match opt_is_off line then
    '(option, value) ← unpack2 (split1 " " (drop 2 line));
    if bool_decide (value ≠ "is not set")
    then Raise (SystemExit ("[!] ERROR: bad disabled kconfig option " +:+ dq +:+ line +:+ dq))
    else Ok (Some (option, value))
  else Ok None.

(** One turn of the loop of [parse_kconfig_file]. *)
Definition parse_kconfig_line (parsed_options : gmap string string)
    (raw : string) : Res (gmap string string) :=
  let line := strip raw in
  ov ← kconfig_line line;
  match ov with
  | Some (option, value) =>
      if bool_decide (is_Some (parsed_options !! option))
      then Raise (SystemExit ("[!] ERROR: kconfig option " +:+ dq +:+ line +:+ dq
                              +:+ " exists multiple times"))
      else if truthy (Some option) then Ok (<[option := value]> parsed_options)
      else Ok parsed_options
  | None => Ok parsed_options
  end.

Fixpoint parse_kconfig_lines (parsed_options : gmap string string)
    (lines : list string) : Res (gmap string string) :=
  match lines with
  | [] => Ok parsed_options
  | raw :: rest =>
      parsed_options' ← parse_kconfig_line parsed_options raw;
      parse_kconfig_lines parsed_options' rest
  end.

(** [parse_kconfig_file(parsed_options, fname)], on the text of the file. *)
Definition parse_kconfig_file (parsed_options : gmap string string)
    (text : string) : Res (gmap string string) :=
  parse_kconfig_lines parsed_options (readlines text).

Definition truthy_values : list string :=
  ["1"; "on"; "On"; "ON"; "y"; "Y"; "yes"; "Yes"; "YES"].

Definition falsy_values : list string :=
  ["0"; "off"; "Off"; "OFF"; "n"; "N"; "no"; "No"; "NO"].

Definition normalize_cmdline_options (option value : string) : string :=
  (* Don't normalize the cmdline option values if
     the Linux kernel doesn't use kstrtobool() for them *)
  if bool_decide (option = "pti") then value
  else if bool_decide (option = "debugfs") then value
  (* Implement a limited part of the kstrtobool() logic *)
  else if bool_decide (value ∈ truthy_values) then "1"
  else if bool_decide (value ∈ falsy_values) then "0"
  (* Preserve unique values *)
  else value.

(** One turn of the loop [for opt in opts] of [parse_cmdline_file]. *)
Definition parse_cmdline_opt (parsed_options : gmap string string)
    (opt : string) : Res (gmap string string) :=
  '(name, value) ←
    (if contains "=" opt then unpack2 (split1 "=" opt)
     else Ok (opt, EmptyString));
  let value := normalize_cmdline_options name value in
  Ok (<[name := value]> parsed_options).

Fixpoint parse_cmdline_opts (parsed_options : gmap string string)
    (opts : list string) : Res (gmap string string) :=
  match opts with
  | [] => Ok parsed_options
  | opt :: rest =>
      parsed_options' ← parse_cmdline_opt parsed_options opt;
      parse_cmdline_opts parsed_options' rest
  end.

(** [parse_cmdline_file(parsed_options, fname)], on the text of the file. *)
Definition parse_cmdline_file (parsed_options : gmap string string)
    (fname text : string) : Res (gmap string string) :=
  let '(line, rest) := readline text in
  let opts := split line in
  let '(line, _) := readline rest in
  if truthy (Some line)
  then Raise (SystemExit ("[!] ERROR: more than one line in " +:+ dq +:+ fname +:+ dq))
  else parse_cmdline_opts parsed_options opts.

End Parsers.

(** ** Vocabulary of the properties *)

Module Spec.
Import Checks.

(** PASS-class outcomes are the texts that start with [OK]. *)
Definition is_pass (r : string) : bool := startswith r "OK".

(** A checked object holds a PASS-class outcome. *)
Definition passed (c : check) : Prop :=
  ∃ r : string, result_of c = Some r ∧ is_pass r = true.

(** A checked object holds an outcome that is not PASS-class. *)
Definition failed (c : check) : Prop :=
  ∃ r : string, result_of c = Some r ∧ is_pass r = false.

(** [(a, b) >= (M, m)] in lexicographic order. *)
Definition lex_ge (actual required : Z * Z) : Prop :=
  required.1 < actual.1 ∨ (actual.1 = required.1 ∧ required.2 ≤ actual.2).

(** The objects that the constructors can build: every complex check, at
    any depth, satisfies the assertions of [ComplexOptCheck.__init__]. *)
Fixpoint wf (c : check) : bool :=
  match c with
  | OR _ opts | AND _ opts => ComplexOptCheck_ok opts && forallb wf opts
  | _ => true
  end.

(** Every character of [s] is in the class [cls]. *)
Fixpoint string_forall (cls : ascii -> bool) (s : string) : bool :=
  match s with
  | EmptyString => true
  | String c s' => cls c && string_forall cls s'
  end.

(** A line enables the boolean option [CONFIG_a]. *)
Definition enables (a line : string) : bool :=
  startswith line ("CONFIG_" +:+ a +:+ "=y").

(** The architecture of [archs] that a line is a marker of, if any. *)
Definition arch_marker (archs : list string) (line : string) : option string :=
  List.find (λ a, enables a line) archs.

(** The architecture names are made of word characters and are not empty. *)
Definition arch_names_ok (archs : list string) : Prop :=
  ∀ a : string, a ∈ archs → string_forall is_word a = true ∧ a ≠ EmptyString.

(** What [detect_arch] is to answer for the markers found in the file. *)
Definition arch_verdict (markers : list string) : option string * string :=
  match markers with
  | [] => (None, "failed to detect architecture")
  | [a] => (Some a, "OK")
  | _ => (None, "more than one supported architecture is detected")
  end.

(** The text of a token before its first [sep], and the text after it. *)
Fixpoint before (sep : ascii) (s : string) : string :=
  match s with
  | EmptyString => EmptyString
  | String c s' => if Ascii.eqb c sep then EmptyString else String c (before sep s')
  end.

Fixpoint after (sep : ascii) (s : string) : string :=
  match s with
  | EmptyString => EmptyString
  | String c s' => if Ascii.eqb c sep then s' else after sep s'
  end.

(** The map entry of a boot parameter token: its name, and its value
    (empty for a bare name) normalized. *)
Definition token_entry (tok : string) : string * string :=
  let name := before "=" tok in
  (name, Parsers.normalize_cmdline_options name (after "=" tok)).

(** The lines of a text that hold more than their line end. *)
Definition content_lines (text : string) : list string :=
  filter (λ l, l ≠ String "010" EmptyString) (readlines text).

(** A population pass hands over data of the shape that its kind reads: a
    map for the build options and for the boot parameters. *)
Definition pass_ok (d : data) (data_type : opt_type) : bool :=
  match data_type, d with
  | kconfig, Dict _ | cmdline, Dict _ => true
  | version, _ => true
  | _, _ => false
  end.

(** [data.get(key, None)] on the data of a pass. *)
Definition data_lookup (d : data) (key : string) : option string :=
  match d with
  | Dict m => m !! key
  | Tuple _ => None
  end.

(** What a population pass of kind [data_type] is to do to a check: bind the
    state of the simple checks of that kind, at any depth, and nothing
    else. *)
Fixpoint bind_data (d : data) (data_type : opt_type) (c : check) : check :=
  match c with
  | KconfigCheck o =>
      if bool_decide (data_type = kconfig)
      then KconfigCheck (set_state o (data_lookup d (name o))) else c
  | CmdlineCheck o =>
      if bool_decide (data_type = cmdline)
      then CmdlineCheck (set_state o (data_lookup d (name o))) else c
  | Version v =>
      if bool_decide (data_type = version) then Version (set_ver v d) else c
  | OR res opts => OR res (map (bind_data d data_type) opts)
  | AND res opts => AND res (map (bind_data d data_type) opts)
  end.

(** The checklist has no version check at its top level: the driver takes
    them as children of complex checks only. *)
Definition top_level_ok (checklist : list check) : bool :=
  forallb (λ c, bool_decide (type_of c ≠ version)) checklist.

(** The outcomes of an [OptCheck]. *)
Definition simple_pass (r : string) : Prop :=
  r = "OK" ∨ r = "OK: not found" ∨ r = "OK: is present".

Definition simple_fail (r : string) : Prop :=
  r = "FAIL: not found" ∨ r = "FAIL: not present" ∨
  startswith r ("FAIL: " +:+ dq) = true.

Definition is_OR (c : check) : bool :=
  match c with OR _ _ => true | _ => false end.

Definition is_AND (c : check) : bool :=
  match c with AND _ _ => true | _ => false end.

(** Every version check, at any depth, holds a version of two numbers or
    more. *)
Fixpoint populated (c : check) : bool :=
  match c with
  | Version v => match ver v with Tuple (_ :: _ :: _) => true | _ => false end
  | OR _ opts | AND _ opts => forallb populated opts
  | _ => true
  end.

(** The nesting of the rule catalog: after its first child an [OR] has no
    [OR] among its children, and an [AND] no [AND]. *)
Fixpoint nesting_ok (c : check) : bool :=
  match c with
  | OR _ opts => forallb (λ o, negb (is_OR o)) (tail opts) && forallb nesting_ok opts
  | AND _ opts => forallb (λ o, negb (is_AND o)) (tail opts) && forallb nesting_ok opts
  | _ => true
  end.

(** The outcomes that a checked object of each class can hold under that
    nesting. *)
Definition outcome_ok (c : check) (r : string) : Prop :=
  match c with
  | KconfigCheck _ | CmdlineCheck _ => simple_pass r ∨ simple_fail r
  | Version _ =>
      startswith r "OK: version" = true ∨ startswith r "FAIL: version" = true
  | OR _ _ => is_pass r = true ∨ simple_fail r
  | AND _ _ => simple_pass r ∨ is_pass r = false
  end.

(** Objects for the examples: a build-option check, a boot-parameter check
    and a version check, with their state filled in. *)
Definition kconfig_check (name : string) (expected state : option string) : check :=
  KconfigCheck (mkOptCheck name expected "kspp" "self_protection" state None).

Definition cmdline_check (name : string) (expected state : option string) : check :=
  CmdlineCheck (mkOptCheck name expected "kspp" "self_protection" state None).

Definition version_check (required : Z * Z) (actual : list Z) : check :=
  Version (mkVersionCheck required (Tuple actual) None).

End Spec.

(** * Properties *)

(** ** The version detector *)

Module VersionDetect.
Import Checks Spec.

(** The class of the dot of a pattern: any character but the line feed. *)
Definition not_newline (c : ascii) : bool := negb (Ascii.eqb c "010").

(** The pattern of the banner line: [# Linux/.* Kernel Configuration]. *)
Definition ver_pattern : list re_item :=
  [Lit "# Linux/"; Star not_newline; Lit " Kernel Configuration"].

(** [s.split(sep)] for a one-character separator: every piece. *)
Fixpoint split_on (sep : ascii) (s : string) : list string :=
  match s with
  | EmptyString => [EmptyString]
  | String c s' =>
      if Ascii.eqb c sep then EmptyString :: split_on sep s'
      else match split_on sep s' with
           | a :: rest => String c a :: rest
           | [] => [String c EmptyString]
           end
  end.

Definition is_digit (c : ascii) : bool := in_range "0" "9" c.

(** [s.isdigit()] on an ASCII text *)
Definition isdigit (s : string) : bool := nonempty s && string_forall is_digit s.

Definition digit_value (c : ascii) : Z := Z.of_nat (nat_of_ascii c) - 48.

Fixpoint int_go (acc : Z) (s : string) : Z :=
  match s with
  | EmptyString => acc
  | String c s' => int_go (acc * 10 + digit_value c) s'
  end.

(** [int(s)] for a text of decimal digits, which is all that the program
    calls it on; any other text is refused here. The conversion is the
    mathematical one: a limit of the interpreter on the number of digits is
    not part of it. *)
Definition int (s : string) : Res Z :=
  if isdigit s then Ok (int_go 0 s) else Raise ValueError.

(** The loop of [detect_version] over the lines that are left. The answer
    is the pair that the function returns: a version and [None], or [None]
    and a message. *)
Fixpoint detect_version_loop (lines : list string)
    : Res (option (Z * Z) * option string) :=
  match lines with
  | [] => Ok (None, Some "no kernel version detected")
  | line :: rest =>
      if re_match ver_pattern line then
        let line := strip line in
        let parts := split line in
        ver_str ← getitem parts 2;
        let ver_numbers := split_on "." ver_str in
        let msg := "failed to parse the version " +:+ dq +:+ ver_str +:+ dq in
        match ver_numbers with
        | v0 :: v1 :: _ :: _ =>
            if negb (isdigit v0) || negb (isdigit v1) then Ok (None, Some msg)
            else a ← int v0; b ← int v1; Ok (Some (a, b), None)
        | _ => Ok (None, Some msg)
        end
      else detect_version_loop rest
  end.

(** [detect_version(fname)], on the text of the file. *)
Definition detect_version (text : string) : Res (option (Z * Z) * option string) :=
  detect_version_loop (readlines text).

End VersionDetect.

(** ** The rule catalog

    Some objects of the catalog are children of more than one rule
    ([cc_is_gcc], [modules_not_set] and the like). A rule here holds its own
    copy of such a child. Population gives every copy the state that the
    object gets, and [OR.check] and [AND.check] read the result of a child
    only after their call of its [check()], so the outcome of a rule is the
    one that the shared objects give. *)

Module Catalog.
Import Checks.

(** [l += [x]] *)
Definition append (l : list check) (x : Res check) : Res (list check) :=
  c ← x; Ok (l ++ [c]).

(** [OR(a, b, ...)] and [AND(a, b, ...)]: the arguments are evaluated from
    left to right, then the object is built. *)
Definition OR_of (args : list (Res check)) : Res check :=
  opts ← for_each id args; OR_init opts.

Definition AND_of (args : list (Res check)) : Res check :=
  opts ← for_each id args; AND_init opts.

(** A local variable that is assigned under an [if]: it is unbound when the
    branch was not taken, and reading it then ends the run (Python raises
    UnboundLocalError; it is rendered by [KeyError], the name missing from
    the variables of the call). *)
Definition local (v : option check) : Res check :=
  match v with
  | Some c => Ok c
  | None => Raise KeyError
  end.

(** [add_kconfig_checks(l, arch)] *)
Definition add_kconfig_checks (l : list check) (arch : string) : Res (list check) :=
  efi_not_set ← KconfigCheck_init "-" "-" "EFI" (Some "is not set");
  cc_is_gcc ← KconfigCheck_init "-" "-" "CC_IS_GCC" (Some "y");
  cc_is_clang ← KconfigCheck_init "-" "-" "CC_IS_CLANG" (Some "y");
  modules_not_set ← KconfigCheck_init "cut_attack_surface" "kspp" "MODULES" (Some "is not set");
  devmem_not_set ← KconfigCheck_init "cut_attack_surface" "kspp" "DEVMEM" (Some "is not set");
  bpf_syscall_not_set ← KconfigCheck_init "cut_attack_surface" "lockdown" "BPF_SYSCALL" (Some "is not set");
  l ← append l (KconfigCheck_init "self_protection" "defconfig" "BUG" (Some "y"));
  l ← append l (KconfigCheck_init "self_protection" "defconfig" "SLUB_DEBUG" (Some "y"));
  l ← append l
        (AND_of [KconfigCheck_init "self_protection" "defconfig" "GCC_PLUGINS" (Some "y");
                 Ok cc_is_gcc]);
  l ← append l
        (OR_of [KconfigCheck_init "self_protection" "defconfig" "STACKPROTECTOR" (Some "y");
                KconfigCheck_init "self_protection" "defconfig" "CC_STACKPROTECTOR" (Some "y");
                KconfigCheck_init "self_protection" "defconfig" "CC_STACKPROTECTOR_REGULAR" (Some "y");
                KconfigCheck_init "self_protection" "defconfig" "CC_STACKPROTECTOR_AUTO" (Some "y");
                KconfigCheck_init "self_protection" "defconfig" "CC_STACKPROTECTOR_STRONG" (Some "y")]);
  l ← append l
        (OR_of [KconfigCheck_init "self_protection" "defconfig" "STACKPROTECTOR_STRONG" (Some "y");
                KconfigCheck_init "self_protection" "defconfig" "CC_STACKPROTECTOR_STRONG" (Some "y")]);
  l ← append l
        (OR_of [KconfigCheck_init "self_protection" "defconfig" "STRICT_KERNEL_RWX" (Some "y");
                KconfigCheck_init "self_protection" "defconfig" "DEBUG_RODATA" (Some "y")]);
  l ← append l
        (OR_of [KconfigCheck_init "self_protection" "defconfig" "STRICT_MODULE_RWX" (Some "y");
                KconfigCheck_init "self_protection" "defconfig" "DEBUG_SET_MODULE_RONX" (Some "y");
                Ok modules_not_set]);
  l ← append l
        (OR_of [KconfigCheck_init "self_protection" "defconfig" "REFCOUNT_FULL" (Some "y");
                Ok (VersionCheck_init (5, 5))]);
  l ← append l
        (KconfigCheck_init "self_protection" "defconfig" "THREAD_INFO_IN_TASK" (Some "y"));
  iommu_support_is_set ← KconfigCheck_init "self_protection" "defconfig" "IOMMU_SUPPORT" (Some "y");
  l ← append l (Ok iommu_support_is_set);
  l ← (if bool_decide (arch ∈ ["X86_64"; "ARM64"; "X86_32"])
       then
       l ← append l
             (KconfigCheck_init "self_protection" "defconfig" "RANDOMIZE_BASE" (Some "y"));
       Ok l
       else Ok l);
  l ← (if bool_decide (arch ∈ ["X86_64"; "ARM64"])
       then
       l ← append l
             (KconfigCheck_init "self_protection" "defconfig" "VMAP_STACK" (Some "y"));
       Ok l
       else Ok l);
  l ← (if bool_decide (arch ∈ ["X86_64"; "X86_32"])
       then
       l ← append l
             (KconfigCheck_init "self_protection" "defconfig" "MICROCODE" (Some "y"));
       l ← append l
             (KconfigCheck_init "self_protection" "defconfig" "RETPOLINE" (Some "y"));
       l ← append l (KconfigCheck_init "self_protection" "defconfig" "X86_SMAP" (Some "y"));
       l ← append l
             (KconfigCheck_init "self_protection" "defconfig" "SYN_COOKIES" (Some "y"));
       l ← append l
             (OR_of [KconfigCheck_init "self_protection" "defconfig" "X86_UMIP" (Some "y");
                     KconfigCheck_init "self_protection" "defconfig" "X86_INTEL_UMIP" (Some "y")]);
       Ok l
       else Ok l);
  l ← (if bool_decide (arch ∈ ["ARM64"; "ARM"])
       then
       l ← append l
             (KconfigCheck_init "self_protection" "defconfig" "STACKPROTECTOR_PER_TASK" (Some "y"));
       Ok l
       else Ok l);
  l ← (if bool_decide (arch = "X86_64")
       then
       l ← append l
             (KconfigCheck_init "self_protection" "defconfig" "PAGE_TABLE_ISOLATION" (Some "y"));
       l ← append l
             (KconfigCheck_init "self_protection" "defconfig" "RANDOMIZE_MEMORY" (Some "y"));
       l ← append l
             (AND_of [KconfigCheck_init "self_protection" "defconfig" "INTEL_IOMMU" (Some "y");
                      Ok iommu_support_is_set]);
       l ← append l
             (AND_of [KconfigCheck_init "self_protection" "defconfig" "AMD_IOMMU" (Some "y");
                      Ok iommu_support_is_set]);
       Ok l
       else Ok l);
  l ← (if bool_decide (arch = "ARM64")
       then
       l ← append l
             (KconfigCheck_init "self_protection" "defconfig" "ARM64_PAN" (Some "y"));
       l ← append l
             (KconfigCheck_init "self_protection" "defconfig" "ARM64_EPAN" (Some "y"));
       l ← append l
             (KconfigCheck_init "self_protection" "defconfig" "UNMAP_KERNEL_AT_EL0" (Some "y"));
       l ← append l
             (OR_of [KconfigCheck_init "self_protection" "defconfig" "HARDEN_EL2_VECTORS" (Some "y");
                     AND_of [KconfigCheck_init "self_protection" "defconfig" "RANDOMIZE_BASE" (Some "y");
                             Ok (VersionCheck_init (5, 9))]]);
       l ← append l
             (KconfigCheck_init "self_protection" "defconfig" "RODATA_FULL_DEFAULT_ENABLED" (Some "y"));
       l ← append l
             (KconfigCheck_init "self_protection" "defconfig" "ARM64_PTR_AUTH_KERNEL" (Some "y"));
       l ← append l
             (KconfigCheck_init "self_protection" "defconfig" "ARM64_BTI_KERNEL" (Some "y"));
       l ← append l
             (OR_of [KconfigCheck_init "self_protection" "defconfig" "HARDEN_BRANCH_PREDICTOR" (Some "y");
                     Ok (VersionCheck_init (5, 10))]);
       l ← append l
             (KconfigCheck_init "self_protection" "defconfig" "MITIGATE_SPECTRE_BRANCH_HISTORY" (Some "y"));
       l ← append l
             (KconfigCheck_init "self_protection" "defconfig" "ARM64_MTE" (Some "y"));
       l ← append l
             (KconfigCheck_init "self_protection" "defconfig" "RANDOMIZE_MODULE_REGION_FULL" (Some "y"));
       Ok l
       else Ok l);
  l ← (if bool_decide (arch = "ARM")
       then
       l ← append l
             (KconfigCheck_init "self_protection" "defconfig" "CPU_SW_DOMAIN_PAN" (Some "y"));
       l ← append l
             (KconfigCheck_init "self_protection" "defconfig" "HARDEN_BRANCH_PREDICTOR" (Some "y"));
       l ← append l
             (KconfigCheck_init "self_protection" "defconfig" "HARDEN_BRANCH_HISTORY" (Some "y"));
       Ok l
       else Ok l);
  l ← append l
        (KconfigCheck_init "self_protection" "kspp" "BUG_ON_DATA_CORRUPTION" (Some "y"));
  l ← append l (KconfigCheck_init "self_protection" "kspp" "DEBUG_WX" (Some "y"));
  l ← append l
        (KconfigCheck_init "self_protection" "kspp" "SCHED_STACK_END_CHECK" (Some "y"));
  l ← append l
        (KconfigCheck_init "self_protection" "kspp" "SLAB_FREELIST_HARDENED" (Some "y"));
  l ← append l
        (KconfigCheck_init "self_protection" "kspp" "SLAB_FREELIST_RANDOM" (Some "y"));
  l ← append l
        (KconfigCheck_init "self_protection" "kspp" "SHUFFLE_PAGE_ALLOCATOR" (Some "y"));
  l ← append l (KconfigCheck_init "self_protection" "kspp" "FORTIFY_SOURCE" (Some "y"));
  l ← append l (KconfigCheck_init "self_protection" "kspp" "DEBUG_LIST" (Some "y"));
  l ← append l (KconfigCheck_init "self_protection" "kspp" "DEBUG_SG" (Some "y"));
  l ← append l (KconfigCheck_init "self_protection" "kspp" "DEBUG_CREDENTIALS" (Some "y"));
  l ← append l (KconfigCheck_init "self_protection" "kspp" "DEBUG_NOTIFIERS" (Some "y"));
  l ← append l
        (KconfigCheck_init "self_protection" "kspp" "INIT_ON_ALLOC_DEFAULT_ON" (Some "y"));
  l ← append l
        (AND_of [KconfigCheck_init "self_protection" "kspp" "GCC_PLUGIN_LATENT_ENTROPY" (Some "y");
                 Ok cc_is_gcc]);
  l ← append l (KconfigCheck_init "self_protection" "kspp" "KFENCE" (Some "y"));
  l ← append l (KconfigCheck_init "self_protection" "kspp" "WERROR" (Some "y"));
  l ← append l
        (KconfigCheck_init "self_protection" "kspp" "IOMMU_DEFAULT_DMA_STRICT" (Some "y"));
  l ← append l
        (KconfigCheck_init "self_protection" "kspp" "IOMMU_DEFAULT_PASSTHROUGH" (Some "is not set"));
  l ← append l
        (KconfigCheck_init "self_protection" "kspp" "ZERO_CALL_USED_REGS" (Some "y"));
  randstruct_is_set ← KconfigCheck_init "self_protection" "kspp" "GCC_PLUGIN_RANDSTRUCT" (Some "y");
  l ← append l (AND_of [Ok randstruct_is_set; Ok cc_is_gcc]);
  hardened_usercopy_is_set ← KconfigCheck_init "self_protection" "kspp" "HARDENED_USERCOPY" (Some "y");
  l ← append l (Ok hardened_usercopy_is_set);
  l ← append l
        (AND_of [KconfigCheck_init "self_protection" "kspp" "HARDENED_USERCOPY_FALLBACK" (Some "is not set");
                 Ok hardened_usercopy_is_set]);
  l ← append l
        (AND_of [KconfigCheck_init "self_protection" "kspp" "HARDENED_USERCOPY_PAGESPAN" (Some "is not set");
                 Ok hardened_usercopy_is_set]);
  l ← append l
        (OR_of [KconfigCheck_init "self_protection" "kspp" "MODULE_SIG" (Some "y");
                Ok modules_not_set]);
  l ← append l
        (OR_of [KconfigCheck_init "self_protection" "kspp" "MODULE_SIG_ALL" (Some "y");
                Ok modules_not_set]);
  l ← append l
        (OR_of [KconfigCheck_init "self_protection" "kspp" "MODULE_SIG_SHA512" (Some "y");
                Ok modules_not_set]);
  l ← append l
        (OR_of [KconfigCheck_init "self_protection" "kspp" "MODULE_SIG_FORCE" (Some "y");
                Ok modules_not_set]);
  l ← append l
        (OR_of [KconfigCheck_init "self_protection" "kspp" "INIT_STACK_ALL_ZERO" (Some "y");
                KconfigCheck_init "self_protection" "kspp" "GCC_PLUGIN_STRUCTLEAK_BYREF_ALL" (Some "y")]);
  l ← append l
        (OR_of [KconfigCheck_init "self_protection" "kspp" "INIT_ON_FREE_DEFAULT_ON" (Some "y");
                KconfigCheck_init "self_protection" "kspp" "PAGE_POISONING_ZERO" (Some "y")]);
  '(l, stackleak_is_set) ← (if bool_decide (arch ∈ ["X86_64"; "ARM64"; "X86_32"])
       then
       stackleak_is_set ← KconfigCheck_init "self_protection" "kspp" "GCC_PLUGIN_STACKLEAK" (Some "y");
       l ← append l (AND_of [Ok stackleak_is_set; Ok cc_is_gcc]);
       l ← append l
             (KconfigCheck_init "self_protection" "kspp" "RANDOMIZE_KSTACK_OFFSET_DEFAULT" (Some "y"));
       Ok (l, Some stackleak_is_set)
       else Ok (l, None));
  l ← (if bool_decide (arch ∈ ["X86_64"; "X86_32"])
       then
       l ← append l (KconfigCheck_init "self_protection" "kspp" "SCHED_CORE" (Some "y"));
       l ← append l
             (KconfigCheck_init "self_protection" "kspp" "DEFAULT_MMAP_MIN_ADDR" (Some "65536"));
       Ok l
       else Ok l);
  l ← (if bool_decide (arch ∈ ["ARM64"; "ARM"])
       then
       l ← append l
             (KconfigCheck_init "self_protection" "kspp" "DEFAULT_MMAP_MIN_ADDR" (Some "32768"));
       l ← append l (KconfigCheck_init "self_protection" "kspp" "SYN_COOKIES" (Some "y"));
       Ok l
       else Ok l);
  l ← (if bool_decide (arch = "ARM64")
       then
       l ← append l
             (KconfigCheck_init "self_protection" "kspp" "ARM64_SW_TTBR0_PAN" (Some "y"));
       Ok l
       else Ok l);
  l ← (if bool_decide (arch = "X86_32")
       then
       l ← append l
             (KconfigCheck_init "self_protection" "kspp" "PAGE_TABLE_ISOLATION" (Some "y"));
       l ← append l (KconfigCheck_init "self_protection" "kspp" "HIGHMEM64G" (Some "y"));
       l ← append l (KconfigCheck_init "self_protection" "kspp" "X86_PAE" (Some "y"));
       Ok l
       else Ok l);
  ubsan_bounds_is_set ← KconfigCheck_init "self_protection" "maintainer" "UBSAN_BOUNDS" (Some "y");
  l ← append l (Ok ubsan_bounds_is_set);
  l ← (if bool_decide (arch ∈ ["X86_64"; "ARM64"; "X86_32"])
       then
       l ← append l
             (AND_of [KconfigCheck_init "self_protection" "maintainer" "UBSAN_SANITIZE_ALL" (Some "y");
                      Ok ubsan_bounds_is_set]);
       Ok l
       else Ok l);
  l ← append l
        (AND_of [KconfigCheck_init "self_protection" "maintainer" "UBSAN_TRAP" (Some "y");
                 Ok ubsan_bounds_is_set]);
  l ← append l (KconfigCheck_init "self_protection" "clipos" "DEBUG_VIRTUAL" (Some "y"));
  l ← append l
        (KconfigCheck_init "self_protection" "clipos" "STATIC_USERMODEHELPER" (Some "y"));
  l ← append l
        (OR_of [KconfigCheck_init "self_protection" "clipos" "EFI_DISABLE_PCI_DMA" (Some "y");
                Ok efi_not_set]);
  l ← append l
        (KconfigCheck_init "self_protection" "clipos" "SLAB_MERGE_DEFAULT" (Some "is not set"));
  l ← append l
        (KconfigCheck_init "self_protection" "clipos" "RANDOM_TRUST_BOOTLOADER" (Some "is not set"));
  l ← append l
        (KconfigCheck_init "self_protection" "clipos" "RANDOM_TRUST_CPU" (Some "is not set"));
  l ← append l
        (AND_of [KconfigCheck_init "self_protection" "clipos" "GCC_PLUGIN_RANDSTRUCT_PERFORMANCE" (Some "is not set");
                 Ok randstruct_is_set;
                 Ok cc_is_gcc]);
  l ← (if bool_decide (arch ∈ ["X86_64"; "ARM64"; "X86_32"])
       then
       l ← append l
             (AND_of [KconfigCheck_init "self_protection" "clipos" "STACKLEAK_METRICS" (Some "is not set");
                      local stackleak_is_set;
                      Ok cc_is_gcc]);
       l ← append l
             (AND_of [KconfigCheck_init "self_protection" "clipos" "STACKLEAK_RUNTIME_DISABLE" (Some "is not set");
                      local stackleak_is_set;
                      Ok cc_is_gcc]);
       Ok l
       else Ok l);
  l ← (if bool_decide (arch ∈ ["X86_64"; "X86_32"])
       then
       l ← append l
             (AND_of [KconfigCheck_init "self_protection" "clipos" "INTEL_IOMMU_DEFAULT_ON" (Some "y");
                      Ok iommu_support_is_set]);
       Ok l
       else Ok l);
  l ← (if bool_decide (arch = "X86_64")
       then
       l ← append l
             (AND_of [KconfigCheck_init "self_protection" "clipos" "INTEL_IOMMU_SVM" (Some "y");
                      Ok iommu_support_is_set]);
       Ok l
       else Ok l);
  l ← (if bool_decide (arch = "X86_32")
       then
       l ← append l
             (AND_of [KconfigCheck_init "self_protection" "clipos" "INTEL_IOMMU" (Some "y");
                      Ok iommu_support_is_set]);
       Ok l
       else Ok l);
  l ← append l
        (OR_of [KconfigCheck_init "self_protection" "my" "RESET_ATTACK_MITIGATION" (Some "y");
                Ok efi_not_set]);
  l ← (if bool_decide (arch = "X86_64")
       then
       l ← append l (KconfigCheck_init "self_protection" "my" "SLS" (Some "y"));
       l ← append l
             (AND_of [KconfigCheck_init "self_protection" "my" "AMD_IOMMU_V2" (Some "y");
                      Ok iommu_support_is_set]);
       Ok l
       else Ok l);
  l ← (if bool_decide (arch = "ARM64")
       then
       l ← append l
             (KconfigCheck_init "self_protection" "my" "SHADOW_CALL_STACK" (Some "y"));
       l ← append l (KconfigCheck_init "self_protection" "my" "KASAN_HW_TAGS" (Some "y"));
       cfi_clang_is_set ← KconfigCheck_init "self_protection" "my" "CFI_CLANG" (Some "y");
       l ← append l (Ok cfi_clang_is_set);
       l ← append l
             (AND_of [KconfigCheck_init "self_protection" "my" "CFI_PERMISSIVE" (Some "is not set");
                      Ok cfi_clang_is_set]);
       Ok l
       else Ok l);
  l ← (if bool_decide (arch ∈ ["X86_64"; "ARM64"; "X86_32"])
       then
       l ← append l (KconfigCheck_init "security_policy" "defconfig" "SECURITY" (Some "y"));
       Ok l
       else Ok l);
  l ← (if bool_decide (arch = "ARM")
       then
       l ← append l (KconfigCheck_init "security_policy" "kspp" "SECURITY" (Some "y"));
       Ok l
       else Ok l);
  l ← append l (KconfigCheck_init "security_policy" "kspp" "SECURITY_YAMA" (Some "y"));
  l ← append l
        (KconfigCheck_init "security_policy" "kspp" "SECURITY_SELINUX_DISABLE" (Some "is not set"));
  l ← append l
        (KconfigCheck_init "security_policy" "clipos" "SECURITY_LOCKDOWN_LSM" (Some "y"));
  l ← append l
        (KconfigCheck_init "security_policy" "clipos" "SECURITY_LOCKDOWN_LSM_EARLY" (Some "y"));
  l ← append l
        (KconfigCheck_init "security_policy" "clipos" "LOCK_DOWN_KERNEL_FORCE_CONFIDENTIALITY" (Some "y"));
  l ← append l
        (KconfigCheck_init "security_policy" "my" "SECURITY_WRITABLE_HOOKS" (Some "is not set"));
  l ← append l (KconfigCheck_init "security_policy" "my" "SECURITY_SAFESETID" (Some "y"));
  loadpin_is_set ← KconfigCheck_init "security_policy" "my" "SECURITY_LOADPIN" (Some "y");
  l ← append l (Ok loadpin_is_set);
  l ← append l
        (AND_of [KconfigCheck_init "security_policy" "my" "SECURITY_LOADPIN_ENFORCE" (Some "y");
                 Ok loadpin_is_set]);
  l ← append l
        (OR_of [KconfigCheck_init "cut_attack_surface" "defconfig" "BPF_UNPRIV_DEFAULT_OFF" (Some "y");
                Ok bpf_syscall_not_set]);
  l ← append l (KconfigCheck_init "cut_attack_surface" "defconfig" "SECCOMP" (Some "y"));
  l ← append l
        (KconfigCheck_init "cut_attack_surface" "defconfig" "SECCOMP_FILTER" (Some "y"));
  l ← (if bool_decide (arch ∈ ["X86_64"; "ARM64"; "X86_32"])
       then
       l ← append l
             (OR_of [KconfigCheck_init "cut_attack_surface" "defconfig" "STRICT_DEVMEM" (Some "y");
                     Ok devmem_not_set]);
       Ok l
       else Ok l);
  l ← append l
        (KconfigCheck_init "cut_attack_surface" "kspp" "SECURITY_DMESG_RESTRICT" (Some "y"));
  l ← append l
        (KconfigCheck_init "cut_attack_surface" "kspp" "ACPI_CUSTOM_METHOD" (Some "is not set"));
  l ← append l
        (KconfigCheck_init "cut_attack_surface" "kspp" "COMPAT_BRK" (Some "is not set"));
  l ← append l
        (KconfigCheck_init "cut_attack_surface" "kspp" "DEVKMEM" (Some "is not set"));
  l ← append l
        (KconfigCheck_init "cut_attack_surface" "kspp" "COMPAT_VDSO" (Some "is not set"));
  l ← append l
        (KconfigCheck_init "cut_attack_surface" "kspp" "BINFMT_MISC" (Some "is not set"));
  l ← append l
        (KconfigCheck_init "cut_attack_surface" "kspp" "INET_DIAG" (Some "is not set"));
  l ← append l (KconfigCheck_init "cut_attack_surface" "kspp" "KEXEC" (Some "is not set"));
  l ← append l
        (KconfigCheck_init "cut_attack_surface" "kspp" "PROC_KCORE" (Some "is not set"));
  l ← append l
        (KconfigCheck_init "cut_attack_surface" "kspp" "LEGACY_PTYS" (Some "is not set"));
  l ← append l
        (KconfigCheck_init "cut_attack_surface" "kspp" "HIBERNATION" (Some "is not set"));
  l ← append l
        (KconfigCheck_init "cut_attack_surface" "kspp" "IA32_EMULATION" (Some "is not set"));
  l ← append l
        (KconfigCheck_init "cut_attack_surface" "kspp" "X86_X32" (Some "is not set"));
  l ← append l
        (KconfigCheck_init "cut_attack_surface" "kspp" "MODIFY_LDT_SYSCALL" (Some "is not set"));
  l ← append l
        (KconfigCheck_init "cut_attack_surface" "kspp" "OABI_COMPAT" (Some "is not set"));
  l ← append l
        (KconfigCheck_init "cut_attack_surface" "kspp" "X86_MSR" (Some "is not set"));
  l ← append l (Ok modules_not_set);
  l ← append l (Ok devmem_not_set);
  l ← append l
        (OR_of [KconfigCheck_init "cut_attack_surface" "kspp" "IO_STRICT_DEVMEM" (Some "y");
                Ok devmem_not_set]);
  l ← (if bool_decide (arch = "ARM")
       then
       l ← append l
             (OR_of [KconfigCheck_init "cut_attack_surface" "kspp" "STRICT_DEVMEM" (Some "y");
                     Ok devmem_not_set]);
       Ok l
       else Ok l);
  l ← (if bool_decide (arch = "X86_64")
       then
       l ← append l
             (KconfigCheck_init "cut_attack_surface" "kspp" "LEGACY_VSYSCALL_NONE" (Some "y"));
       Ok l
       else Ok l);
  l ← append l
        (KconfigCheck_init "cut_attack_surface" "grsec" "ZSMALLOC_STAT" (Some "is not set"));
  l ← append l
        (KconfigCheck_init "cut_attack_surface" "grsec" "PAGE_OWNER" (Some "is not set"));
  l ← append l
        (KconfigCheck_init "cut_attack_surface" "grsec" "DEBUG_KMEMLEAK" (Some "is not set"));
  l ← append l
        (KconfigCheck_init "cut_attack_surface" "grsec" "BINFMT_AOUT" (Some "is not set"));
  l ← append l
        (KconfigCheck_init "cut_attack_surface" "grsec" "KPROBE_EVENTS" (Some "is not set"));
  l ← append l
        (KconfigCheck_init "cut_attack_surface" "grsec" "UPROBE_EVENTS" (Some "is not set"));
  l ← append l
        (KconfigCheck_init "cut_attack_surface" "grsec" "GENERIC_TRACER" (Some "is not set"));
  l ← append l
        (KconfigCheck_init "cut_attack_surface" "grsec" "FUNCTION_TRACER" (Some "is not set"));
  l ← append l
        (KconfigCheck_init "cut_attack_surface" "grsec" "STACK_TRACER" (Some "is not set"));
  l ← append l
        (KconfigCheck_init "cut_attack_surface" "grsec" "HIST_TRIGGERS" (Some "is not set"));
  l ← append l
        (KconfigCheck_init "cut_attack_surface" "grsec" "BLK_DEV_IO_TRACE" (Some "is not set"));
  l ← append l
        (KconfigCheck_init "cut_attack_surface" "grsec" "PROC_VMCORE" (Some "is not set"));
  l ← append l
        (KconfigCheck_init "cut_attack_surface" "grsec" "PROC_PAGE_MONITOR" (Some "is not set"));
  l ← append l
        (KconfigCheck_init "cut_attack_surface" "grsec" "USELIB" (Some "is not set"));
  l ← append l
        (KconfigCheck_init "cut_attack_surface" "grsec" "CHECKPOINT_RESTORE" (Some "is not set"));
  l ← append l
        (KconfigCheck_init "cut_attack_surface" "grsec" "USERFAULTFD" (Some "is not set"));
  l ← append l
        (KconfigCheck_init "cut_attack_surface" "grsec" "HWPOISON_INJECT" (Some "is not set"));
  l ← append l
        (KconfigCheck_init "cut_attack_surface" "grsec" "MEM_SOFT_DIRTY" (Some "is not set"));
  l ← append l
        (KconfigCheck_init "cut_attack_surface" "grsec" "DEVPORT" (Some "is not set"));
  l ← append l
        (KconfigCheck_init "cut_attack_surface" "grsec" "DEBUG_FS" (Some "is not set"));
  l ← append l
        (KconfigCheck_init "cut_attack_surface" "grsec" "NOTIFIER_ERROR_INJECTION" (Some "is not set"));
  l ← append l
        (KconfigCheck_init "cut_attack_surface" "grsec" "FAIL_FUTEX" (Some "is not set"));
  l ← append l
        (KconfigCheck_init "cut_attack_surface" "grsec" "PUNIT_ATOM_DEBUG" (Some "is not set"));
  l ← append l
        (KconfigCheck_init "cut_attack_surface" "grsec" "ACPI_CONFIGFS" (Some "is not set"));
  l ← append l
        (KconfigCheck_init "cut_attack_surface" "grsec" "EDAC_DEBUG" (Some "is not set"));
  l ← append l
        (KconfigCheck_init "cut_attack_surface" "grsec" "DRM_I915_DEBUG" (Some "is not set"));
  l ← append l
        (KconfigCheck_init "cut_attack_surface" "grsec" "BCACHE_CLOSURES_DEBUG" (Some "is not set"));
  l ← append l
        (KconfigCheck_init "cut_attack_surface" "grsec" "DVB_C8SECTPFE" (Some "is not set"));
  l ← append l
        (KconfigCheck_init "cut_attack_surface" "grsec" "MTD_SLRAM" (Some "is not set"));
  l ← append l
        (KconfigCheck_init "cut_attack_surface" "grsec" "MTD_PHRAM" (Some "is not set"));
  l ← append l
        (KconfigCheck_init "cut_attack_surface" "grsec" "IO_URING" (Some "is not set"));
  l ← append l (KconfigCheck_init "cut_attack_surface" "grsec" "KCMP" (Some "is not set"));
  l ← append l (KconfigCheck_init "cut_attack_surface" "grsec" "RSEQ" (Some "is not set"));
  l ← append l
        (KconfigCheck_init "cut_attack_surface" "grsec" "LATENCYTOP" (Some "is not set"));
  l ← append l (KconfigCheck_init "cut_attack_surface" "grsec" "KCOV" (Some "is not set"));
  l ← append l
        (KconfigCheck_init "cut_attack_surface" "grsec" "PROVIDE_OHCI1394_DMA_INIT" (Some "is not set"));
  l ← append l
        (KconfigCheck_init "cut_attack_surface" "grsec" "SUNRPC_DEBUG" (Some "is not set"));
  l ← append l
        (AND_of [KconfigCheck_init "cut_attack_surface" "grsec" "PTDUMP_DEBUGFS" (Some "is not set");
                 KconfigCheck_init "cut_attack_surface" "grsec" "X86_PTDUMP" (Some "is not set")]);
  l ← append l
        (KconfigCheck_init "cut_attack_surface" "maintainer" "DRM_LEGACY" (Some "is not set"));
  l ← append l
        (KconfigCheck_init "cut_attack_surface" "maintainer" "FB" (Some "is not set"));
  l ← append l
        (KconfigCheck_init "cut_attack_surface" "maintainer" "VT" (Some "is not set"));
  l ← append l
        (KconfigCheck_init "cut_attack_surface" "maintainer" "BLK_DEV_FD" (Some "is not set"));
  l ← append l
        (KconfigCheck_init "cut_attack_surface" "maintainer" "BLK_DEV_FD_RAWCMD" (Some "is not set"));
  l ← append l
        (KconfigCheck_init "cut_attack_surface" "grapheneos" "AIO" (Some "is not set"));
  l ← append l
        (KconfigCheck_init "cut_attack_surface" "clipos" "STAGING" (Some "is not set"));
  l ← append l (KconfigCheck_init "cut_attack_surface" "clipos" "KSM" (Some "is not set"));
  l ← append l
        (KconfigCheck_init "cut_attack_surface" "clipos" "KALLSYMS" (Some "is not set"));
  l ← append l
        (KconfigCheck_init "cut_attack_surface" "clipos" "X86_VSYSCALL_EMULATION" (Some "is not set"));
  l ← append l
        (KconfigCheck_init "cut_attack_surface" "clipos" "MAGIC_SYSRQ" (Some "is not set"));
  l ← append l
        (KconfigCheck_init "cut_attack_surface" "clipos" "KEXEC_FILE" (Some "is not set"));
  l ← append l
        (KconfigCheck_init "cut_attack_surface" "clipos" "USER_NS" (Some "is not set"));
  l ← append l
        (KconfigCheck_init "cut_attack_surface" "clipos" "X86_CPUID" (Some "is not set"));
  l ← append l
        (KconfigCheck_init "cut_attack_surface" "clipos" "X86_IOPL_IOPERM" (Some "is not set"));
  l ← append l
        (KconfigCheck_init "cut_attack_surface" "clipos" "ACPI_TABLE_UPGRADE" (Some "is not set"));
  l ← append l
        (KconfigCheck_init "cut_attack_surface" "clipos" "EFI_CUSTOM_SSDT_OVERLAYS" (Some "is not set"));
  l ← append l
        (AND_of [KconfigCheck_init "cut_attack_surface" "clipos" "LDISC_AUTOLOAD" (Some "is not set");
                 KconfigCheck_init "cut_attack_surface" "clipos" "LDISC_AUTOLOAD" None]);
  l ← (if bool_decide (arch ∈ ["X86_64"; "X86_32"])
       then
       l ← append l
             (KconfigCheck_init "cut_attack_surface" "clipos" "X86_INTEL_TSX_MODE_OFF" (Some "y"));
       Ok l
       else Ok l);
  l ← append l (Ok bpf_syscall_not_set);
  l ← append l
        (KconfigCheck_init "cut_attack_surface" "lockdown" "EFI_TEST" (Some "is not set"));
  l ← append l
        (KconfigCheck_init "cut_attack_surface" "lockdown" "MMIOTRACE_TEST" (Some "is not set"));
  l ← append l
        (KconfigCheck_init "cut_attack_surface" "lockdown" "KPROBES" (Some "is not set"));
  l ← append l
        (OR_of [KconfigCheck_init "cut_attack_surface" "my" "TRIM_UNUSED_KSYMS" (Some "y");
                Ok modules_not_set]);
  l ← append l
        (KconfigCheck_init "cut_attack_surface" "my" "MMIOTRACE" (Some "is not set"));
  l ← append l
        (KconfigCheck_init "cut_attack_surface" "my" "LIVEPATCH" (Some "is not set"));
  l ← append l (KconfigCheck_init "cut_attack_surface" "my" "IP_DCCP" (Some "is not set"));
  l ← append l (KconfigCheck_init "cut_attack_surface" "my" "IP_SCTP" (Some "is not set"));
  l ← append l (KconfigCheck_init "cut_attack_surface" "my" "FTRACE" (Some "is not set"));
  l ← append l
        (KconfigCheck_init "cut_attack_surface" "my" "VIDEO_VIVID" (Some "is not set"));
  l ← append l
        (KconfigCheck_init "cut_attack_surface" "my" "INPUT_EVBUG" (Some "is not set"));
  l ← append l (KconfigCheck_init "cut_attack_surface" "my" "KGDB" (Some "is not set"));
  l ← (if bool_decide (arch ∈ ["X86_64"; "ARM64"; "X86_32"])
       then
       l ← append l
             (KconfigCheck_init "harden_userspace" "defconfig" "INTEGRITY" (Some "y"));
       Ok l
       else Ok l);
  l ← (if bool_decide (arch = "ARM")
       then
       l ← append l (KconfigCheck_init "harden_userspace" "my" "INTEGRITY" (Some "y"));
       Ok l
       else Ok l);
  l ← (if bool_decide (arch = "ARM64")
       then
       l ← append l
             (KconfigCheck_init "harden_userspace" "defconfig" "ARM64_PTR_AUTH" (Some "y"));
       l ← append l
             (KconfigCheck_init "harden_userspace" "defconfig" "ARM64_BTI" (Some "y"));
       Ok l
       else Ok l);
  l ← (if bool_decide (arch ∈ ["ARM"; "X86_32"])
       then
       l ← append l
             (KconfigCheck_init "harden_userspace" "defconfig" "VMSPLIT_3G" (Some "y"));
       Ok l
       else Ok l);
  l ← (if bool_decide (arch ∈ ["X86_64"; "ARM64"])
       then
       l ← append l
             (KconfigCheck_init "harden_userspace" "clipos" "ARCH_MMAP_RND_BITS" (Some "32"));
       Ok l
       else Ok l);
  l ← (if bool_decide (arch ∈ ["X86_32"; "ARM"])
       then
       l ← append l
             (KconfigCheck_init "harden_userspace" "my" "ARCH_MMAP_RND_BITS" (Some "16"));
       Ok l
       else Ok l);
  Ok l.

(** [add_cmdline_checks(l, arch)] *)
Definition add_cmdline_checks (l : list check) (arch : string) : Res (list check) :=
  l ← (if bool_decide (arch = "ARM64")
       then
       l ← append l
             (OR_of [CmdlineCheck_init "self_protection" "defconfig" "rodata" (Some "full");
                     AND_of [KconfigCheck_init "self_protection" "defconfig" "RODATA_FULL_DEFAULT_ENABLED" (Some "y");
                             CmdlineCheck_init "self_protection" "defconfig" "rodata" (Some "is not set")]]);
       Ok l
       else
       l ← append l
             (OR_of [CmdlineCheck_init "self_protection" "defconfig" "rodata" (Some "1");
                     CmdlineCheck_init "self_protection" "defconfig" "rodata" (Some "is not set")]);
       Ok l);
  l ← append l
        (OR_of [CmdlineCheck_init "self_protection" "kspp" "init_on_alloc" (Some "1");
                AND_of [KconfigCheck_init "self_protection" "kspp" "INIT_ON_ALLOC_DEFAULT_ON" (Some "y");
                        CmdlineCheck_init "self_protection" "kspp" "init_on_alloc" (Some "is not set")]]);
  l ← append l
        (OR_of [CmdlineCheck_init "self_protection" "kspp" "init_on_free" (Some "1");
                AND_of [KconfigCheck_init "self_protection" "kspp" "INIT_ON_FREE_DEFAULT_ON" (Some "y");
                        CmdlineCheck_init "self_protection" "kspp" "init_on_free" (Some "is not set")];
                AND_of [CmdlineCheck_init "self_protection" "kspp" "page_poison" (Some "1");
                        KconfigCheck_init "self_protection" "kspp" "PAGE_POISONING_ZERO" (Some "y");
                        CmdlineCheck_init "self_protection" "kspp" "slub_debug" (Some "P")]]);
  l ← append l
        (OR_of [CmdlineCheck_init "self_protection" "kspp" "slab_nomerge" None;
                AND_of [KconfigCheck_init "self_protection" "clipos" "SLAB_MERGE_DEFAULT" (Some "is not set");
                        CmdlineCheck_init "self_protection" "kspp" "slab_merge" (Some "is not set")]]);
  l ← append l
        (OR_of [CmdlineCheck_init "self_protection" "kspp" "iommu.strict" (Some "1");
                AND_of [KconfigCheck_init "self_protection" "kspp" "IOMMU_DEFAULT_DMA_STRICT" (Some "y");
                        CmdlineCheck_init "self_protection" "kspp" "iommu.strict" (Some "is not set")]]);
  l ← append l
        (OR_of [CmdlineCheck_init "self_protection" "kspp" "iommu.passthrough" (Some "0");
                AND_of [KconfigCheck_init "self_protection" "kspp" "IOMMU_DEFAULT_PASSTHROUGH" (Some "is not set");
                        CmdlineCheck_init "self_protection" "kspp" "iommu.passthrough" (Some "is not set")]]);
  l ← append l
        (OR_of [CmdlineCheck_init "self_protection" "kspp" "hardened_usercopy" (Some "1");
                AND_of [KconfigCheck_init "self_protection" "kspp" "HARDENED_USERCOPY" (Some "y");
                        CmdlineCheck_init "self_protection" "kspp" "hardened_usercopy" (Some "is not set")]]);
  l ← append l
        (OR_of [CmdlineCheck_init "self_protection" "kspp" "slab_common.usercopy_fallback" (Some "0");
                AND_of [KconfigCheck_init "self_protection" "kspp" "HARDENED_USERCOPY_FALLBACK" (Some "is not set");
                        CmdlineCheck_init "self_protection" "kspp" "slab_common.usercopy_fallback" (Some "is not set")]]);
  l ← (if bool_decide (arch ∈ ["X86_64"; "ARM64"; "X86_32"])
       then
       l ← append l
             (OR_of [CmdlineCheck_init "self_protection" "kspp" "randomize_kstack_offset" (Some "1");
                     AND_of [KconfigCheck_init "self_protection" "kspp" "RANDOMIZE_KSTACK_OFFSET_DEFAULT" (Some "y");
                             CmdlineCheck_init "self_protection" "kspp" "randomize_kstack_offset" (Some "is not set")]]);
       Ok l
       else Ok l);
  l ← (if bool_decide (arch ∈ ["X86_64"; "X86_32"])
       then
       l ← append l (CmdlineCheck_init "self_protection" "kspp" "pti" (Some "on"));
       Ok l
       else Ok l);
  l ← append l
        (CmdlineCheck_init "self_protection" "clipos" "page_alloc.shuffle" (Some "1"));
  l ← (if bool_decide (arch = "X86_64")
       then
       l ← append l
             (OR_of [CmdlineCheck_init "cut_attack_surface" "kspp" "vsyscall" (Some "none");
                     AND_of [KconfigCheck_init "cut_attack_surface" "kspp" "LEGACY_VSYSCALL_NONE" (Some "y");
                             CmdlineCheck_init "cut_attack_surface" "kspp" "vsyscall" (Some "is not set")]]);
       Ok l
       else Ok l);
  l ← append l
        (OR_of [CmdlineCheck_init "cut_attack_surface" "grsec" "debugfs" (Some "off");
                KconfigCheck_init "cut_attack_surface" "grsec" "DEBUG_FS" (Some "is not set")]);
  Ok l.

End Catalog.

(** ** Reporting *)

Module Report.
Import Checks.

Definition is_complex (c : check) : bool :=
  bool_decide (type_of c = complex).

(** [o.opts] *)
Definition opts_of (c : check) : list check :=
  match c with
  | OR _ opts | AND _ opts => opts
  | _ => []
  end.

(** [hasattr(o, 'name')], for a check that is not complex: a version check
    has no name. *)
Definition has_name (c : check) : bool := is_opt_check c.

(** [if hasattr(o, 'name'): known_options.append(o.name)] *)
Definition append_name (o : check) (known_options : list string) : Res (list string) :=
  if has_name o then n ← name_of o; Ok (known_options ++ [n])
  else Ok known_options.

(** [for o3 in o2.opts] of [print_unknown_options] *)
Fixpoint known_o3 (o2 : check) (opts : list check) (known_options : list string)
    : Res (list string) :=
  match opts with
  | [] => Ok known_options
  | o3 :: rest =>
      _ ← (if negb (is_complex o3) then Ok tt
           else n ← name_of o2;
                Raise (AssertionError ("unexpected ComplexOptCheck inside " +:+ n)));
      known_options ← append_name o3 known_options;
      known_o3 o2 rest known_options
  end.

(** [for o2 in o1.opts] *)
Fixpoint known_o2 (opts : list check) (known_options : list string)
    : Res (list string) :=
  match opts with
  | [] => Ok known_options
  | o2 :: rest =>
      known_options ←
        (if negb (is_complex o2) then append_name o2 known_options
         else known_o3 o2 (opts_of o2) known_options);
      known_o2 rest known_options
  end.

(** [for o1 in checklist] *)
Fixpoint known_o1 (checklist : list check) (known_options : list string)
    : Res (list string) :=
  match checklist with
  | [] => Ok known_options
  | o1 :: rest =>
      known_options ←
        (if negb (is_complex o1) then n ← name_of o1; Ok (known_options ++ [n])
         else known_o2 (opts_of o1) known_options);
      known_o1 rest known_options
  end.

(** [print_unknown_options(checklist, parsed_options)], with
    [parsed_options.items()] as a list in the order of the map; the answer
    is the lines that are printed. *)
Definition print_unknown_options (checklist : list check)
    (items : list (string * string)) : Res (list string) :=
  known_options ← known_o1 checklist [];
  Ok (omap (λ '(option, value),
              if bool_decide (option ∉ known_options)
              then Some ("[?] No check for option " +:+ option +:+ " (" +:+ value +:+ ")")
              else None) items).







End Report.

(** ** The driver *)

Module Driver.
Import Checks Parsers VersionDetect Catalog.



End Driver.

(** ** Vocabulary of the further properties *)

Module Semantics.
Import Checks Spec Report.

(** Whether a simple check is satisfied by the state it holds. *)
Definition opt_verdict (o : OptCheck) : bool :=
  match expected o with
  | None => bool_decide (state o ≠ None)
  | Some e =>
      bool_decide (state o = Some e) ||
      (bool_decide (state o = None) && bool_decide (e = "is not set"))
  end.

(** Whether a version check is satisfied by the version it holds. *)
Definition version_verdict (v : VersionCheck) : bool :=
  match ver v with
  | Tuple (a :: b :: _) =>
      ((ver_expected v).1 <? a) ||
      ((a =? (ver_expected v).1) && ((ver_expected v).2 <=? b))
  | _ => false
  end.

(** The Boolean reading of a rule: an [OR] is satisfied by any child, an
    [AND] needs every child. *)
Fixpoint verdict (c : check) : bool :=
  match c with
  | KconfigCheck o | CmdlineCheck o => opt_verdict o
  | Version v => version_verdict v
  | OR _ opts => existsb verdict opts
  | AND _ opts => forallb verdict opts
  end.

(** The names of the simple checks of a rule, at any depth, from left to
    right. *)
Fixpoint simple_names (c : check) : list string :=
  match c with
  | KconfigCheck o | CmdlineCheck o => [name o]
  | Version _ => []
  | OR _ opts | AND _ opts => concat (map simple_names opts)
  end.

(** A checklist entry that [print_unknown_options] can walk: it is not a
    version check, and a complex check inside a complex check has no
    complex child. *)
Definition walkable (c : check) : bool :=
  negb (bool_decide (type_of c = version)) &&
  forallb (λ o2, forallb (λ o3, negb (is_complex o3)) (opts_of o2)) (opts_of c).

(** A complex check at the third level of an entry. *)
Definition too_deep (c : check) : Prop :=
  ∃ o2 o3, o2 ∈ opts_of c ∧ o3 ∈ opts_of o2 ∧ is_complex o3 = true.

(** A check without its [result] attributes, at any depth. *)
Fixpoint forget_results (c : check) : check :=
  match c with
  | KconfigCheck o =>
      KconfigCheck (mkOptCheck (name o) (expected o) (decision o) (reason o) (state o) None)
  | CmdlineCheck o =>
      CmdlineCheck (mkOptCheck (name o) (expected o) (decision o) (reason o) (state o) None)
  | Version v => Version (mkVersionCheck (ver_expected v) (ver v) None)
  | OR _ opts => OR None (map forget_results opts)
  | AND _ opts => AND None (map forget_results opts)
  end.

(** Evaluation of a check succeeds and leaves an outcome of the form of its
    class, which starts with [OK] when the rule is satisfied and with [FAIL]
    when it is not. *)
Definition evaluates (c : check) : Prop :=
  ∃ (c' : check) (r : string),
    do_check c = Ok c' ∧ result_of c' = Some r ∧ outcome_ok c r ∧
    is_pass r = verdict c ∧ startswith r "FAIL" = negb (verdict c).




(** The boot parameter checks of a rule, at any depth, expect a value that
    normalization leaves as it is: a value that the parser can give. *)
Fixpoint expects_normalized (c : check) : bool :=
  match c with
  | CmdlineCheck o =>
      match expected o with
      | Some e => bool_decide (Parsers.normalize_cmdline_options (name o) e = e)
      | None => true
      end
  | OR _ opts | AND _ opts => forallb expects_normalized opts
  | _ => true
  end.


(** What the catalog functions see to for every entry they append: it
    satisfies the assertions of the constructors, it is nested as
    evaluation expects, and the walk of the report can go through it. *)
Definition catalog_entry (c : check) : bool := wf c && nesting_ok c && walkable c.

(** [l += [c]] for every [c] of [cs] in turn. *)
Definition snoc_all (l cs : list check) : list check :=
  fold_left (λ acc c, acc ++ [c]) cs l.


End Semantics.

Module Strings.
Import Spec.

Lemma append_cons (x : ascii) (a b : string) :
  String x a +:+ b = String x (a +:+ b).
Proof. reflexivity. Qed.

Lemma append_nil_l (b : string) : EmptyString +:+ b = b.
Proof. reflexivity. Qed.

Lemma append_assoc (a b c : string) : (a +:+ b) +:+ c = a +:+ (b +:+ c).
Proof.
  induction a as [|x a IH]; [done |]. by rewrite !append_cons, IH.
Qed.

Lemma append_nil_r (a : string) : a +:+ EmptyString = a.
Proof. induction a as [|x a IH]; [done |]. by rewrite append_cons, IH. Qed.

Lemma startswith_cons (a b : ascii) (s p : string) :
  startswith (String b s) (String a p) = Ascii.eqb a b && startswith s p.
Proof. reflexivity. Qed.

Lemma startswith_app (p t : string) : startswith (p +:+ t) p = true.
Proof.
  induction p as [|a p IH]; [done |].
  by rewrite append_cons, startswith_cons, Ascii.eqb_refl, IH.
Qed.

Lemma startswith_elim (s p : string) :
  startswith s p = true → ∃ t : string, s = p +:+ t.
Proof.
  revert s. induction p as [|a p IH]; intros s; [by exists s |].
  destruct s as [|b s]; [done |]. rewrite startswith_cons.
  intros [Hab Hs]%andb_prop. apply Ascii.eqb_eq in Hab as ->.
  destruct (IH s Hs) as [t ->]. by exists t.
Qed.

Lemma strip_prefix_app (l s : string) : strip_prefix l (l +:+ s) = Some s.
Proof.
  induction l as [|a l IH]; [done |].
  rewrite append_cons. cbn. by rewrite Ascii.eqb_refl.
Qed.

Lemma strip_prefix_elim (l s t : string) :
  strip_prefix l s = Some t → s = l +:+ t.
Proof.
  revert s. induction l as [|a l IH]; intros s; cbn; [by intros [= ->] |].
  destruct s as [|b s]; [done |].
  destruct (Ascii.eqb a b) eqn:Hab; [| done].
  apply Ascii.eqb_eq in Hab as ->. intros H.
  by rewrite (IH s H), append_cons.
Qed.

(** A starred class takes a run of characters of the class. *)
Lemma re_star_intro (k : string → bool) (cls : ascii → bool) (w t : string) :
  string_forall cls w = true → k t = true → re_star k cls (w +:+ t) = true.
Proof.
  intros Hw Hk. induction w as [|c w IH].
  - rewrite append_nil_l. destruct t; cbn; by rewrite Hk.
  - cbn in Hw. apply andb_prop in Hw as [Hc Hw].
    rewrite append_cons. cbn. rewrite Hc, (IH Hw). apply orb_true_r.
Qed.

Lemma re_star_elim (k : string → bool) (cls : ascii → bool) (s : string) :
  re_star k cls s = true →
  ∃ w t : string, s = w +:+ t ∧ string_forall cls w = true ∧ k t = true.
Proof.
  induction s as [|c s IH]; cbn.
  - rewrite orb_false_r. intros Hk. by exists EmptyString, EmptyString.
  - intros [Hk | [Hc Hs]%andb_prop]%orb_prop.
    + by exists EmptyString, (String c s).
    + destruct (IH Hs) as (w & t & -> & Hw & Hk).
      exists (String c w), t. cbn. by rewrite Hc, Hw.
Qed.

Lemma is_word_sep (c : ascii) :
  is_word c = true → Ascii.eqb c "=" = false ∧ Ascii.eqb c " " = false.
Proof.
  destruct c as [[] [] [] [] [] [] [] []]; vm_compute; intros H; done.
Qed.

Lemma word_contains (w : string) :
  string_forall is_word w = true →
  contains "=" w = false ∧ contains " " w = false.
Proof.
  induction w as [|c w IH]; cbn; [done |].
  intros [Hc Hw]%andb_prop. destruct (is_word_sep c Hc) as [-> ->].
  by apply IH.
Qed.

Lemma contains_app (sep : ascii) (a b : string) :
  contains sep (a +:+ b) = contains sep a || contains sep b.
Proof.
  induction a as [|c a IH]; [done |].
  rewrite append_cons. cbn. rewrite IH. by rewrite orb_assoc.
Qed.

(** [s.split(sep, 1)] gives the text before the first [sep] and the text
    after it, or [s] alone when there is no [sep]. *)
Lemma split1_spec (sep : ascii) (s : string) :
  split1 sep s = if contains sep s then [before sep s; after sep s] else [s].
Proof.
  induction s as [|c s IH]; cbn; [done |].
  destruct (Ascii.eqb c sep); cbn; [done |].
  rewrite IH. by destruct (contains sep s).
Qed.

Lemma before_after_app (sep : ascii) (w rest : string) :
  contains sep w = false →
  before sep (w +:+ String sep rest) = w ∧
  after sep (w +:+ String sep rest) = rest ∧
  contains sep (w +:+ String sep rest) = true.
Proof.
  induction w as [|c w IH].
  - rewrite append_nil_l. cbn. rewrite Ascii.eqb_refl. done.
  - cbn. intros [Hc Hw]%orb_false_elim. rewrite append_cons. cbn. rewrite Hc. cbn.
    destruct (IH Hw) as (-> & -> & ->). done.
Qed.

Lemma before_after_none (sep : ascii) (s : string) :
  contains sep s = false → before sep s = s ∧ after sep s = EmptyString.
Proof.
  induction s as [|c s IH]; cbn; [done |].
  intros [Hc Hs]%orb_false_elim. rewrite Hc.
  destruct (IH Hs) as [-> ->]. done.
Qed.

Lemma split1_app (sep : ascii) (w rest : string) :
  contains sep w = false →
  split1 sep (w +:+ String sep rest) = [w; rest].
Proof.
  intros Hw. rewrite split1_spec.
  by destruct (before_after_app sep w rest Hw) as (-> & -> & ->).
Qed.

(** The first piece of a split is empty only if the text starts with the
    separator or is empty. *)
Lemma split1_first (sep c : ascii) (s o v : string) :
  Ascii.eqb c sep = false → split1 sep (String c s) = [o; v] → o ≠ EmptyString.
Proof.
  rewrite split1_spec. cbn. intros ->. cbn.
  destruct (contains sep s); [| done]. by intros [= <- _].
Qed.

Lemma readlines_cons (c : ascii) (rest : string) :
  readlines (String c rest) =
    if Ascii.eqb c "010" then String c EmptyString :: readlines rest
    else match readlines rest with
         | l :: ls => String c l :: ls
         | [] => [String c EmptyString]
         end.
Proof. reflexivity. Qed.

Lemma readline_cons (c : ascii) (rest : string) :
  readline (String c rest) =
    if Ascii.eqb c "010" then (String c EmptyString, rest)
    else let '(l, r) := readline rest in (String c l, r).
Proof. reflexivity. Qed.

(** [readlines] is [readline] again and again. *)
Lemma readlines_readline (c : ascii) (text : string) :
  readlines (String c text) =
    (readline (String c text)).1 :: readlines (readline (String c text)).2.
Proof.
  revert c. induction text as [|c' text IH]; intros c.
  - cbn. by destruct (Ascii.eqb c "010").
  - rewrite (readlines_cons c), (readline_cons c).
    destruct (Ascii.eqb c "010"); [done |].
    rewrite (IH c'). by destruct (readline (String c' text)).
Qed.

End Strings.

Module SimpleChecks.
Import Checks Spec.

Lemma is_pass_FAIL (s : string) : is_pass ("FAIL: " +:+ s) = false.
Proof. reflexivity. Qed.

Lemma is_pass_OK (s : string) : is_pass ("OK" +:+ s) = true.
Proof. reflexivity. Qed.

(** [OptCheck.check] touches the [result] attribute only. *)
Lemma OptCheck_check_frame (o : OptCheck) :
  name (OptCheck_check o) = name o ∧
  expected (OptCheck_check o) = expected o ∧
  decision (OptCheck_check o) = decision o ∧
  reason (OptCheck_check o) = reason o ∧
  state (OptCheck_check o) = state o.
Proof. destruct o; repeat split. Qed.

(** C1. The decision procedure of a simple build-option or boot-parameter
    check is total: [check()] never raises and sets [result] to a text [r]
    such that
    - with no expected value, [r] is the PASS text [OK: is present] when the
      state is not absent and [FAIL: not present] when it is;
    - with an expected value [e] equal to the state, [r] is [OK];
    - with the state absent, [r] is the PASS text [OK: not found] when [e]
      is [is not set], and [FAIL: not found] for any other [e];
    - otherwise (state present, not equal to [e]) [r] is FAIL carrying the
      observed value between double quotes. *)
Theorem OptCheck_check_decision (o : OptCheck) :
  ∃ r : string,
    do_check (KconfigCheck o) = Ok (KconfigCheck (set_result o r)) ∧
    do_check (CmdlineCheck o) = Ok (CmdlineCheck (set_result o r)) ∧
    (expected o = None →
       (state o ≠ None → r = "OK: is present") ∧
       (state o = None → r = "FAIL: not present") ∧
       (is_pass r = true ↔ state o ≠ None)) ∧
    (∀ e : string, expected o = Some e →
       (state o = Some e → r = "OK") ∧
       (state o = None →
          (e = "is not set" → r = "OK: not found") ∧
          (e ≠ "is not set" → r = "FAIL: not found") ∧
          (is_pass r = true ↔ e = "is not set")) ∧
       (∀ s : string, state o = Some s → s ≠ e →
          r = "FAIL: " +:+ dq +:+ s +:+ dq ∧ is_pass r = false)).
Proof.
  exists (OptCheck_outcome (expected o) (state o)).
  split; [reflexivity | split; [reflexivity |]].
  destruct o as [n ex de re st rs]; simpl.
  split.
  - intros ->. unfold OptCheck_outcome.
    destruct st as [s|]; repeat split; intros; done.
  - intros e ->. unfold OptCheck_outcome. split; [| split].
    + intros ->. by rewrite bool_decide_eq_true_2.
    + intros ->. rewrite bool_decide_eq_false_2 by done.
      case_bool_decide; split; [done | split; done | done | split; done].
    + intros s -> Hne. rewrite bool_decide_eq_false_2 by congruence. done.
Qed.

(** C4. A version check whose [ver] is populated with the pair
    [(a, b)] never raises; its outcome is the PASS text
    [OK: version >= M.m] iff [(a, b)] is at least the required [(M, m)] in
    lexicographic order, and the FAIL text [FAIL: version < M.m] otherwise;
    both texts state the required bound. *)
Theorem VersionCheck_check_lex (v : VersionCheck) (a b : Z) :
  ver v = Tuple [a; b] →
  ∃ r : string,
    do_check (Version v) = Ok (Version (set_vresult v r)) ∧
    (is_pass r = true ↔ lex_ge (a, b) (ver_expected v)) ∧
    (lex_ge (a, b) (ver_expected v) →
       r = "OK: version >= " +:+ pretty (ver_expected v).1 +:+ "."
             +:+ pretty (ver_expected v).2) ∧
    (¬ lex_ge (a, b) (ver_expected v) →
       r = "FAIL: version < " +:+ pretty (ver_expected v).1 +:+ "."
             +:+ pretty (ver_expected v).2).
Proof.
  intros Hver. destruct v as [[M m] d rs]; simpl in *; subst d.
  unfold VersionCheck_check, lex_ge; simpl.
  assert (Hpass : is_pass (version_ok (M, m)) = true) by reflexivity.
  assert (Hfail : is_pass (version_fail (M, m)) = false) by reflexivity.
  destruct (Z.ltb_spec M a) as [H1|H1];
    [| destruct (Z.ltb_spec a M) as [H2|H2];
       [| simpl; destruct (Z.leb_spec m b) as [H3|H3]]];
    (eexists; split; [reflexivity |]);
    rewrite ?Hpass, ?Hfail;
    (split; [split; [intros; lia || done | intros; done || (exfalso; lia)] |]);
    (split; [intros; done || (exfalso; lia) |]);
    intros Hn; try done; exfalso; apply Hn; lia.
Qed.

Lemma VersionCheck_check_lex_witness :
  ∃ r : string,
    do_check (Version (mkVersionCheck (5, 5) (Tuple [5; 10]) None))
      = Ok (Version (mkVersionCheck (5, 5) (Tuple [5; 10]) (Some r))) ∧
    r = "OK: version >= 5.5".
Proof.
  destruct (VersionCheck_check_lex (mkVersionCheck (5, 5) (Tuple [5; 10]) None) 5 10
              eq_refl) as (r & Hr & _ & Hok & _).
  exists r. split; [exact Hr |].
  rewrite Hok; [reflexivity | right; simpl; lia].
Defined.

End SimpleChecks.

Module Normalization.
Import Parsers.

Lemma truthy_spellings :
  "on" ∈ truthy_values ∧ "ON" ∈ truthy_values ∧
  "y" ∈ truthy_values ∧ "yes" ∈ truthy_values.
Proof. unfold truthy_values. repeat split; set_solver. Qed.

Lemma falsy_spellings :
  "off" ∈ falsy_values ∧ "N" ∈ falsy_values ∧ "no" ∈ falsy_values.
Proof. unfold falsy_values. repeat split; set_solver. Qed.

Lemma truthy_falsy_disjoint (value : string) :
  value ∈ truthy_values → value ∉ falsy_values.
Proof.
  unfold truthy_values, falsy_values. intros Ht Hf.
  repeat (apply elem_of_cons in Ht as [-> | Ht];
          [pose proof (bool_decide_pack _ Hf) as Hd; by vm_compute in Hd |]).
  by apply elem_of_nil in Ht.
Qed.

(** C7. Command-line value normalization: for the two exempted names
    [pti] and [debugfs] the value comes back unchanged whatever it is; for
    every other name a value in the truthy set (which holds [on], [ON],
    [y], [yes]) becomes [1], a value in the falsy set (which holds [off],
    [N], [no]) becomes [0], and any other value comes back unchanged. *)
Theorem normalize_cmdline_options_spec (option value : string) :
  (option = "pti" ∨ option = "debugfs" →
     normalize_cmdline_options option value = value) ∧
  (option ≠ "pti" → option ≠ "debugfs" →
     (value ∈ truthy_values → normalize_cmdline_options option value = "1") ∧
     (value ∈ falsy_values → normalize_cmdline_options option value = "0") ∧
     (value ∉ truthy_values → value ∉ falsy_values →
        normalize_cmdline_options option value = value)) ∧
  ("on" ∈ truthy_values ∧ "ON" ∈ truthy_values ∧
   "y" ∈ truthy_values ∧ "yes" ∈ truthy_values) ∧
  ("off" ∈ falsy_values ∧ "N" ∈ falsy_values ∧ "no" ∈ falsy_values).
Proof.
  split; [| split; [| split; [apply truthy_spellings | apply falsy_spellings]]].
  - unfold normalize_cmdline_options. intros [-> | ->]; reflexivity.
  - intros Hpti Hdbg. unfold normalize_cmdline_options.
    rewrite (bool_decide_eq_false_2 _ Hpti), (bool_decide_eq_false_2 _ Hdbg).
    split; [| split].
    + intros Ht. by rewrite (bool_decide_eq_true_2 _ Ht).
    + intros Hf.
      rewrite bool_decide_eq_false_2, (bool_decide_eq_true_2 _ Hf); [done |].
      intros Ht. by apply (truthy_falsy_disjoint value).
    + intros Ht Hf.
      by rewrite (bool_decide_eq_false_2 _ Ht), (bool_decide_eq_false_2 _ Hf).
Qed.

(** The exemption is by name, and by exact spelling of the name. *)
Example normalize_examples :
  normalize_cmdline_options "pti" "on" = "on" ∧
  normalize_cmdline_options "debugfs" "off" = "off" ∧
  normalize_cmdline_options "rodata" "on" = "1" ∧
  normalize_cmdline_options "rodata" "No" = "0" ∧
  normalize_cmdline_options "rodata" "full" = "full" ∧
  normalize_cmdline_options "PTI" "on" = "1".
Proof. repeat split. Qed.

End Normalization.

Module CompoundChecks.
Import Checks Spec.

(** Induction on a check, with the property at hand for the children of a
    complex check. *)
Lemma check_induction (P : check → Prop) :
  (∀ o, P (KconfigCheck o)) →
  (∀ o, P (CmdlineCheck o)) →
  (∀ v, P (Version v)) →
  (∀ res opts, Forall P opts → P (OR res opts)) →
  (∀ res opts, Forall P opts → P (AND res opts)) →
  ∀ c, P c.
Proof.
  intros HK HC HV HOR HAND.
  fix IH 1. intros [o|o|v|res opts|res opts].
  - apply HK.
  - apply HC.
  - apply HV.
  - apply HOR.
    exact ((fix children (l : list check) : Forall P l :=
              match l with
              | [] => @List.Forall_nil _ P
              | x :: l' => @List.Forall_cons _ P x l' (IH x) (children l')
              end) opts).
  - apply HAND.
    exact ((fix children (l : list check) : Forall P l :=
              match l with
              | [] => @List.Forall_nil _ P
              | x :: l' => @List.Forall_cons _ P x l' (IH x) (children l')
              end) opts).
Qed.


(** ** Names survive evaluation *)

Lemma wf_name_of (c : check) :
  wf c = true → type_of c ≠ version →
  ∃ (n : string) (e : option string), name_of c = Ok n ∧ expected_of c = Ok e.
Proof.
  destruct c as [o|o|v|res opts|res opts]; simpl; intros Hwf Hty;
    try (by eauto); try done.
  all: destruct opts as [|c0 [|c1 rest]]; try done.
  all: destruct c0; try done; simpl; eauto.
Qed.

Lemma do_check_Version_result (v : VersionCheck) (c' : check) :
  do_check (Version v) = Ok c' →
  result_of c' = Some (version_ok (ver_expected v)) ∨
  result_of c' = Some (version_fail (ver_expected v)).
Proof.
  simpl. unfold VersionCheck_check.
  destruct (ver_item (ver v) 0) as [v0|]; simpl; [| done].
  destruct (_ <? v0); simpl; [intros [= <-]; auto |].
  destruct (v0 <? _); simpl; [intros [= <-]; auto |].
  destruct (ver_item (ver v) 1) as [v1|]; simpl; [| done].
  destruct (_ <=? v1); simpl; intros [= <-]; auto.
Qed.


Lemma do_check_OR (res : option string) (opts : list check) :
  do_check (OR res opts) =
    st ← OR_loop do_check 0 opts;
    match loop_end st with
    | Returned r => Ok (OR r (loop_opts st))
    | Exhausted => c0 ← getitem (loop_opts st) 0;
                   Ok (OR (result_of c0) (loop_opts st))
    end.
Proof. reflexivity. Qed.

Lemma do_check_AND (res : option string) (opts : list check) :
  do_check (AND res opts) =
    st ← AND_loop do_check 0 opts;
    match loop_end st with
    | Returned r => Ok (AND r (loop_opts st))
    | Exhausted => Ok (AND res (loop_opts st))
    end.
Proof. reflexivity. Qed.

(** ** The two loops, for any way of checking a child *)

Section Loops.
Variable f : check → Res check.

(** Every child before the first passing one fails: the loop returns at the
    passing child, having called [check()] on the indices up to it, in
    order, and leaves the later children alone. *)
Lemma OR_loop_pass (i : nat) (pre pre' post : list check) (c c' : check) (r : string) :
  Forall2 (λ x x', f x = Ok x' ∧ failed x') pre pre' →
  f c = Ok c' → result_of c' = Some r → is_pass r = true →
  OR_loop f i (pre ++ c :: post) =
    r' ← (if bool_decide ((i + length pre)%nat ≠ 0%nat)
          then OR_describe c' r else Ok r);
    Ok (mkLoop (Returned (Some r')) (pre' ++ c' :: post)
               (seq i (S (length pre)))).
Proof.
  intros Hpre Hc Hr Hp. revert i.
  induction Hpre as [|x x' pre pre' [Hx (rx & Hrx & Hfx)] _ IH]; intros i.
  - simpl. rewrite Hc; simpl. unfold result_str. rewrite Hr; simpl.
    unfold is_pass in Hp. rewrite Hp. rewrite Nat.add_0_r. reflexivity.
  - simpl. rewrite Hx; simpl. unfold result_str. rewrite Hrx; simpl.
    unfold is_pass in Hfx. rewrite Hfx.
    rewrite IH. replace (S i + length pre)%nat with (i + S (length pre))%nat by lia.
    destruct (bool_decide _); [| reflexivity].
    destruct (OR_describe c' r); reflexivity.
Qed.

(** No child passes: the loop runs out of children after calling [check()]
    on all of them, in order. *)
Lemma OR_loop_none (i : nat) (opts opts' : list check) :
  Forall2 (λ x x', f x = Ok x' ∧ failed x') opts opts' →
  OR_loop f i opts = Ok (mkLoop Exhausted opts' (seq i (length opts))).
Proof.
  intros Hall. revert i.
  induction Hall as [|x x' l l' [Hx (rx & Hrx & Hfx)] _ IH]; intros i; [done |].
  simpl. rewrite Hx; simpl. unfold result_str. rewrite Hrx; simpl.
  unfold is_pass in Hfx. rewrite Hfx. by rewrite IH.
Qed.

(** Every child after index 0 passes: the loop does not return before
    index 0, and has called [check()] from the last child down. *)
Lemma AND_loop_pass (i : nat) (opts opts' : list check) :
  i ≠ 0%nat →
  Forall2 (λ x x', f x = Ok x' ∧ passed x') opts opts' →
  AND_loop f i opts = Ok (mkLoop Exhausted opts' (rev (seq i (length opts)))).
Proof.
  intros Hi Hall. revert i Hi.
  induction Hall as [|x x' l l' [Hx (rx & Hrx & Hpx)] _ IH]; intros i Hi; [done |].
  simpl. rewrite IH by lia. simpl. rewrite Hx; simpl.
  rewrite bool_decide_eq_false_2 by done.
  unfold result_str. rewrite Hrx; simpl.
  unfold is_pass in Hpx. rewrite Hpx. reflexivity.
Qed.

(** The children after [c] pass and [c], which is not the first child,
    fails: the loop returns at [c]; the children before [c] are not
    reached. *)
Lemma AND_loop_fail (i : nat) (pre post post' : list check) (c c' : check) (r : string) :
  (i + length pre)%nat ≠ 0%nat →
  Forall2 (λ x x', f x = Ok x' ∧ passed x') post post' →
  f c = Ok c' → result_of c' = Some r → is_pass r = false →
  AND_loop f i (pre ++ c :: post) =
    r' ← AND_describe c' r;
    Ok (mkLoop (Returned (Some r')) (pre ++ c' :: post')
               (rev (seq (i + length pre) (S (length post))))).
Proof.
  intros Hi Hpost Hc Hr Hf. revert i Hi.
  induction pre as [|x pre IH]; intros i Hi.
  - simpl in *. rewrite Nat.add_0_r in *.
    rewrite (AND_loop_pass (S i) post post') by (done || lia). simpl.
    rewrite Hc; simpl. rewrite bool_decide_eq_false_2 by done.
    unfold result_str. rewrite Hr; simpl.
    unfold is_pass in Hf. rewrite Hf. simpl.
    destruct (AND_describe c' r); reflexivity.
  - simpl. rewrite IH by (simpl in Hi; lia).
    replace (S i + length pre)%nat with (i + S (length pre))%nat by lia.
    destruct (AND_describe c' r); reflexivity.
Qed.

(** Every child after index 0 passes: the loop reaches index 0 and returns
    with the outcome of the first child. *)
Lemma AND_loop_first (c0 c0' : check) (rest rest' : list check) :
  Forall2 (λ x x', f x = Ok x' ∧ passed x') rest rest' →
  f c0 = Ok c0' →
  AND_loop f 0 (c0 :: rest) =
    Ok (mkLoop (Returned (result_of c0')) (c0' :: rest')
               (rev (seq 0 (S (length rest))))).
Proof.
  intros Hrest Hc0. simpl.
  rewrite (AND_loop_pass 1 rest rest') by (done || lia). simpl.
  by rewrite Hc0.
Qed.

(** The first child stays at the head of the children, checked. *)
Lemma OR_loop_head (i : nat) (c0 : check) (tl : list check) (st : loop_state) :
  OR_loop f i (c0 :: tl) = Ok st →
  ∃ c0' tl', loop_opts st = c0' :: tl' ∧ f c0 = Ok c0'.
Proof.
  simpl. destruct (f c0) as [c0'|]; simpl; [| done].
  destruct (result_str c0') as [r|]; simpl; [| done].
  destruct (startswith r "OK").
  - destruct (if bool_decide (i ≠ 0%nat) then OR_describe c0' r else Ok r);
      simpl; [| done].
    intros [= <-]. simpl. eauto.
  - destruct (OR_loop f (S i) tl) as [st'|]; simpl; [| done].
    intros [= <-]. simpl. eauto.
Qed.

(** The first child stays at the head of the children, checked or not. *)
Lemma AND_loop_head (i : nat) (c0 : check) (tl : list check) (st : loop_state) :
  AND_loop f i (c0 :: tl) = Ok st →
  ∃ c0' tl', loop_opts st = c0' :: tl' ∧ (c0' = c0 ∨ f c0 = Ok c0').
Proof.
  simpl. destruct (AND_loop f (S i) tl) as [st'|]; simpl; [| done].
  destruct (loop_end st').
  { intros [= <-]. simpl. eauto. }
  destruct (f c0) as [c0'|]; simpl; [| done].
  destruct (bool_decide (i = 0%nat)).
  { intros [= <-]. simpl. eauto. }
  destruct (result_str c0') as [r|]; simpl; [| done].
  destruct (negb (startswith r "OK")).
  - destruct (AND_describe c0' r); simpl; [| done].
    intros [= <-]. simpl. eauto.
  - intros [= <-]. simpl. eauto.
Qed.

End Loops.

(** Checking an object does not change its name or its expected value. *)
Lemma do_check_name_of (c c' : check) :
  wf c = true → do_check c = Ok c' →
  name_of c' = name_of c ∧ expected_of c' = expected_of c.
Proof.
  intros Hwf Hc.
  assert (Hsimple : ∀ c0 c0' : check,
            is_opt_check c0 = true → c0' = c0 ∨ do_check c0 = Ok c0' →
            name_of c0' = name_of c0 ∧ expected_of c0' = expected_of c0).
  { intros c0 c0' H0 [-> | H1]; [done |].
    destruct c0; try done; simpl in H1; by injection H1 as <-. }
  destruct c as [o|o|v|res opts|res opts]; simpl in *.
  - by injection Hc as <-.
  - by injection Hc as <-.
  - destruct (VersionCheck_check v); simpl in Hc; [by injection Hc as <- | done].
  - destruct opts as [|c0 [|c1 rest]]; try done.
    apply andb_prop in Hwf as [H0 _].
    destruct (OR_loop do_check 0 (c0 :: c1 :: rest)) as [st|] eqn:Hst;
      simpl in Hc; [| done].
    apply OR_loop_head in Hst as (c0' & tl' & Hopts & H1).
    rewrite Hopts in Hc.
    destruct (loop_end st); simpl in Hc; injection Hc as <-; simpl; auto.
  - destruct opts as [|c0 [|c1 rest]]; try done.
    apply andb_prop in Hwf as [H0 _].
    destruct (AND_loop do_check 0 (c0 :: c1 :: rest)) as [st|] eqn:Hst;
      simpl in Hc; [| done].
    apply AND_loop_head in Hst as (c0' & tl' & Hopts & H1).
    rewrite Hopts in Hc.
    destruct (loop_end st); simpl in Hc; injection Hc as <-; simpl; auto.
Qed.

(** A checked child that is not a version check has a name. *)
Lemma checked_child_name (c c' : check) (r : string) :
  wf c = true → do_check c = Ok c' → result_of c' = Some r →
  startswith r "OK: version" = false → startswith r "FAIL: version" = false →
  ∃ (n : string) (e : option string),
    name_of c = Ok n ∧ expected_of c = Ok e ∧
    name_of c' = Ok n ∧ expected_of c' = Ok e.
Proof.
  intros Hwf Hc Hr Hok Hfail.
  assert (Hty : type_of c ≠ version).
  { destruct c; try done. intros _.
    apply do_check_Version_result in Hc as [Hv | Hv];
      rewrite Hv in Hr; injection Hr as <-; done. }
  destruct (wf_name_of c Hwf Hty) as (n & e & Hn & He).
  destruct (do_check_name_of c c' Hwf Hc) as [Hn' He'].
  exists n, e. by rewrite Hn', He'.
Qed.

(** ** What [OR.check] and [AND.check] say about a child that is not the
    first *)

Lemma OR_describe_other (c : check) (r : string) :
  r ≠ "OK" → r ≠ "OK: not found" → r ≠ "OK: is present" →
  OR_describe c r =
    if startswith r "OK: version" then Ok r
    else Raise (AssertionError ("unexpected OK description " +:+ dq +:+ r +:+ dq)).
Proof.
  intros H1 H2 H3. unfold OR_describe.
  rewrite !bool_decide_eq_false_2 by done.
  by destruct (startswith r "OK: version").
Qed.

Lemma AND_describe_other (c : check) (r : string) :
  startswith r ("FAIL: " +:+ dq) = false → r ≠ "FAIL: not found" →
  r ≠ "FAIL: not present" →
  AND_describe c r =
    if startswith r "FAIL: version" then Ok r
    else Raise (AssertionError ("unexpected FAIL description " +:+ dq +:+ r +:+ dq)).
Proof.
  intros H1 H2 H3. unfold AND_describe.
  rewrite H1, !bool_decide_eq_false_2 by done. simpl.
  by destruct (startswith r "FAIL: version").
Qed.

(** [OR.check] when the earliest passing child is [c]. *)
Lemma OR_check_at (res : option string) (pre pre' post : list check)
    (c c' : check) (r : string) :
  Forall2 (λ x x', do_check x = Ok x' ∧ failed x') pre pre' →
  do_check c = Ok c' → result_of c' = Some r → is_pass r = true →
  do_check (OR res (pre ++ c :: post)) =
    r' ← (if bool_decide (length pre ≠ 0%nat) then OR_describe c' r else Ok r);
    Ok (OR (Some r') (pre' ++ c' :: post)).
Proof.
  intros Hpre Hc Hr Hp. simpl.
  rewrite (OR_loop_pass do_check 0 pre pre' post c c' r) by done. simpl.
  destruct (if bool_decide _ then _ else _); reflexivity.
Qed.

(** [AND.check] when the children after [c] pass and [c], not the first
    child, fails. *)
Lemma AND_check_at (res : option string) (pre post post' : list check)
    (c c' : check) (r : string) :
  pre ≠ [] →
  Forall2 (λ x x', do_check x = Ok x' ∧ passed x') post post' →
  do_check c = Ok c' → result_of c' = Some r → is_pass r = false →
  do_check (AND res (pre ++ c :: post)) =
    r' ← AND_describe c' r;
    Ok (AND (Some r') (pre ++ c' :: post')).
Proof.
  intros Hne Hpost Hc Hr Hf. simpl.
  rewrite (AND_loop_fail do_check 0 pre post post' c c' r); try done.
  - destruct (AND_describe c' r); reflexivity.
  - destruct pre; [done | simpl; lia].
Qed.

Lemma wf_child (res : option string) (opts : list check) (c : check) :
  (wf (OR res opts) = true ∨ wf (AND res opts) = true) → c ∈ opts →
  wf c = true.
Proof.
  intros Hwf Hin.
  assert (Hall : forallb wf opts = true)
    by (destruct Hwf as [H | H]; simpl in H; by apply andb_prop in H as [_ ?]).
  rewrite forallb_forall in Hall. apply Hall. by apply list_elem_of_In.
Qed.

(** The text [OR.check] makes of the outcome [r] of a checked child that is
    not the first child. *)
Lemma OR_describe_child (c c' : check) (r : string) :
  wf c = true → do_check c = Ok c' → result_of c' = Some r →
  (r = "OK" →
     ∃ (n : string) (e : option string),
       name_of c = Ok n ∧ expected_of c = Ok e ∧
       OR_describe c' r = Ok ("OK: " +:+ n +:+ " " +:+ dq +:+ format_opt e +:+ dq)) ∧
  (r = "OK: not found" →
     ∃ n : string,
       name_of c = Ok n ∧ OR_describe c' r = Ok ("OK: " +:+ n +:+ " not found")) ∧
  (r = "OK: is present" →
     ∃ n : string,
       name_of c = Ok n ∧ OR_describe c' r = Ok ("OK: " +:+ n +:+ " is present")) ∧
  (startswith r "OK: version" = true → OR_describe c' r = Ok r) ∧
  (r ≠ "OK" → r ≠ "OK: not found" → r ≠ "OK: is present" →
   startswith r "OK: version" = false →
     OR_describe c' r =
       Raise (AssertionError ("unexpected OK description " +:+ dq +:+ r +:+ dq))).
Proof.
  intros Hwfc Hc Hr.
  assert (Hnames := checked_child_name c c' r Hwfc Hc Hr).
  split; [| split; [| split; [| split]]].
  - intros ->. destruct (Hnames eq_refl eq_refl) as (n & e & Hn & He & Hn' & He').
    exists n, e. repeat split; try done.
    unfold OR_describe. rewrite bool_decide_eq_true_2 by done.
    by rewrite Hn', He'.
  - intros ->. destruct (Hnames eq_refl eq_refl) as (n & e & Hn & He & Hn' & He').
    exists n. split; [done |].
    unfold OR_describe. rewrite bool_decide_eq_false_2 by done.
    rewrite bool_decide_eq_true_2 by done. by rewrite Hn'.
  - intros ->. destruct (Hnames eq_refl eq_refl) as (n & e & Hn & He & Hn' & He').
    exists n. split; [done |].
    unfold OR_describe. rewrite !bool_decide_eq_false_2 by done.
    rewrite bool_decide_eq_true_2 by done. by rewrite Hn'.
  - intros Hv. rewrite OR_describe_other, Hv; try done.
    all: intros ->; done.
  - intros H1 H2 H3 Hv. by rewrite OR_describe_other, Hv.
Qed.

(** The text [AND.check] makes of the outcome [r] of a checked child that
    is not the first child. *)
Lemma AND_describe_child (c c' : check) (r : string) :
  wf c = true → do_check c = Ok c' → result_of c' = Some r →
  (startswith r ("FAIL: " +:+ dq) = true ∨ r = "FAIL: not found" →
     ∃ (n : string) (e : option string),
       name_of c = Ok n ∧ expected_of c = Ok e ∧
       AND_describe c' r =
         Ok ("FAIL: " +:+ n +:+ " not " +:+ dq +:+ format_opt e +:+ dq)) ∧
  (r = "FAIL: not present" →
     ∃ n : string,
       name_of c = Ok n ∧ AND_describe c' r = Ok ("FAIL: " +:+ n +:+ " not present")) ∧
  (startswith r "FAIL: version" = true → AND_describe c' r = Ok r) ∧
  (startswith r ("FAIL: " +:+ dq) = false → r ≠ "FAIL: not found" →
   r ≠ "FAIL: not present" → startswith r "FAIL: version" = false →
     AND_describe c' r =
       Raise (AssertionError ("unexpected FAIL description " +:+ dq +:+ r +:+ dq))).
Proof.
  intros Hwfc Hc Hr.
  assert (Hnames := checked_child_name c c' r Hwfc Hc Hr).
  split; [| split; [| split]].
  - intros Hq.
    assert (Hv : startswith r "OK: version" = false ∧
                 startswith r "FAIL: version" = false).
    { destruct Hq as [Hq | ->]; [| done].
      apply Strings.startswith_elim in Hq as [t ->]. done. }
    destruct (Hnames (proj1 Hv) (proj2 Hv)) as (n & e & Hn & He & Hn' & He').
    exists n, e. repeat split; try done.
    unfold AND_describe.
    replace (startswith r ("FAIL: " +:+ dq) || bool_decide (r = "FAIL: not found"))
      with true.
    + by rewrite Hn', He'.
    + destruct Hq as [-> | ->]; [done |].
      by rewrite bool_decide_eq_true_2, orb_true_r.
  - intros ->. destruct (Hnames eq_refl eq_refl) as (n & e & Hn & He & Hn' & He').
    exists n. split; [done |]. unfold AND_describe.
    rewrite bool_decide_eq_false_2 by done.
    rewrite bool_decide_eq_true_2 by done. simpl. by rewrite Hn'.
  - intros Hv. rewrite AND_describe_other, Hv; try done.
    + destruct (startswith r ("FAIL: " +:+ dq)) eqn:Hq; [| done].
      apply Strings.startswith_elim in Hq as [t ->]. done.
    + intros ->; done.
    + intros ->; done.
  - intros H1 H2 H3 Hv. by rewrite AND_describe_other, Hv.
Qed.

(** C2 (amended). An [OR] check calls [check()] on its children strictly in
    order and stops at the earliest child whose outcome is PASS-class.
    When that child is the first one, its outcome is the outcome of the
    compound. When it is a later child, the compound's outcome is the
    child's outcome re-annotated with the child's name for the outcomes
    [OK], [OK: not found] and [OK: is present], it is the child's outcome
    unchanged for an outcome that starts with [OK: version], and for any
    other PASS-class outcome the run ends on a failed assertion. When no
    child passes, every child has been checked and the compound's outcome is
    exactly that of the first child. Children after the passing one are
    left as they were. *)
Theorem OR_check_spec (res : option string) (opts : list check) :
  wf (OR res opts) = true →
  (∀ (pre pre' post : list check) (c c' : check) (r : string),
     opts = pre ++ c :: post →
     Forall2 (λ x x', do_check x = Ok x' ∧ failed x') pre pre' →
     do_check c = Ok c' → result_of c' = Some r → is_pass r = true →
     ∃ out : Res string,
       OR_loop do_check 0 opts =
         (r' ← out;
          Ok (mkLoop (Returned (Some r')) (pre' ++ c' :: post)
                     (seq 0 (S (length pre))))) ∧
       do_check (OR res opts) =
         (r' ← out; Ok (OR (Some r') (pre' ++ c' :: post))) ∧
       (pre = [] → out = Ok r) ∧
       (pre ≠ [] →
          (r = "OK" →
             ∃ (n : string) (e : option string),
               name_of c = Ok n ∧ expected_of c = Ok e ∧
               out = Ok ("OK: " +:+ n +:+ " " +:+ dq +:+ format_opt e +:+ dq)) ∧
          (r = "OK: not found" →
             ∃ n : string,
               name_of c = Ok n ∧ out = Ok ("OK: " +:+ n +:+ " not found")) ∧
          (r = "OK: is present" →
             ∃ n : string,
               name_of c = Ok n ∧ out = Ok ("OK: " +:+ n +:+ " is present")) ∧
          (startswith r "OK: version" = true → out = Ok r) ∧
          (r ≠ "OK" → r ≠ "OK: not found" → r ≠ "OK: is present" →
           startswith r "OK: version" = false →
             out = Raise (AssertionError
                            ("unexpected OK description " +:+ dq +:+ r +:+ dq))))) ∧
  (∀ opts' : list check,
     Forall2 (λ x x', do_check x = Ok x' ∧ failed x') opts opts' →
     OR_loop do_check 0 opts =
       Ok (mkLoop Exhausted opts' (seq 0 (length opts))) ∧
     ∃ (c0' : check) (rest' : list check),
       opts' = c0' :: rest' ∧
       do_check (OR res opts) = Ok (OR (result_of c0') opts')).
Proof.
  intros Hwf. split.
  - intros pre pre' post c c' r -> Hpre Hc Hr Hp.
    exists (if bool_decide (length pre ≠ 0%nat) then OR_describe c' r else Ok r).
    split; [by apply OR_loop_pass |].
    split; [by apply OR_check_at |].
    split; [by intros -> |].
    intros Hne. rewrite bool_decide_eq_true_2 by (by destruct pre).
    assert (Hwfc : wf c = true).
    { apply (wf_child res (pre ++ c :: post)); [by left |].
      apply elem_of_app; right; left. }
    exact (OR_describe_child c c' r Hwfc Hc Hr).
  - intros opts' Hall. split; [by apply OR_loop_none |].
    destruct Hall as [|c0 c0' rest rest' H0 Hrest]; [done |].
    exists c0', rest'. split; [done |]. rewrite do_check_OR.
    rewrite (OR_loop_none do_check 0 (c0 :: rest) (c0' :: rest')); [done |].
    by constructor.
Qed.

Lemma OR_check_spec_witness :
  do_check (OR None [kconfig_check "CONFIG_FOO" (Some "y") None;
                     kconfig_check "CONFIG_FOO_LEGACY" (Some "y") (Some "y")])
  = Ok (OR (Some ("OK: CONFIG_FOO_LEGACY " +:+ dq +:+ "y" +:+ dq))
           [KconfigCheck (OptCheck_check
              (mkOptCheck "CONFIG_FOO" (Some "y") "kspp" "self_protection" None None));
            KconfigCheck (OptCheck_check
              (mkOptCheck "CONFIG_FOO_LEGACY" (Some "y") "kspp" "self_protection"
                          (Some "y") None))]).
Proof.
  pose (foo := mkOptCheck "CONFIG_FOO" (Some "y") "kspp" "self_protection" None None).
  pose (legacy := mkOptCheck "CONFIG_FOO_LEGACY" (Some "y") "kspp" "self_protection"
                             (Some "y") None).
  destruct (OR_check_spec None [KconfigCheck foo; KconfigCheck legacy] eq_refl)
    as [Hpass _].
  assert (Hpre : Forall2 (λ x x', do_check x = Ok x' ∧ failed x')
                   [KconfigCheck foo] [KconfigCheck (OptCheck_check foo)]).
  { constructor; [| constructor]. split; [reflexivity |].
    exists "FAIL: not found". split; reflexivity. }
  destruct (Hpass [KconfigCheck foo] [KconfigCheck (OptCheck_check foo)] []
                  (KconfigCheck legacy) (KconfigCheck (OptCheck_check legacy)) "OK"
                  eq_refl Hpre eq_refl eq_refl eq_refl)
    as (out & _ & Hdo & _ & Hout).
  destruct (Hout ltac:(discriminate)) as (Hok & _).
  destruct (Hok eq_refl) as (n & e & Hn & He & ->).
  injection Hn as <-. injection He as <-. exact Hdo.
Defined.

(** C2 as stated fails on the code. In [OR(A, OR(B, C))] with [A] and [B]
    not found and [C] set as expected, the first child fails and the second
    child, the inner [OR], passes with the re-annotated outcome
    [OK: CONFIG_C "y"]: the compound then has no outcome at all, the run
    ends on the assertion. And in [OR(A, VersionCheck((5, 5)))] with a newer
    kernel the outcome of the version check is taken over as it is: it
    carries no name, a version check has none. *)
Lemma OR_check_counterexample :
  let a := kconfig_check "CONFIG_A" (Some "y") None in
  let inner := OR None [kconfig_check "CONFIG_B" (Some "y") None;
                        kconfig_check "CONFIG_C" (Some "y") (Some "y")] in
  let v := version_check (5, 5) [5; 10] in
  wf (OR None [a; inner]) = true ∧
  (∃ a', do_check a = Ok a' ∧ failed a') ∧
  (∃ inner', do_check inner = Ok inner' ∧
             result_of inner' = Some ("OK: CONFIG_C " +:+ dq +:+ "y" +:+ dq) ∧
             passed inner') ∧
  do_check (OR None [a; inner]) =
    Raise (AssertionError ("unexpected OK description " +:+ dq +:+
                           "OK: CONFIG_C " +:+ dq +:+ "y" +:+ dq +:+ dq)) ∧
  (∃ opts', do_check (OR None [a; v]) = Ok (OR (Some "OK: version >= 5.5") opts')) ∧
  name_of v = Raise AttributeError.
Proof.
  repeat split.
  - eexists. split; [reflexivity |]. eexists. split; reflexivity.
  - eexists. split; [reflexivity |]. split; [reflexivity |].
    eexists. split; reflexivity.
  - eexists. reflexivity.
Qed.

(** C10. In an [OR] check whose earliest passing child is not the first
    one, the run goes on only if that child's outcome is exactly [OK],
    [OK: not found] or [OK: is present], or starts with [OK: version]; for
    any other PASS-class outcome of that child [OR.check] ends on the failed
    assertion [unexpected OK description] and the compound gets no
    outcome. *)
Theorem OR_check_unexpected_OK (res : option string)
    (pre pre' post : list check) (c c' : check) (r : string) :
  wf (OR res (pre ++ c :: post)) = true →
  pre ≠ [] →
  Forall2 (λ x x', do_check x = Ok x' ∧ failed x') pre pre' →
  do_check c = Ok c' → result_of c' = Some r → is_pass r = true →
  ((r = "OK" ∨ r = "OK: not found" ∨ r = "OK: is present" ∨
    startswith r "OK: version" = true) →
     ∃ r' : string,
       do_check (OR res (pre ++ c :: post)) = Ok (OR (Some r') (pre' ++ c' :: post))) ∧
  (¬ (r = "OK" ∨ r = "OK: not found" ∨ r = "OK: is present" ∨
      startswith r "OK: version" = true) →
     do_check (OR res (pre ++ c :: post)) =
       Raise (AssertionError ("unexpected OK description " +:+ dq +:+ r +:+ dq))).
Proof.
  intros Hwf Hne Hpre Hc Hr Hp.
  assert (Hwfc : wf c = true).
  { apply (wf_child res (pre ++ c :: post)); [by left |].
    apply elem_of_app; right; left. }
  assert (Hdo := OR_check_at res pre pre' post c c' r Hpre Hc Hr Hp).
  rewrite bool_decide_eq_true_2 in Hdo by (by destruct pre).
  destruct (OR_describe_child c c' r Hwfc Hc Hr) as (H1 & H2 & H3 & H4 & H5).
  rewrite Hdo. split.
  - intros [Hr1 | [Hr2 | [Hr3 | Hr4]]].
    + destruct (H1 Hr1) as (n & e & _ & _ & ->). eexists; reflexivity.
    + destruct (H2 Hr2) as (n & _ & ->). eexists; reflexivity.
    + destruct (H3 Hr3) as (n & _ & ->). eexists; reflexivity.
    + rewrite (H4 Hr4). eexists; reflexivity.
  - intros Hnot. rewrite H5; [reflexivity | | | |].
    + intros ?; apply Hnot; auto.
    + intros ?; apply Hnot; auto.
    + intros ?; apply Hnot; auto.
    + destruct (startswith r "OK: version"); [| done].
      exfalso; apply Hnot; auto.
Qed.

(** The nested case: an inner [OR] that passed through its own second
    child carries a re-annotated outcome, and the outer [OR] stops on the
    assertion. *)
Lemma OR_check_unexpected_OK_witness :
  do_check (OR None [cmdline_check "rodata" (Some "1") (Some "0");
                     OR None [kconfig_check "CONFIG_X" (Some "y") (Some "m");
                              kconfig_check "CONFIG_Y" None (Some "y")]])
  = Raise (AssertionError ("unexpected OK description " +:+ dq +:+
                           "OK: CONFIG_Y is present" +:+ dq)).
Proof.
  pose (c0 := cmdline_check "rodata" (Some "1") (Some "0")).
  pose (inner := OR None [kconfig_check "CONFIG_X" (Some "y") (Some "m");
                          kconfig_check "CONFIG_Y" None (Some "y")]).
  assert (Hpre : ∃ c0', Forall2 (λ x x', do_check x = Ok x' ∧ failed x') [c0] [c0']).
  { eexists. constructor; [| constructor]. split; [reflexivity |].
    eexists. split; reflexivity. }
  destruct Hpre as [c0' Hpre].
  assert (Hinner : ∃ inner', do_check inner = Ok inner' ∧
            result_of inner' = Some "OK: CONFIG_Y is present").
  { eexists. split; reflexivity. }
  destruct Hinner as (inner' & Hinner & Hres).
  destruct (OR_check_unexpected_OK None [c0] [c0'] [] inner inner'
              "OK: CONFIG_Y is present" eq_refl ltac:(discriminate) Hpre Hinner Hres
              eq_refl) as [_ Hbad].
  apply Hbad. intros [H | [H | [H | H]]]; discriminate H.
Defined.

(** C3 (amended). An [AND] check calls [check()] on its children from the
    last one down. The children after [c] pass and [c], which is not the
    first child, fails: the loop returns at [c], so the children before [c],
    the first child among them, are not checked and stay as they were. The
    compound's outcome then names [c] as the cause when the outcome of [c]
    is [FAIL: not found], [FAIL: not present] or carries an observed value;
    it is the outcome of [c] unchanged when that starts with
    [FAIL: version]; and for any other outcome of [c] the run ends on a
    failed assertion. When every child after the first passes, the first
    child is checked last and its outcome is the outcome of the compound. *)
Theorem AND_check_spec (res : option string) (opts : list check) :
  wf (AND res opts) = true →
  (∀ (pre post post' : list check) (c c' : check) (r : string),
     opts = pre ++ c :: post → pre ≠ [] →
     Forall2 (λ x x', do_check x = Ok x' ∧ passed x') post post' →
     do_check c = Ok c' → result_of c' = Some r → is_pass r = false →
     ∃ out : Res string,
       AND_loop do_check 0 opts =
         (r' ← out;
          Ok (mkLoop (Returned (Some r')) (pre ++ c' :: post')
                     (rev (seq (length pre) (S (length post)))))) ∧
       do_check (AND res opts) =
         (r' ← out; Ok (AND (Some r') (pre ++ c' :: post'))) ∧
       (startswith r ("FAIL: " +:+ dq) = true ∨ r = "FAIL: not found" →
          ∃ (n : string) (e : option string),
            name_of c = Ok n ∧ expected_of c = Ok e ∧
            out = Ok ("FAIL: " +:+ n +:+ " not " +:+ dq +:+ format_opt e +:+ dq)) ∧
       (r = "FAIL: not present" →
          ∃ n : string,
            name_of c = Ok n ∧ out = Ok ("FAIL: " +:+ n +:+ " not present")) ∧
       (startswith r "FAIL: version" = true → out = Ok r) ∧
       (startswith r ("FAIL: " +:+ dq) = false → r ≠ "FAIL: not found" →
        r ≠ "FAIL: not present" → startswith r "FAIL: version" = false →
          out = Raise (AssertionError
                         ("unexpected FAIL description " +:+ dq +:+ r +:+ dq)))) ∧
  (∀ (c0 c0' : check) (rest rest' : list check),
     opts = c0 :: rest →
     Forall2 (λ x x', do_check x = Ok x' ∧ passed x') rest rest' →
     do_check c0 = Ok c0' →
     AND_loop do_check 0 opts =
       Ok (mkLoop (Returned (result_of c0')) (c0' :: rest')
                  (rev (seq 0 (length opts)))) ∧
     do_check (AND res opts) = Ok (AND (result_of c0') (c0' :: rest'))).
Proof.
  intros Hwf. split.
  - intros pre post post' c c' r -> Hne Hpost Hc Hr Hf.
    exists (AND_describe c' r).
    split.
    { rewrite (AND_loop_fail do_check 0 pre post post' c c' r); try done.
      destruct pre; [done | simpl; lia]. }
    split; [by apply AND_check_at |].
    assert (Hwfc : wf c = true).
    { apply (wf_child res (pre ++ c :: post)); [by right |].
      apply elem_of_app; right; left. }
    exact (AND_describe_child c c' r Hwfc Hc Hr).
  - intros c0 c0' rest rest' -> Hrest Hc0.
    assert (Hloop := AND_loop_first do_check c0 c0' rest rest' Hrest Hc0).
    split; [exact Hloop |].
    rewrite do_check_AND, Hloop. reflexivity.
Qed.

Lemma AND_check_spec_witness :
  do_check (AND None [kconfig_check "CONFIG_GCC_PLUGINS" (Some "y") (Some "y");
                      kconfig_check "CONFIG_CC_IS_GCC" (Some "y") None])
  = Ok (AND (Some ("FAIL: CONFIG_CC_IS_GCC not " +:+ dq +:+ "y" +:+ dq))
            [kconfig_check "CONFIG_GCC_PLUGINS" (Some "y") (Some "y");
             KconfigCheck (OptCheck_check
               (mkOptCheck "CONFIG_CC_IS_GCC" (Some "y") "kspp" "self_protection"
                           None None))]).
Proof.
  pose (plugins := kconfig_check "CONFIG_GCC_PLUGINS" (Some "y") (Some "y")).
  pose (gcc := mkOptCheck "CONFIG_CC_IS_GCC" (Some "y") "kspp" "self_protection"
                          None None).
  destruct (AND_check_spec None [plugins; KconfigCheck gcc] eq_refl) as [Hfail _].
  assert (Hpost : Forall2 (λ x x', do_check x = Ok x' ∧ passed x') [] [])
    by constructor.
  destruct (Hfail [plugins] [] [] (KconfigCheck gcc) (KconfigCheck (OptCheck_check gcc))
                  "FAIL: not found" eq_refl ltac:(discriminate)
                  Hpost eq_refl eq_refl eq_refl)
    as (out & _ & Hdo & Hnamed & _).
  destruct (Hnamed (or_intror eq_refl)) as (n & e & Hn & He & ->).
  injection Hn as <-. injection He as <-. exact Hdo.
Defined.

(** C3 as stated fails on the code. In [AND(A, AND(B, C))] with [C] not
    found the inner [AND], a child that is not the first, fails with the
    synthesized outcome [FAIL: CONFIG_C not "y"]: the outer [AND] then has
    no outcome, the run ends on the assertion. And in
    [AND(A, VersionCheck((5, 5)))] with an older kernel the outcome of the
    version check is taken over as it is: nothing is synthesized and no
    name is given, a version check has none. *)
Lemma AND_check_counterexample :
  let a := kconfig_check "CONFIG_A" (Some "y") (Some "y") in
  let inner := AND None [kconfig_check "CONFIG_B" (Some "y") (Some "y");
                         kconfig_check "CONFIG_C" (Some "y") None] in
  let v := version_check (5, 5) [4; 19] in
  wf (AND None [a; inner]) = true ∧
  (∃ inner', do_check inner = Ok inner' ∧
             result_of inner' = Some ("FAIL: CONFIG_C not " +:+ dq +:+ "y" +:+ dq) ∧
             failed inner') ∧
  do_check (AND None [a; inner]) =
    Raise (AssertionError ("unexpected FAIL description " +:+ dq +:+
                           "FAIL: CONFIG_C not " +:+ dq +:+ "y" +:+ dq +:+ dq)) ∧
  (∃ v', do_check (AND None [a; v]) = Ok (AND (Some "FAIL: version < 5.5") [a; v'])) ∧
  name_of v = Raise AttributeError.
Proof.
  repeat split.
  - eexists. split; [reflexivity |]. split; [reflexivity |].
    eexists. split; reflexivity.
  - eexists. reflexivity.
Qed.

(** ** Evaluation is total on the nesting of the rule catalog *)

Lemma simple_pass_is_pass (r : string) : simple_pass r → is_pass r = true.
Proof. by intros [-> | [-> | ->]]. Qed.

Lemma simple_fail_is_pass (r : string) : simple_fail r → is_pass r = false.
Proof.
  intros [-> | [-> | H]]; [done | done |].
  by apply Strings.startswith_elim in H as [t ->].
Qed.

Lemma OptCheck_outcome_form (e s : option string) :
  simple_pass (OptCheck_outcome e s) ∨ simple_fail (OptCheck_outcome e s).
Proof.
  unfold OptCheck_outcome, simple_pass, simple_fail.
  destruct e as [e|], s as [s|]; repeat case_bool_decide; auto 6.
Qed.

Lemma forallb_elem {A : Type} (g : A → bool) (l : list A) (x : A) :
  forallb g l = true → x ∈ l → g x = true.
Proof.
  intros Hall Hx. rewrite forallb_forall in Hall.
  by apply Hall, list_elem_of_In.
Qed.

(** Either no child passes, or there is a first child that does. *)
Lemma first_pass (f : check → Res check) (opts : list check) :
  Forall (λ x, ∃ x' r, f x = Ok x' ∧ result_of x' = Some r) opts →
  (∃ opts', Forall2 (λ x x', f x = Ok x' ∧ failed x') opts opts') ∨
  (∃ pre pre' post c c' r,
     opts = pre ++ c :: post ∧
     Forall2 (λ x x', f x = Ok x' ∧ failed x') pre pre' ∧
     f c = Ok c' ∧ result_of c' = Some r ∧ is_pass r = true).
Proof.
  induction 1 as [|x l (x' & r & Hx & Hr) _ IH]; [left; by exists [] |].
  destruct (is_pass r) eqn:Hp.
  { right. exists [], [], l, x, x', r. repeat split; done || constructor. }
  destruct IH as [(l' & Hl) | (pre & pre' & post & c & c' & rc & -> & Hpre & Hc)].
  - left. exists (x' :: l'). constructor; [| done]. split; [done |]. by exists r.
  - right. exists (x :: pre), (x' :: pre'), post, c, c', rc.
    split; [done |]. split; [| done].
    constructor; [| done]. split; [done |]. by exists r.
Qed.

(** Either every child passes, or there is a last child that does not. *)
Lemma last_fail (f : check → Res check) (opts : list check) :
  Forall (λ x, ∃ x' r, f x = Ok x' ∧ result_of x' = Some r) opts →
  (∃ opts', Forall2 (λ x x', f x = Ok x' ∧ passed x') opts opts') ∨
  (∃ pre post post' c c' r,
     opts = pre ++ c :: post ∧
     Forall2 (λ x x', f x = Ok x' ∧ passed x') post post' ∧
     f c = Ok c' ∧ result_of c' = Some r ∧ is_pass r = false).
Proof.
  induction 1 as [|x l (x' & r & Hx & Hr) _ IH]; [left; by exists [] |].
  destruct IH as [(l' & Hl) | (pre & post & post' & c & c' & rc & -> & Hpost & Hc)].
  - destruct (is_pass r) eqn:Hp.
    + left. exists (x' :: l'). constructor; [| done]. split; [done |]. by exists r.
    + right. by exists [], l, l', x, x', r.
  - right. by exists (x :: pre), post, post', c, c', rc.
Qed.

(** A passing outcome of a child that is not an [OR] is one that
    [OR.check] knows. *)
Lemma OR_describe_ok (c c' : check) (r : string) :
  wf c = true → do_check c = Ok c' → result_of c' = Some r →
  outcome_ok c r → is_OR c = false → is_pass r = true →
  ∃ r' : string, OR_describe c' r = Ok r' ∧ is_pass r' = true.
Proof.
  intros Hwf Hc Hr Hout Hnot Hp.
  destruct (OR_describe_child c c' r Hwf Hc Hr) as (H1 & H2 & H3 & H4 & _).
  assert (Hknown : simple_pass r ∨ startswith r "OK: version" = true).
  { destruct c; cbn in Hout; try done.
    - destruct Hout as [? | Hf]; [by left |].
      apply simple_fail_is_pass in Hf. congruence.
    - destruct Hout as [? | Hf]; [by left |].
      apply simple_fail_is_pass in Hf. congruence.
    - destruct Hout as [? | Hf]; [by right |].
      apply Strings.startswith_elim in Hf as [t ->]. done.
    - destruct Hout as [? | Hf]; [by left | congruence]. }
  destruct Hknown as [[Hr1 | [Hr2 | Hr3]] | Hv].
  - destruct (H1 Hr1) as (n & e & _ & _ & ->). by eexists.
  - destruct (H2 Hr2) as (n & _ & ->). by eexists.
  - destruct (H3 Hr3) as (n & _ & ->). by eexists.
  - rewrite (H4 Hv). by eexists.
Qed.

(** A failing outcome of a child that is not an [AND] is one that
    [AND.check] knows. *)
Lemma AND_describe_ok (c c' : check) (r : string) :
  wf c = true → do_check c = Ok c' → result_of c' = Some r →
  outcome_ok c r → is_AND c = false → is_pass r = false →
  ∃ r' : string, AND_describe c' r = Ok r' ∧ is_pass r' = false.
Proof.
  intros Hwf Hc Hr Hout Hnot Hp.
  destruct (AND_describe_child c c' r Hwf Hc Hr) as (H1 & H2 & H3 & _).
  assert (Hknown : simple_fail r ∨ startswith r "FAIL: version" = true).
  { destruct c; cbn in Hout; try done.
    - destruct Hout as [Hs | ?]; [| by left].
      apply simple_pass_is_pass in Hs. congruence.
    - destruct Hout as [Hs | ?]; [| by left].
      apply simple_pass_is_pass in Hs. congruence.
    - destruct Hout as [Hs | ?]; [| by right].
      apply Strings.startswith_elim in Hs as [t ->]. done.
    - destruct Hout as [? | ?]; [congruence | by left]. }
  destruct Hknown as [[Hr1 | [Hr2 | Hr3]] | Hv].
  - destruct (H1 (or_intror Hr1)) as (n & e & _ & _ & ->). by eexists.
  - destruct (H2 Hr2) as (n & _ & ->). by eexists.
  - destruct (H1 (or_introl Hr3)) as (n & e & _ & _ & ->). by eexists.
  - rewrite (H3 Hv). exists r. split; [done |].
    by apply Strings.startswith_elim in Hv as [t ->].
Qed.

(** Evaluation never raises on a checklist entry that the constructors can
    build, whose version checks are populated and whose nesting is that of
    the rule catalog; the outcome it leaves has the form of its class. *)
Theorem do_check_total (c : check) :
  wf c = true → populated c = true → nesting_ok c = true →
  ∃ (c' : check) (r : string),
    do_check c = Ok c' ∧ result_of c' = Some r ∧ outcome_ok c r.
Proof.
  induction c as [o|o|v|res opts IH|res opts IH] using check_induction;
    intros Hwf Hpop Hnest.
  - exists (KconfigCheck (OptCheck_check o)), (OptCheck_outcome (expected o) (state o)).
    split; [done |]. split; [done |]. apply OptCheck_outcome_form.
  - exists (CmdlineCheck (OptCheck_check o)), (OptCheck_outcome (expected o) (state o)).
    split; [done |]. split; [done |]. apply OptCheck_outcome_form.
  - destruct v as [[M m] d rs]. cbn in Hpop.
    destruct d as [|[|a [|b t]]]; try done.
    cbn. unfold VersionCheck_check. cbn.
    destruct (M <? a);
      [eexists _, _; split; [reflexivity | split; [reflexivity | by left]] |].
    destruct (a <? M);
      [eexists _, _; split; [reflexivity | split; [reflexivity | by right]] |].
    cbn. destruct (m <=? b);
      (eexists _, _; split; [reflexivity | split; [reflexivity |]]);
      [by left | by right].
  - cbn in Hwf, Hpop, Hnest.
    apply andb_prop in Hwf as [Hshape Hwfs]. apply andb_prop in Hnest as [Hnot Hnests].
    assert (Hkids : ∀ x, x ∈ opts →
              ∃ x' r, do_check x = Ok x' ∧ result_of x' = Some r ∧ outcome_ok x r).
    { intros x Hx. rewrite Forall_forall in IH.
      apply IH; [done | by eapply forallb_elem ..]. }
    assert (Hall : Forall (λ x, ∃ x' r, do_check x = Ok x' ∧ result_of x' = Some r) opts).
    { apply Forall_forall. intros x Hx.
      destruct (Hkids x Hx) as (x' & r & ? & ? & _). eauto. }
    destruct (first_pass do_check opts Hall)
      as [(opts' & Hnone) | (pre & pre' & post & c & c' & r & -> & Hpre & Hc & Hr & Hp)].
    + destruct opts as [|c0 rest]; [done |].
      inversion Hnone as [|? c0' ? rest' [H0 (r0 & Hr0 & Hf0)] Hrest]; subst.
      exists (OR (Some r0) (c0' :: rest')), r0.
      rewrite do_check_OR, (OR_loop_none do_check 0 (c0 :: rest) (c0' :: rest') Hnone).
      cbn. rewrite Hr0. split; [done |]. split; [done |]. right.
      destruct (Hkids c0 ltac:(left)) as (c0'' & r0' & H0' & Hr0' & Hout).
      rewrite H0 in H0'. injection H0' as <-. rewrite Hr0 in Hr0'. injection Hr0' as <-.
      destruct c0 as [o|o| | |]; try (by destruct rest); cbn in Hout;
        (destruct Hout as [Hs | ?]; [| done]);
        apply simple_pass_is_pass in Hs; congruence.
    + rewrite (OR_check_at res pre pre' post c c' r Hpre Hc Hr Hp).
      destruct pre as [|p0 pre1].
      * cbn. exists (OR (Some r) (pre' ++ c' :: post)), r.
        split; [done |]. split; [done |]. by left.
      * destruct (Hkids c ltac:(apply elem_of_app; right; left))
          as (c'' & r'' & Hc'' & Hr'' & Hout).
        rewrite Hc in Hc''. injection Hc'' as <-. rewrite Hr in Hr''. injection Hr'' as <-.
        assert (Hwfc : wf c = true)
          by (eapply forallb_elem; [exact Hwfs | apply elem_of_app; right; left]).
        assert (Hnc : is_OR c = false).
        { apply negb_true_iff.
          apply (forallb_elem _ _ c Hnot). cbn. apply elem_of_app; right; left. }
        destruct (OR_describe_ok c c' r Hwfc Hc Hr Hout Hnc Hp) as (r' & -> & Hp').
        cbn. exists (OR (Some r') (pre' ++ c' :: post)), r'.
        split; [done |]. split; [done |]. by left.
  - cbn in Hwf, Hpop, Hnest.
    apply andb_prop in Hwf as [Hshape Hwfs]. apply andb_prop in Hnest as [Hnot Hnests].
    assert (Hkids : ∀ x, x ∈ opts →
              ∃ x' r, do_check x = Ok x' ∧ result_of x' = Some r ∧ outcome_ok x r).
    { intros x Hx. rewrite Forall_forall in IH.
      apply IH; [done | by eapply forallb_elem ..]. }
    destruct opts as [|c0 rest]; [done |].
    assert (Hall : Forall (λ x, ∃ x' r, do_check x = Ok x' ∧ result_of x' = Some r) rest).
    { apply Forall_forall. intros x Hx.
      destruct (Hkids x ltac:(by right)) as (x' & r & ? & ? & _). eauto. }
    destruct (last_fail do_check rest Hall)
      as [(rest' & Hpass) | (pre & post & post' & c & c' & r & -> & Hpost & Hc & Hr & Hp)].
    + destruct (Hkids c0 ltac:(left)) as (c0' & r0 & H0 & Hr0 & Hout).
      exists (AND (Some r0) (c0' :: rest')), r0.
      rewrite do_check_AND, (AND_loop_first do_check c0 c0' rest rest' Hpass H0).
      cbn. rewrite Hr0. split; [done |]. split; [done |].
      destruct c0 as [o|o| | |]; try (by destruct rest); cbn in Hout;
        (destruct Hout as [? | Hf]; [by left |]);
        right; by apply simple_fail_is_pass.
    + change (c0 :: pre ++ c :: post) with ((c0 :: pre) ++ c :: post).
      rewrite (AND_check_at res (c0 :: pre) post post' c c' r
                 ltac:(discriminate) Hpost Hc Hr Hp).
      destruct (Hkids c ltac:(right; apply elem_of_app; right; left))
        as (c'' & r'' & Hc'' & Hr'' & Hout).
      rewrite Hc in Hc''. injection Hc'' as <-. rewrite Hr in Hr''. injection Hr'' as <-.
      assert (Hwfc : wf c = true)
        by (eapply forallb_elem; [exact Hwfs | right; apply elem_of_app; right; left]).
      assert (Hnc : is_AND c = false).
      { apply negb_true_iff.
        apply (forallb_elem _ _ c Hnot). cbn. apply elem_of_app; right; left. }
      destruct (AND_describe_ok c c' r Hwfc Hc Hr Hout Hnc Hp) as (r' & -> & Hp').
      cbn. exists (AND (Some r') ((c0 :: pre) ++ c' :: post')), r'.
      split; [done |]. split; [done |]. by right.
Qed.

(** The rule of the boot parameter [rodata] of the catalog, on a kernel
    without the parameter and with the build option set. *)
Example do_check_total_rodata :
  ∃ c' : check,
    do_check (OR None [cmdline_check "rodata" (Some "1") None;
                       AND None [kconfig_check "CONFIG_RODATA_DEFAULT" (Some "y") (Some "y");
                                 cmdline_check "rodata" (Some "is not set") None]])
      = Ok c' ∧
    result_of c' = Some ("OK: CONFIG_RODATA_DEFAULT " +:+ dq +:+ "y" +:+ dq).
Proof. eexists. split; reflexivity. Qed.

End CompoundChecks.

Module Detection.
Import Parsers Spec Strings.

Lemma supported_archs_ok : arch_names_ok supported_archs.
Proof.
  intros a Ha. unfold supported_archs in Ha.
  repeat (apply elem_of_cons in Ha as [-> | Ha]; [by split |]).
  by apply elem_of_nil in Ha.
Qed.

(** A line that enables [CONFIG_a], for a name [a] of word characters, is
    matched by the pattern, and the program reads [a] off it. *)
Lemma enables_matched (a line : string) :
  string_forall is_word a = true → enables a line = true →
  re_match arch_pattern line = true ∧
  ∃ rest : string, split1 "=" (drop 7 line) = [a; rest].
Proof.
  intros Ha Hen. apply startswith_elim in Hen as [t ->].
  rewrite !append_assoc. split.
  - unfold arch_pattern. cbn [re_match].
    rewrite strip_prefix_app.
    apply re_star_intro; [done |].
    change ("=y" +:+ t) with ("=y" +:+ t). by rewrite strip_prefix_app.
  - exists ("y" +:+ t).
    change (drop 7 ("CONFIG_" +:+ a +:+ "=y" +:+ t)) with (a +:+ String "=" ("y" +:+ t)).
    apply split1_app. by apply word_contains.
Qed.

(** A line matched by the pattern enables the option whose name the program
    reads off it. *)
Lemma matched_enables (line : string) :
  re_match arch_pattern line = true →
  ∃ w rest : string,
    split1 "=" (drop 7 line) = [w; rest] ∧ enables w line = true.
Proof.
  unfold arch_pattern. cbn [re_match].
  destruct (strip_prefix "CONFIG_" line) as [s|] eqn:Hs; [| done].
  apply strip_prefix_elim in Hs as ->.
  intros (w & t & -> & Hw & Hk)%re_star_elim.
  destruct (strip_prefix "=y" t) as [t'|] eqn:Ht; [| done].
  apply strip_prefix_elim in Ht as ->.
  exists w, ("y" +:+ t'). split.
  - change (drop 7 ("CONFIG_" +:+ w +:+ "=y" +:+ t')) with (w +:+ String "=" ("y" +:+ t')).
    apply split1_app. by apply word_contains.
  - unfold enables.
    replace ("CONFIG_" +:+ w +:+ "=y" +:+ t') with (("CONFIG_" +:+ w +:+ "=y") +:+ t')
      by (by rewrite !append_assoc).
    apply startswith_app.
Qed.

Lemma arch_marker_Some (archs : list string) (line a : string) :
  arch_names_ok archs → arch_marker archs line = Some a →
  a ∈ archs ∧ a ≠ EmptyString ∧
  re_match arch_pattern line = true ∧
  ∃ rest : string, split1 "=" (drop 7 line) = [a; rest].
Proof.
  intros Hok Hm. apply find_some in Hm as [Hin Hen].
  apply list_elem_of_In in Hin. destruct (Hok a Hin) as [Hw Hne].
  destruct (enables_matched a line Hw Hen) as [Hre Hsp]. done.
Qed.

Lemma arch_marker_None (archs : list string) (line w rest : string) :
  arch_marker archs line = None →
  re_match arch_pattern line = true → split1 "=" (drop 7 line) = [w; rest] →
  w ∉ archs.
Proof.
  intros Hm Hre Hsp Hin.
  destruct (matched_enables line Hre) as (w' & rest' & Hsp' & Hen).
  rewrite Hsp in Hsp'. injection Hsp' as <- <-.
  apply list_elem_of_In in Hin.
  pose proof (find_none _ _ Hm w Hin) as Hno. cbn in Hno. congruence.
Qed.

(** The loop of [detect_arch], with [arch] what it has found so far. *)
Lemma detect_arch_loop_spec (archs : list string) (arch : option string)
    (lines : list string) :
  arch_names_ok archs →
  (∀ a, arch = Some a → a ≠ EmptyString) →
  detect_arch_loop archs arch lines =
    Ok (arch_verdict (option_list arch ++ omap (arch_marker archs) lines)).
Proof.
  intros Hok. revert arch.
  induction lines as [|line rest IH]; intros arch Harch.
  - cbn. destruct arch as [[|c a]|]; cbn; try done. by destruct (Harch _ eq_refl).
  - cbn [detect_arch_loop omap list_omap].
    destruct (arch_marker archs line) as [m|] eqn:Hm.
    + destruct (arch_marker_Some archs line m Hok Hm) as (Hin & Hne & -> & r & ->).
      cbn. rewrite bool_decide_eq_true_2 by done.
      destruct arch as [a|]; cbn.
      * destruct a as [|c a]; [by destruct (Harch _ eq_refl) |]. cbn.
        by destruct (omap (arch_marker archs) rest).
      * rewrite IH; [done |]. by intros ? [= <-].
    + destruct (re_match arch_pattern line) eqn:Hre; [| by apply IH].
      destruct (matched_enables line Hre) as (w & r & Hsp & Hen).
      rewrite Hsp. cbn.
      rewrite bool_decide_eq_false_2
        by (by apply (arch_marker_None archs line w r)).
      by apply IH.
Qed.

(** C8. Architecture detection finds the lines of the file that enable the
    boolean option of a known architecture (the markers). It answers with an
    architecture iff exactly one line is a marker, and then with the
    architecture of that marker; with no marker, and with two or more, it
    answers with a detection error and no architecture. *)
Theorem detect_arch_spec (text : string) (archs : list string) :
  arch_names_ok archs →
  let markers := omap (arch_marker archs) (readlines text) in
  detect_arch text archs = Ok (arch_verdict markers) ∧
  ((∃ (a msg : string), detect_arch text archs = Ok (Some a, msg))
     ↔ length markers = 1%nat) ∧
  (∀ a : string, markers = [a] → detect_arch text archs = Ok (Some a, "OK")) ∧
  (markers = [] →
     detect_arch text archs = Ok (None, "failed to detect architecture")) ∧
  ((length markers ≥ 2)%nat →
     detect_arch text archs =
       Ok (None, "more than one supported architecture is detected")).
Proof.
  intros Hok markers.
  assert (Hrun : detect_arch text archs = Ok (arch_verdict markers)).
  { unfold detect_arch. by rewrite detect_arch_loop_spec. }
  rewrite Hrun. split; [done |]. split; [| split; [| split]].
  - destruct markers as [|a [|b l]]; cbn; split; try done.
    + by intros (a & msg & [=]).
    + intros _. by exists a, "OK".
    + by intros (a' & msg & [=]).
  - by intros a ->.
  - by intros ->.
  - destruct markers as [|a [|b l]]; cbn; try lia. done.
Qed.

Lemma detect_arch_spec_witness :
  detect_arch ("CONFIG_64BIT=y" +:+ String "010" ("CONFIG_X86_64=y" +:+ String "010"
               ("# CONFIG_ARM is not set" +:+ String "010" EmptyString)))
              supported_archs
  = Ok (Some "X86_64", "OK").
Proof.
  destruct (detect_arch_spec
              ("CONFIG_64BIT=y" +:+ String "010" ("CONFIG_X86_64=y" +:+ String "010"
               ("# CONFIG_ARM is not set" +:+ String "010" EmptyString)))
              supported_archs supported_archs_ok) as (_ & _ & Hone & _).
  exact (Hone "X86_64" eq_refl).
Defined.

End Detection.

Module KconfigParser.
Import Checks Parsers Spec Strings.

Lemma re_star_now (k : string → bool) (cls : ascii → bool) (s : string) :
  k s = true → re_star k cls s = true.
Proof. intros Hk. destruct s; cbn; by rewrite Hk. Qed.

Lemma config_name_contains (id : string) :
  string_forall is_word id = true →
  contains "=" ("CONFIG_" +:+ id) = false ∧ contains " " ("CONFIG_" +:+ id) = false.
Proof.
  intros Hid. destruct (word_contains id Hid) as [H1 H2].
  rewrite !contains_app, H1, H2. done.
Qed.

(** An enabled line [CONFIG_id=value]. *)
Lemma kconfig_line_on (id value : string) :
  string_forall is_word id = true →
  kconfig_line ("CONFIG_" +:+ id +:+ "=" +:+ value) =
    if bool_decide (value = "is not set")
    then Raise (SystemExit ("[!] ERROR: bad enabled kconfig option " +:+ dq +:+
                            ("CONFIG_" +:+ id +:+ "=" +:+ value) +:+ dq))
    else Ok (Some ("CONFIG_" +:+ id, value)).
Proof.
  intros Hid. unfold kconfig_line.
  assert (Hre : re_match opt_is_on ("CONFIG_" +:+ id +:+ "=" +:+ value) = true).
  { unfold opt_is_on. cbn [re_match]. rewrite strip_prefix_app.
    apply re_star_intro; [done |]. rewrite strip_prefix_app.
    by apply re_star_now. }
  rewrite Hre.
  replace ("CONFIG_" +:+ id +:+ "=" +:+ value)
    with (("CONFIG_" +:+ id) +:+ String "=" value) at 1
    by (by rewrite append_assoc).
  rewrite split1_app by (by apply config_name_contains). cbn.
  by destruct (bool_decide (value = "is not set")).
Qed.

(** A disabled line [# CONFIG_id is not set]. *)
Lemma kconfig_line_off (id : string) :
  string_forall is_word id = true →
  kconfig_line ("# CONFIG_" +:+ id +:+ " is not set") =
    Ok (Some ("CONFIG_" +:+ id, "is not set")).
Proof.
  intros Hid. unfold kconfig_line.
  assert (Hon : re_match opt_is_on ("# CONFIG_" +:+ id +:+ " is not set") = false)
    by reflexivity.
  assert (Hoff : re_match opt_is_off ("# CONFIG_" +:+ id +:+ " is not set") = true).
  { unfold opt_is_off. cbn [re_match]. rewrite strip_prefix_app.
    apply re_star_intro; [done | reflexivity]. }
  rewrite Hon, Hoff.
  change (drop 2 ("# CONFIG_" +:+ id +:+ " is not set"))
    with ("CONFIG_" +:+ id +:+ " is not set").
  replace ("CONFIG_" +:+ id +:+ " is not set")
    with (("CONFIG_" +:+ id) +:+ String " " "is not set") at 1
    by (by rewrite append_assoc).
  rewrite split1_app by (by apply config_name_contains). cbn.
  by rewrite bool_decide_eq_false_2 by (by intros H; apply H).
Qed.

Lemma opt_is_on_elim (line : string) :
  re_match opt_is_on line = true →
  ∃ id value : string,
    string_forall is_word id = true ∧ line = "CONFIG_" +:+ id +:+ "=" +:+ value.
Proof.
  unfold opt_is_on. cbn [re_match].
  destruct (strip_prefix "CONFIG_" line) as [s|] eqn:Hs; [| done].
  apply strip_prefix_elim in Hs as ->.
  intros (w & t & -> & Hw & Hk)%re_star_elim.
  destruct (strip_prefix "=" t) as [t'|] eqn:Ht; [| done].
  apply strip_prefix_elim in Ht as ->. by exists w, t'.
Qed.

Lemma opt_is_off_elim (line : string) :
  re_match opt_is_off line = true →
  ∃ id rest : string,
    string_forall is_word id = true ∧
    line = "# CONFIG_" +:+ id +:+ " is not set" +:+ rest.
Proof.
  unfold opt_is_off. cbn [re_match].
  destruct (strip_prefix "# CONFIG_" line) as [s|] eqn:Hs; [| done].
  apply strip_prefix_elim in Hs as ->.
  intros (w & t & -> & Hw & Hk)%re_star_elim.
  destruct (strip_prefix " is not set" t) as [t'|] eqn:Ht; [| done].
  apply strip_prefix_elim in Ht as ->. by exists w, t'.
Qed.

(** What the first half of the loop body can yield: nothing, an option with
    a name that is not empty, or the end of the run. *)
Lemma kconfig_line_cases (line : string) :
  kconfig_line line = Ok None ∨
  (∃ o v : string, kconfig_line line = Ok (Some (o, v)) ∧ o ≠ EmptyString) ∨
  (∃ msg : string, kconfig_line line = Raise (SystemExit msg)).
Proof.
  destruct (re_match opt_is_on line) eqn:Hon.
  { destruct (opt_is_on_elim line Hon) as (id & value & Hid & ->).
    rewrite (kconfig_line_on id value Hid).
    destruct (bool_decide (value = "is not set")); [right; right; eauto |].
    right; left. by exists ("CONFIG_" +:+ id), value. }
  destruct (re_match opt_is_off line) eqn:Hoff.
  { destruct (opt_is_off_elim line Hoff) as (id & rest & Hid & ->).
    unfold kconfig_line. rewrite Hon, Hoff.
    change (drop 2 ("# CONFIG_" +:+ id +:+ " is not set" +:+ rest))
      with ("CONFIG_" +:+ id +:+ " is not set" +:+ rest).
    replace ("CONFIG_" +:+ id +:+ " is not set" +:+ rest)
      with (("CONFIG_" +:+ id) +:+ String " " ("is not set" +:+ rest))
      by (by rewrite append_assoc).
    rewrite split1_app by (by apply config_name_contains). cbn.
    destruct (bool_decide (_ ≠ "is not set")); [right; right; eauto |].
    right; left. by exists ("CONFIG_" +:+ id), ("is not set" +:+ rest). }
  left. unfold kconfig_line. by rewrite Hon, Hoff.
Qed.

(** One turn of the loop keeps what is in the map and, for a matched line,
    leaves its option in the map. *)
Lemma parse_kconfig_line_grows (d d' : gmap string string) (raw : string) :
  parse_kconfig_line d raw = Ok d' →
  (∀ k, is_Some (d !! k) → is_Some (d' !! k)) ∧
  (∀ o v, kconfig_line (strip raw) = Ok (Some (o, v)) → is_Some (d' !! o)).
Proof.
  unfold parse_kconfig_line.
  destruct (kconfig_line_cases (strip raw))
    as [-> | [(o & v & -> & Hne) | (msg & ->)]]; cbn; [| | done].
  - intros [= <-]. split; [done |]. by intros o v [=].
  - case_bool_decide; [done |].
    destruct o as [|c o]; [done |]. cbn. intros [= <-]. split.
    + intros k Hk. destruct (decide (String c o = k)) as [<- | Hk'].
      * rewrite lookup_insert_eq. eauto.
      * by rewrite lookup_insert_ne.
    + intros o' v' [= <- <-]. rewrite lookup_insert_eq. eauto.
Qed.

Lemma parse_kconfig_lines_grows (d d' : gmap string string) (lines : list string) :
  parse_kconfig_lines d lines = Ok d' →
  ∀ k, is_Some (d !! k) → is_Some (d' !! k).
Proof.
  revert d. induction lines as [|raw rest IH]; intros d; cbn.
  - by intros [= <-].
  - destruct (parse_kconfig_line d raw) as [d1|] eqn:H1; cbn; [| done].
    intros H k Hk. apply (IH d1 H).
    by apply (proj1 (parse_kconfig_line_grows d d1 raw H1)).
Qed.

(** The parser ends the run with [sys.exit] or returns a map: it raises
    nothing else. *)
Lemma parse_kconfig_lines_exit (d : gmap string string) (lines : list string) :
  (∃ d', parse_kconfig_lines d lines = Ok d') ∨
  (∃ msg, parse_kconfig_lines d lines = Raise (SystemExit msg)).
Proof.
  revert d. induction lines as [|raw rest IH]; intros d; cbn; [eauto |].
  unfold parse_kconfig_line.
  destruct (kconfig_line_cases (strip raw))
    as [-> | [(o & v & -> & Hne) | (msg & ->)]]; cbn; [apply IH | | eauto].
  case_bool_decide; cbn; [eauto |].
  destruct o; [done |]. cbn. apply IH.
Qed.

(** An option that is in the map already ends the run at its next line. *)
Lemma parse_kconfig_line_dup (d : gmap string string) (raw o v : string) :
  kconfig_line (strip raw) = Ok (Some (o, v)) → is_Some (d !! o) →
  parse_kconfig_line d raw =
    Raise (SystemExit ("[!] ERROR: kconfig option " +:+ dq +:+ strip raw +:+ dq
                       +:+ " exists multiple times")).
Proof.
  intros Hl Hd. unfold parse_kconfig_line. rewrite Hl. cbn.
  by rewrite bool_decide_eq_true_2.
Qed.

Lemma parse_kconfig_lines_dup (d : gmap string string)
    (l1 l2 l3 : list string) (a b o va vb : string) :
  kconfig_line (strip a) = Ok (Some (o, va)) →
  kconfig_line (strip b) = Ok (Some (o, vb)) →
  ∃ msg, parse_kconfig_lines d (l1 ++ a :: l2 ++ b :: l3) = Raise (SystemExit msg).
Proof.
  intros Ha Hb.
  assert (Htail : ∀ d0 l, is_Some (d0 !! o) →
            ∃ msg, parse_kconfig_lines d0 (l ++ b :: l3) = Raise (SystemExit msg)).
  { intros d0 l. revert d0. induction l as [|x l IH]; intros d0 Hd0; cbn.
    - rewrite (parse_kconfig_line_dup d0 b o vb Hb Hd0). cbn. eauto.
    - destruct (parse_kconfig_line d0 x) as [d1|e] eqn:H1; cbn.
      + apply IH. by apply (proj1 (parse_kconfig_line_grows d0 d1 x H1)).
      + destruct (parse_kconfig_lines_exit d0 [x]) as [(d' & H) | (msg & H)];
          cbn in H; rewrite H1 in H; cbn in H; [done |].
        injection H as ->. eauto. }
  revert d. induction l1 as [|x l1 IH]; intros d; cbn.
  - destruct (parse_kconfig_line d a) as [d1|e] eqn:H1; cbn.
    + apply Htail. by apply (proj2 (parse_kconfig_line_grows d d1 a H1) o va).
    + destruct (parse_kconfig_lines_exit d [a]) as [(d' & H) | (msg & H)];
        cbn in H; rewrite H1 in H; cbn in H; [done |].
      injection H as ->. eauto.
  - destruct (parse_kconfig_line d x) as [d1|e] eqn:H1; cbn; [apply IH |].
    destruct (parse_kconfig_lines_exit d [x]) as [(d' & H) | (msg & H)];
      cbn in H; rewrite H1 in H; cbn in H; [done |].
    injection H as ->. eauto.
Qed.

(** One turn of the loop changes no entry; what it adds is the option of
    its line. *)
Lemma parse_kconfig_line_entries (d d' : gmap string string) (raw : string) :
  parse_kconfig_line d raw = Ok d' →
  (∀ k x, d !! k = Some x → d' !! k = Some x) ∧
  (∀ o v, kconfig_line (strip raw) = Ok (Some (o, v)) → d' !! o = Some v) ∧
  (∀ k x, d' !! k = Some x →
     d !! k = Some x ∨ kconfig_line (strip raw) = Ok (Some (k, x))).
Proof.
  unfold parse_kconfig_line.
  destruct (kconfig_line_cases (strip raw))
    as [-> | [(o & v & -> & Hne) | (msg & ->)]]; cbn; [| | done].
  - intros [= <-]. repeat split; auto. by intros o v [=].
  - case_bool_decide as Hin; [done |].
    destruct o as [|c o]; [done |]. cbn. intros [= <-]. repeat split.
    + intros k x Hk. destruct (decide (String c o = k)) as [<- | Hk'].
      * exfalso. apply Hin. eauto.
      * by rewrite lookup_insert_ne.
    + intros o' v' [= <- <-]. by rewrite lookup_insert_eq.
    + intros k x. destruct (decide (String c o = k)) as [<- | Hk'].
      * rewrite lookup_insert_eq. intros [= <-]. by right.
      * rewrite lookup_insert_ne by done. by left.
Qed.

(** The map that the parser returns holds the entries it was given and one
    entry for each matched line, and nothing else. *)
Lemma parse_kconfig_lines_entries (d m : gmap string string) (lines : list string) :
  parse_kconfig_lines d lines = Ok m →
  (∀ k x, d !! k = Some x → m !! k = Some x) ∧
  (∀ raw o v, raw ∈ lines → kconfig_line (strip raw) = Ok (Some (o, v)) →
     m !! o = Some v) ∧
  (∀ k x, m !! k = Some x →
     d !! k = Some x ∨
     ∃ raw, raw ∈ lines ∧ kconfig_line (strip raw) = Ok (Some (k, x))).
Proof.
  revert d. induction lines as [|raw rest IH]; intros d; cbn.
  - intros [= <-]. repeat split; auto. intros raw o v Hin. by apply elem_of_nil in Hin.
  - destruct (parse_kconfig_line d raw) as [d1|] eqn:H1; cbn; [| done].
    intros Hrest.
    destruct (parse_kconfig_line_entries d d1 raw H1) as (Hk1 & Ha1 & Ho1).
    destruct (IH d1 Hrest) as (Hk & Ha & Ho).
    repeat split.
    + intros k x Hd. by apply Hk, Hk1.
    + intros raw' o v [-> | Hin]%elem_of_cons Hl.
      * by apply Hk, Ha1.
      * by apply (Ha raw').
    + intros k x Hm. destruct (Ho k x Hm) as [Hd1 | (raw' & Hin & Hl)].
      * destruct (Ho1 k x Hd1) as [Hd | Hl]; [by left |].
        right. exists raw. split; [left | done].
      * right. exists raw'. split; [by right | done].
Qed.

Lemma lstrip_length (s : string) :
  (String.length (lstrip s) ≤ String.length s)%nat.
Proof.
  induction s as [|c s IH]; cbn; [done |].
  destruct (isspace c); cbn; lia.
Qed.

Lemma rstrip_space (s : string) (c : ascii) :
  isspace c = true → rstrip (s +:+ String c EmptyString) = rstrip s.
Proof.
  intros Hc. induction s as [|x s IH].
  - rewrite append_nil_l. cbn. by rewrite Hc.
  - rewrite append_cons. cbn [rstrip]. by rewrite IH.
Qed.

(** A line without white space at its ends is what [strip()] makes of it
    and its line end. *)
Lemma strip_newline (line : string) :
  lstrip line = line → rstrip line = line →
  strip (line +:+ String "010" EmptyString) = line.
Proof.
  intros Hl Hr. unfold strip. destruct line as [|c l]; [done |].
  rewrite append_cons. cbn [lstrip] in Hl |- *.
  destruct (isspace c) eqn:Hc.
  - pose proof (lstrip_length l) as Hlen. rewrite Hl in Hlen. cbn in Hlen. lia.
  - rewrite <- append_cons. by rewrite rstrip_space.
Qed.

(** C5 (amended). The build configuration parser, line by line, with the
    line stripped of the white space at its ends:
    - a line [CONFIG_id=value], [value] not being [is not set], whose option
      is not in the map yet, adds the entry ([CONFIG_id], [value]);
    - a line [# CONFIG_id is not set] whose option is not in the map yet adds
      the entry ([CONFIG_id], [is not set]): the value is that text, the
      option is not left absent;
    - a line that matches neither pattern leaves the map as it is;
    - a line [CONFIG_id=is not set] ends the run;
    - two matched lines with the same option name end the run: no map is
      returned;
    - a map that is returned holds one entry for each matched line of the
      file, with the option and the value of that line, and besides those
      only the entries that it was given. *)
Theorem parse_kconfig_spec (parsed_options : gmap string string) :
  (∀ raw id value : string,
     string_forall is_word id = true →
     strip raw = "CONFIG_" +:+ id +:+ "=" +:+ value →
     value ≠ "is not set" →
     parsed_options !! ("CONFIG_" +:+ id) = None →
     parse_kconfig_line parsed_options raw =
       Ok (<["CONFIG_" +:+ id := value]> parsed_options)) ∧
  (∀ raw id : string,
     string_forall is_word id = true →
     strip raw = "# CONFIG_" +:+ id +:+ " is not set" →
     parsed_options !! ("CONFIG_" +:+ id) = None →
     parse_kconfig_line parsed_options raw =
       Ok (<["CONFIG_" +:+ id := "is not set"]> parsed_options)) ∧
  (∀ raw : string,
     re_match opt_is_on (strip raw) = false →
     re_match opt_is_off (strip raw) = false →
     parse_kconfig_line parsed_options raw = Ok parsed_options) ∧
  (∀ raw id : string,
     string_forall is_word id = true →
     strip raw = "CONFIG_" +:+ id +:+ "=is not set" →
     parse_kconfig_line parsed_options raw =
       Raise (SystemExit ("[!] ERROR: bad enabled kconfig option " +:+ dq +:+
                          strip raw +:+ dq))) ∧
  (∀ (l1 l2 l3 : list string) (a b o va vb : string),
     kconfig_line (strip a) = Ok (Some (o, va)) →
     kconfig_line (strip b) = Ok (Some (o, vb)) →
     ∃ msg : string,
       parse_kconfig_lines parsed_options (l1 ++ a :: l2 ++ b :: l3) =
         Raise (SystemExit msg)) ∧
  (∀ (text : string) (m : gmap string string),
     parse_kconfig_file parsed_options text = Ok m →
     (∀ raw o v : string,
        raw ∈ readlines text → kconfig_line (strip raw) = Ok (Some (o, v)) →
        m !! o = Some v) ∧
     (∀ k x : string,
        m !! k = Some x →
        parsed_options !! k = Some x ∨
        ∃ raw : string,
          raw ∈ readlines text ∧ kconfig_line (strip raw) = Ok (Some (k, x)))).
Proof.
  split; [| split; [| split; [| split; [| split]]]].
  - intros raw id value Hid Hraw Hval Hnone.
    unfold parse_kconfig_line. rewrite Hraw, (kconfig_line_on id value Hid).
    rewrite bool_decide_eq_false_2 by done. cbn.
    rewrite bool_decide_eq_false_2; [done |].
    rewrite Hnone. by intros [? ?].
  - intros raw id Hid Hraw Hnone.
    unfold parse_kconfig_line. rewrite Hraw, (kconfig_line_off id Hid). cbn.
    rewrite bool_decide_eq_false_2; [done |].
    rewrite Hnone. by intros [? ?].
  - intros raw Hon Hoff. unfold parse_kconfig_line, kconfig_line.
    by rewrite Hon, Hoff.
  - intros raw id Hid Hraw.
    unfold parse_kconfig_line. rewrite Hraw.
    change ("CONFIG_" +:+ id +:+ "=is not set")
      with ("CONFIG_" +:+ id +:+ "=" +:+ "is not set").
    rewrite (kconfig_line_on id "is not set" Hid).
    by rewrite bool_decide_eq_true_2.
  - intros l1 l2 l3 a b o va vb Ha Hb.
    by apply (parse_kconfig_lines_dup parsed_options l1 l2 l3 a b o va vb).
  - intros text m Hm.
    destruct (parse_kconfig_lines_entries parsed_options m (readlines text) Hm)
      as (_ & Hlines & Honly).
    by split.
Qed.

(** The amended statement at work on the lines of a small file. *)
Lemma parse_kconfig_spec_witness :
  parse_kconfig_line ∅ ("CONFIG_BUG=y" +:+ String "010" EmptyString) =
    Ok (<["CONFIG_BUG" := "y"]> ∅) ∧
  parse_kconfig_line ∅ ("# CONFIG_DEVMEM is not set" +:+ String "010" EmptyString) =
    Ok (<["CONFIG_DEVMEM" := "is not set"]> ∅) ∧
  ∃ msg : string,
    parse_kconfig_lines ∅ ["CONFIG_BUG=y"; "# comment"; "# CONFIG_BUG is not set"] =
      Raise (SystemExit msg).
Proof.
  destruct (parse_kconfig_spec ∅) as (Hon & Hoff & _ & _ & Hdup & _).
  split; [| split].
  - exact (Hon ("CONFIG_BUG=y" +:+ String "010" EmptyString) "BUG" "y"
               eq_refl eq_refl ltac:(discriminate) eq_refl).
  - exact (Hoff ("# CONFIG_DEVMEM is not set" +:+ String "010" EmptyString) "DEVMEM"
                eq_refl eq_refl eq_refl).
  - exact (Hdup [] ["# comment"] [] "CONFIG_BUG=y" "# CONFIG_BUG is not set"
                "CONFIG_BUG" "y" "is not set" eq_refl eq_refl).
Defined.

(** C5 as stated fails on the code: the line [# CONFIG_FOO is not set] does
    not leave [CONFIG_FOO] absent. The map holds the text [is not set] for
    it, a check bound to the map gets that text as its state, and a check
    for the mere presence of [CONFIG_FOO] passes. *)
Lemma parse_kconfig_counterexample :
  let text := "# CONFIG_FOO is not set" +:+ String "010" EmptyString in
  ∃ m : gmap string string,
    parse_kconfig_file ∅ text = Ok m ∧
    m !! "CONFIG_FOO" = Some "is not set" ∧
    populate_opt_with_data (kconfig_check "CONFIG_FOO" None None) (Dict m) kconfig =
      Ok (kconfig_check "CONFIG_FOO" None (Some "is not set")) ∧
    (c ← do_check (kconfig_check "CONFIG_FOO" None (Some "is not set"));
     Ok (result_of c)) = Ok (Some "OK: is present").
Proof.
  exists (<["CONFIG_FOO" := "is not set"]> ∅).
  repeat split.
Qed.

End KconfigParser.

Module CmdlineParser.
Import Parsers Spec Strings.

Lemma normalize_empty (name : string) :
  normalize_cmdline_options name EmptyString = EmptyString.
Proof.
  unfold normalize_cmdline_options.
  destruct (bool_decide (name = "pti")); [done |].
  destruct (bool_decide (name = "debugfs")); done.
Qed.

Lemma token_entry_value (name value : string) :
  contains "=" name = false →
  token_entry (name +:+ "=" +:+ value) =
    (name, normalize_cmdline_options name value).
Proof.
  intros Hn. unfold token_entry.
  change (name +:+ "=" +:+ value) with (name +:+ String "=" value).
  by destruct (before_after_app "=" name value Hn) as (-> & -> & _).
Qed.

Lemma token_entry_bare (name : string) :
  contains "=" name = false → token_entry name = (name, EmptyString).
Proof.
  intros Hn. unfold token_entry.
  destruct (before_after_none "=" name Hn) as (-> & ->).
  by rewrite normalize_empty.
Qed.

(** One turn of the loop over the tokens adds the entry of the token; a
    later token with the same name takes the place of an earlier one. *)
Lemma parse_cmdline_opt_entry (d : gmap string string) (tok : string) :
  parse_cmdline_opt d tok =
    Ok (<[(token_entry tok).1 := (token_entry tok).2]> d).
Proof.
  unfold parse_cmdline_opt, token_entry.
  destruct (contains "=" tok) eqn:Hc.
  - rewrite split1_spec, Hc. reflexivity.
  - destruct (before_after_none "=" tok Hc) as (-> & ->). reflexivity.
Qed.

Lemma parse_cmdline_opts_fold (d : gmap string string) (opts : list string) :
  parse_cmdline_opts d opts =
    Ok (foldl (λ m tok, <[(token_entry tok).1 := (token_entry tok).2]> m) d opts).
Proof.
  revert d. induction opts as [|tok rest IH]; intros d; [done |].
  cbn [parse_cmdline_opts foldl]. rewrite parse_cmdline_opt_entry. cbn.
  apply IH.
Qed.

Lemma readline_app (s : string) : s = (readline s).1 +:+ (readline s).2.
Proof.
  induction s as [|c s IH]; [done |].
  rewrite readline_cons. destruct (Ascii.eqb c "010"); [done |].
  destruct (readline s) as [l r]. cbn in *. by rewrite append_cons, <- IH.
Qed.

Lemma readline_fst_nil (s : string) :
  (readline s).1 = EmptyString → s = EmptyString.
Proof.
  destruct s as [|c s]; [done |]. rewrite readline_cons.
  destruct (Ascii.eqb c "010"); [done |]. by destruct (readline s).
Qed.

Lemma readlines_nil (s : string) : readlines s = [] → s = EmptyString.
Proof.
  destruct s as [|c s]; [done |]. rewrite readlines_cons.
  destruct (Ascii.eqb c "010"); [done |]. by destruct (readlines s).
Qed.

(** The text has at most one line iff nothing is left after the first
    [readline()]. *)
Lemma one_line (text : string) :
  (length (readlines text) ≤ 1)%nat ↔ (readline text).2 = EmptyString.
Proof.
  destruct text as [|c text]; [cbn; split; [done | lia] |].
  rewrite readlines_readline. cbn [length]. split.
  - intros Hlen. apply readlines_nil.
    destruct (readlines (readline (String c text)).2); [done | cbn in Hlen; lia].
  - intros ->. cbn. lia.
Qed.

(** [parse_cmdline_file] on a text with at most one line, and on a text
    with more. *)
Lemma parse_cmdline_file_cases (d : gmap string string) (fname text : string) :
  parse_cmdline_file d fname text =
    if bool_decide ((readline text).2 = EmptyString)
    then parse_cmdline_opts d (split text)
    else Raise (SystemExit ("[!] ERROR: more than one line in " +:+ dq +:+ fname +:+ dq)).
Proof.
  unfold parse_cmdline_file.
  pose proof (readline_app text) as Happ.
  destruct (readline text) as [line rest]. cbn in *.
  pose proof (readline_fst_nil rest) as Hnil.
  destruct (readline rest) as [line2 r2] eqn:Hrl. cbn in *.
  destruct line2 as [|c l2]; cbn.
  - rewrite (Hnil eq_refl) in *. rewrite bool_decide_eq_true_2 by done.
    by rewrite Happ, append_nil_r.
  - rewrite bool_decide_eq_false_2; [done |].
    intros ->. done.
Qed.

(** C6 (amended). The command-line parser ends the run iff the file has
    more than one line, that is iff there is any text after the first line
    end; a file with more than one non-empty line is such a file. Otherwise
    it splits the line into its white-space separated tokens and adds the
    entry of each token in turn, a later token taking the place of an
    earlier one with the same name: a token [name=value] has the entry
    ([name], [value] normalized), a bare token [name] has the entry
    ([name], empty string), and the name of an entry is in the map, not
    absent. *)
Theorem parse_cmdline_file_spec (d : gmap string string) (fname text : string) :
  (is_ok (parse_cmdline_file d fname text) = true
     ↔ (length (readlines text) ≤ 1)%nat) ∧
  ((length (readlines text) > 1)%nat →
     parse_cmdline_file d fname text =
       Raise (SystemExit ("[!] ERROR: more than one line in " +:+ dq +:+ fname +:+ dq))) ∧
  ((length (content_lines text) > 1)%nat → (length (readlines text) > 1)%nat) ∧
  ((length (readlines text) ≤ 1)%nat →
     parse_cmdline_file d fname text =
       Ok (foldl (λ m tok, <[(token_entry tok).1 := (token_entry tok).2]> m)
                 d (split text))) ∧
  (∀ name value : string,
     contains "=" name = false →
     token_entry (name +:+ "=" +:+ value) =
       (name, normalize_cmdline_options name value)) ∧
  (∀ name : string,
     contains "=" name = false → token_entry name = (name, EmptyString)) ∧
  (∀ (m : gmap string string) (tok : string),
     <[(token_entry tok).1 := (token_entry tok).2]> m !! (token_entry tok).1
       = Some (token_entry tok).2).
Proof.
  rewrite parse_cmdline_file_cases, parse_cmdline_opts_fold.
  split; [| split; [| split; [| split; [| split; [| split]]]]].
  - rewrite one_line. case_bool_decide; cbn; split; done.
  - intros Hlen. rewrite bool_decide_eq_false_2; [done |].
    rewrite <- one_line. lia.
  - unfold content_lines. pose proof (length_filter
      (λ l, l ≠ String "010" EmptyString) (readlines text)). lia.
  - intros Hlen. apply one_line in Hlen. by rewrite bool_decide_eq_true_2.
  - apply token_entry_value.
  - apply token_entry_bare.
  - intros m tok. apply lookup_insert_eq.
Qed.

(** The amended statement at work: one line of tokens. *)
Lemma parse_cmdline_file_spec_witness :
  parse_cmdline_file ∅ "cmdline"
    ("rodata=on nopti pti=on" +:+ String "010" EmptyString) =
    Ok (<["pti" := "on"]> (<["nopti" := EmptyString]> (<["rodata" := "1"]> ∅))).
Proof.
  destruct (parse_cmdline_file_spec ∅ "cmdline"
              ("rodata=on nopti pti=on" +:+ String "010" EmptyString))
    as (_ & _ & _ & Hone & _).
  rewrite Hone; [reflexivity |]. vm_compute. lia.
Defined.

(** C6 as stated fails on the code: a file whose only non-empty line is
    followed by an empty line has one non-empty line, and the parser ends
    the run all the same. *)
Lemma parse_cmdline_file_counterexample :
  let text := "rodata=1" +:+ String "010" (String "010" EmptyString) in
  length (content_lines text) = 1%nat ∧
  parse_cmdline_file ∅ "cmdline" text =
    Raise (SystemExit ("[!] ERROR: more than one line in " +:+ dq +:+ "cmdline" +:+ dq)).
Proof. split; reflexivity. Qed.

End CmdlineParser.

Module Population.
Import Checks Spec.

Lemma for_each_map {A B : Type} (f : A → Res B) (g : A → B) (l : list A) :
  Forall (λ x, f x = Ok (g x)) l → for_each f l = Ok (map g l).
Proof.
  induction 1 as [|x l Hx _ IH]; [done |].
  cbn. rewrite Hx. cbn. by rewrite IH.
Qed.

Section Pass.
Variables (d : data) (data_type : opt_type).
Hypothesis Hpass : pass_ok d data_type = true.

(** On a simple check the pass binds the state if the kinds match, and
    does nothing otherwise. *)
Lemma populate_simple_spec (c : check) :
  type_of c ≠ complex →
  populate_simple_opt_with_data c d data_type = Ok (bind_data d data_type c).
Proof using Hpass.
  intros Hty. destruct c as [o|o|v|res opts|res opts]; try done;
    destruct data_type, d; try done.
Qed.

Lemma populate_opt_complex (res : option string) (opts : list check) :
  populate_opt_with_data (OR res opts) d data_type =
    (opts' ← for_each (λ o, if bool_decide (type_of o = complex)
                             then populate_opt_with_data o d data_type
                             else populate_simple_opt_with_data o d data_type) opts;
     Ok (OR res opts')) ∧
  populate_opt_with_data (AND res opts) d data_type =
    (opts' ← for_each (λ o, if bool_decide (type_of o = complex)
                             then populate_opt_with_data o d data_type
                             else populate_simple_opt_with_data o d data_type) opts;
     Ok (AND res opts')).
Proof. split; reflexivity. Qed.

(** On a complex check the pass never raises: it binds the state of the
    simple checks of its kind at any depth. *)
Lemma populate_complex_spec (c : check) :
  type_of c = complex →
  populate_opt_with_data c d data_type = Ok (bind_data d data_type c).
Proof using Hpass.
  induction c as [o|o|v|res opts IH|res opts IH] using CompoundChecks.check_induction;
    try done; intros _.
  all: destruct (populate_opt_complex res opts) as [HOR HAND].
  all: rewrite ?HOR, ?HAND.
  all: rewrite (for_each_map _ (bind_data d data_type)); [done |].
  all: eapply Forall_impl; [exact IH |]; intros x Hx; cbn beta.
  all: case_bool_decide; [by apply Hx | by apply populate_simple_spec].
Qed.

(** On a top-level check: a version check is refused. *)
Lemma populate_opt_spec (c : check) :
  populate_opt_with_data c d data_type =
    if bool_decide (type_of c ≠ version) then Ok (bind_data d data_type c)
    else Raise (AssertionError ("bad type " +:+ dq +:+ "version" +:+ dq
                                +:+ " for a simple check")).
Proof using Hpass.
  destruct c as [o|o|v|res opts|res opts].
  - rewrite bool_decide_eq_true_2 by done.
    change (populate_opt_with_data (KconfigCheck o) d data_type)
      with (populate_simple_opt_with_data (KconfigCheck o) d data_type).
    by apply populate_simple_spec.
  - rewrite bool_decide_eq_true_2 by done.
    change (populate_opt_with_data (CmdlineCheck o) d data_type)
      with (populate_simple_opt_with_data (CmdlineCheck o) d data_type).
    by apply populate_simple_spec.
  - reflexivity.
  - rewrite bool_decide_eq_true_2 by done. by apply populate_complex_spec.
  - rewrite bool_decide_eq_true_2 by done. by apply populate_complex_spec.
Qed.

Lemma populate_with_data_spec (checklist : list check) :
  populate_with_data checklist d data_type =
    if top_level_ok checklist then Ok (map (bind_data d data_type) checklist)
    else Raise (AssertionError ("bad type " +:+ dq +:+ "version" +:+ dq
                                +:+ " for a simple check")).
Proof using Hpass.
  unfold populate_with_data, top_level_ok.
  induction checklist as [|c l IH]; [done |].
  cbn [for_each forallb map]. rewrite populate_opt_spec.
  destruct (bool_decide (type_of c ≠ version)); cbn; [| done].
  rewrite IH. by destruct (forallb _ l).
Qed.

End Pass.

(** ** The passes as functions on checks *)

Lemma bind_data_type (d : data) (t : opt_type) (c : check) :
  type_of (bind_data d t c) = type_of c.
Proof.
  destruct c; cbn; try done; by case_bool_decide.
Qed.

Lemma top_level_ok_bind (d : data) (t : opt_type) (l : list check) :
  top_level_ok (map (bind_data d t) l) = top_level_ok l.
Proof.
  unfold top_level_ok. induction l as [|c l IH]; [done |].
  cbn. by rewrite bind_data_type, IH.
Qed.

Lemma bind_data_comm (d1 d2 : data) (t1 t2 : opt_type) (c : check) :
  t1 ≠ t2 →
  bind_data d1 t1 (bind_data d2 t2 c) = bind_data d2 t2 (bind_data d1 t1 c).
Proof.
  intros Hne.
  induction c as [o|o|v|res opts IH|res opts IH] using CompoundChecks.check_induction; cbn.
  - repeat (case_bool_decide; cbn); congruence.
  - repeat (case_bool_decide; cbn); congruence.
  - repeat (case_bool_decide; cbn); congruence.
  - f_equal. rewrite !map_map. apply map_ext_Forall. exact IH.
  - f_equal. rewrite !map_map. apply map_ext_Forall. exact IH.
Qed.

Lemma bind_data_idem (d : data) (t : opt_type) (c : check) :
  bind_data d t (bind_data d t c) = bind_data d t c.
Proof.
  induction c as [o|o|v|res opts IH|res opts IH] using CompoundChecks.check_induction; cbn.
  - repeat (case_bool_decide; cbn); try congruence. by destruct o.
  - repeat (case_bool_decide; cbn); try congruence. by destruct o.
  - repeat (case_bool_decide; cbn); try congruence. by destruct v.
  - f_equal. rewrite map_map. apply map_ext_Forall. exact IH.
  - f_equal. rewrite map_map. apply map_ext_Forall. exact IH.
Qed.

(** C9. A population pass of a kind (build option, boot parameter or
    version) with data of the shape of that kind binds the state of the
    simple checks of that kind, at any depth of the checklist, and leaves
    every other check and every other attribute as it was; it raises only
    for a version check at the top level of the checklist, whatever its kind
    and data. So two passes of different kinds give the same checklist in
    either order, and a pass run twice with the same data gives what it
    gives when run once. *)
Theorem populate_with_data_passes (checklist : list check)
    (d1 d2 : data) (t1 t2 : opt_type) :
  pass_ok d1 t1 = true → pass_ok d2 t2 = true → t1 ≠ t2 →
  populate_with_data checklist d1 t1 =
    (if top_level_ok checklist then Ok (map (bind_data d1 t1) checklist)
     else Raise (AssertionError ("bad type " +:+ dq +:+ "version" +:+ dq
                                 +:+ " for a simple check"))) ∧
  (∀ c : check, type_of c ≠ complex → type_of c ≠ t1 → bind_data d1 t1 c = c) ∧
  (∀ o : OptCheck,
     bind_data d1 kconfig (KconfigCheck o) =
       KconfigCheck (set_state o (data_lookup d1 (name o))) ∧
     bind_data d1 cmdline (CmdlineCheck o) =
       CmdlineCheck (set_state o (data_lookup d1 (name o)))) ∧
  (∀ v : VersionCheck,
     bind_data d1 version (Version v) = Version (set_ver v d1)) ∧
  (∀ (res : option string) (opts : list check),
     bind_data d1 t1 (OR res opts) = OR res (map (bind_data d1 t1) opts) ∧
     bind_data d1 t1 (AND res opts) = AND res (map (bind_data d1 t1) opts)) ∧
  (l ← populate_with_data checklist d1 t1; populate_with_data l d2 t2) =
    (l ← populate_with_data checklist d2 t2; populate_with_data l d1 t1) ∧
  (l ← populate_with_data checklist d1 t1; populate_with_data l d1 t1) =
    populate_with_data checklist d1 t1.
Proof.
  intros H1 H2 Hne.
  split; [by apply populate_with_data_spec |].
  split.
  { intros c Hc Ht. destruct c; cbn; try done;
      rewrite bool_decide_eq_false_2; done. }
  split; [done |]. split; [done |]. split; [done |].
  rewrite (populate_with_data_spec d1 t1 H1 checklist).
  rewrite (populate_with_data_spec d2 t2 H2 checklist).
  destruct (top_level_ok checklist) eqn:Htop; cbn; [| done].
  split.
  - rewrite (populate_with_data_spec d2 t2 H2), (populate_with_data_spec d1 t1 H1).
    rewrite !top_level_ok_bind, Htop. f_equal.
    rewrite !map_map. apply map_ext. intros c. apply bind_data_comm. congruence.
  - rewrite (populate_with_data_spec d1 t1 H1).
    rewrite top_level_ok_bind, Htop. f_equal.
    rewrite map_map. apply map_ext. intros c. apply bind_data_idem.
Qed.

(** The passes of the driver on a small checklist: the build options, then
    the kernel version, or the other way round. *)
Lemma populate_with_data_passes_witness :
  let checklist :=
    [kconfig_check "CONFIG_BUG" (Some "y") None;
     OR None [kconfig_check "CONFIG_REFCOUNT_FULL" (Some "y") None;
              VersionCheck_init (5, 5)]] in
  let options := Dict (<["CONFIG_BUG" := "y"]> ∅) in
  let kernel_version := Tuple [5; 10] in
  (l ← populate_with_data checklist options kconfig;
   populate_with_data l kernel_version version) =
  (l ← populate_with_data checklist kernel_version version;
   populate_with_data l options kconfig) ∧
  (l ← populate_with_data checklist options kconfig;
   populate_with_data l kernel_version version) =
  Ok [kconfig_check "CONFIG_BUG" (Some "y") (Some "y");
      OR None [kconfig_check "CONFIG_REFCOUNT_FULL" (Some "y") None;
               version_check (5, 5) [5; 10]]].
Proof.
  intros checklist options kernel_version.
  destruct (populate_with_data_passes checklist options kernel_version
              kconfig version eq_refl eq_refl ltac:(discriminate))
    as (_ & _ & _ & _ & _ & Hcomm & _).
  split; [exact Hcomm | reflexivity].
Defined.

End Population.

(** * Further properties *)

Module Words.
Import Spec Strings.

(** ** [s.split()] *)

Lemma split_go_cons (cur : option string) (c : ascii) (s : string) :
  split_go cur (String c s) =
    if isspace c then option_list (String.rev <$> cur) ++ split_go None s
    else split_go (Some (String c (default EmptyString cur))) s.
Proof. reflexivity. Qed.

Lemma rev_app_rev_app (w a b : string) :
  String.rev_app (String.rev_app w a) b = String.rev_app a (w +:+ b).
Proof.
  revert a b. induction w as [|c w IH]; intros a b; [done |].
  cbn [String.rev_app]. rewrite IH. by rewrite append_cons.
Qed.

(** A white space character ends the token at hand. *)
Lemma split_go_space (cur : option string) (a b : string) (sp : ascii) :
  isspace sp = true →
  split_go cur (a +:+ String sp b) = split_go cur a ++ split_go None b.
Proof.
  intros Hsp. revert cur. induction a as [|c a IH]; intros cur.
  - rewrite append_nil_l, split_go_cons, Hsp. reflexivity.
  - rewrite append_cons, !split_go_cons. destruct (isspace c).
    + by rewrite IH, app_assoc.
    + apply IH.
Qed.

Lemma split_space (a b : string) (sp : ascii) :
  isspace sp = true → split (a +:+ String sp b) = split a ++ split b.
Proof. apply split_go_space. Qed.

(** A text without white space is one token. *)
Lemma split_go_word (acc w : string) :
  string_forall (λ c, negb (isspace c)) w = true →
  split_go (Some acc) w = [String.rev (String.rev_app w acc)].
Proof.
  revert acc. induction w as [|c w IH]; intros acc; [done |].
  cbn [string_forall]. intros [Hc Hw]%andb_prop.
  apply negb_true_iff in Hc. rewrite split_go_cons, Hc. cbn [default].
  by rewrite IH.
Qed.

Lemma split_word (w : string) :
  w ≠ EmptyString → string_forall (λ c, negb (isspace c)) w = true →
  split w = [w].
Proof.
  destruct w as [|c w]; [done |]. intros _. cbn [string_forall].
  intros [Hc Hw]%andb_prop. apply negb_true_iff in Hc.
  unfold split. rewrite split_go_cons, Hc. cbn [default].
  rewrite split_go_word by done. unfold String.rev.
  rewrite rev_app_rev_app. cbn [String.rev_app].
  by rewrite append_nil_r.
Qed.

Lemma split_go_pending (acc s : string) : split_go (Some acc) s ≠ [].
Proof.
  revert acc. induction s as [|c s IH]; intros acc; [done |].
  rewrite split_go_cons. destruct (isspace c); [done | apply IH].
Qed.

(** A text that starts with a character that is not white space has a
    token. *)
Lemma split_nonspace (c : ascii) (s : string) :
  isspace c = false → split (String c s) ≠ [].
Proof.
  intros Hc. unfold split. rewrite split_go_cons, Hc. apply split_go_pending.
Qed.

Lemma rstrip_cons (c : ascii) (s : string) :
  rstrip (String c s) =
    match rstrip s with
    | EmptyString => if isspace c then EmptyString else String c EmptyString
    | t => String c t
    end.
Proof. reflexivity. Qed.

Lemma rstrip_nil_split (cur : option string) (s : string) :
  rstrip s = EmptyString → split_go cur s = option_list (String.rev <$> cur).
Proof.
  revert cur. induction s as [|c s IH]; intros cur; [done |].
  rewrite rstrip_cons. destruct (rstrip s) eqn:Hr; [| done].
  destruct (isspace c) eqn:Hc; [| done]. intros _.
  rewrite split_go_cons, Hc, IH by done. apply app_nil_r.
Qed.

Lemma split_go_rstrip (cur : option string) (s : string) :
  split_go cur (rstrip s) = split_go cur s.
Proof.
  revert cur. induction s as [|c s IH]; intros cur; [done |].
  rewrite rstrip_cons. destruct (rstrip s) as [|a t] eqn:Hr.
  - destruct (isspace c) eqn:Hc.
    + rewrite split_go_cons, Hc, (rstrip_nil_split None s Hr). by rewrite app_nil_r.
    + rewrite !split_go_cons, Hc. by rewrite (rstrip_nil_split _ s Hr).
  - rewrite (split_go_cons cur c (String a t)), (split_go_cons cur c s).
    by rewrite !IH.
Qed.

Lemma split_lstrip (s : string) : split (lstrip s) = split s.
Proof.
  unfold split. induction s as [|c s IH]; [done |].
  cbn [lstrip]. destruct (isspace c) eqn:Hc; [| done].
  by rewrite split_go_cons, Hc.
Qed.

(** The tokens of a line do not feel [strip()]. *)
Lemma split_strip (s : string) : split (strip s) = split s.
Proof. unfold strip, split. by rewrite split_go_rstrip, split_lstrip. Qed.

Lemma string_forall_app (cls : ascii → bool) (a b : string) :
  string_forall cls (a +:+ b) = string_forall cls a && string_forall cls b.
Proof.
  induction a as [|c a IH]; [done |].
  rewrite append_cons. cbn [string_forall]. by rewrite IH, andb_assoc.
Qed.

Lemma string_forall_impl (cls cls' : ascii → bool) (s : string) :
  (∀ c, cls c = true → cls' c = true) →
  string_forall cls s = true → string_forall cls' s = true.
Proof.
  intros Himpl. induction s as [|c s IH]; [done |]. cbn.
  intros [Hc Hs]%andb_prop. by rewrite (Himpl c Hc), IH.
Qed.

End Words.

Module VersionDetection.
Import Checks Spec VersionDetect Strings Words.

(** ** Decimal numbers *)

Lemma int_go_nonneg (acc : Z) (s : string) :
  0 ≤ acc → string_forall is_digit s = true → 0 ≤ int_go acc s.
Proof.
  revert acc. induction s as [|c s IH]; intros acc Hacc; [done |].
  cbn [string_forall int_go]. intros [Hc Hs]%andb_prop. apply IH; [| done].
  unfold is_digit, in_range in Hc. apply andb_prop in Hc as [Hlo _].
  apply Nat.leb_le in Hlo. unfold digit_value.
  change (nat_of_ascii "0") with 48%nat in Hlo. lia.
Qed.

Lemma pretty_N_char_digit (d : N) :
  (d < 10)%N →
  is_digit (pretty_N_char d) = true ∧ digit_value (pretty_N_char d) = Z.of_N d.
Proof.
  intros Hd.
  assert (d = 0 ∨ d = 1 ∨ d = 2 ∨ d = 3 ∨ d = 4 ∨ d = 5 ∨ d = 6 ∨ d = 7
          ∨ d = 8 ∨ d = 9)%N as Hcases by lia.
  repeat (destruct Hcases as [-> | Hcases]; [done |]). by subst.
Qed.

Lemma pretty_N_go_digits (x : N) (s : string) :
  string_forall is_digit (pretty_N_go x s) = string_forall is_digit s ∧
  (nonempty s = true → nonempty (pretty_N_go x s) = true).
Proof.
  revert s. induction (N.lt_wf_0 x) as [x _ IH]; intros s.
  assert (x = 0 ∨ 0 < x)%N as [-> | Hx] by lia; [done |].
  rewrite pretty_N_go_step by done.
  destruct (IH (x `div` 10)%N ltac:(by apply N.div_lt)
               (String (pretty_N_char (x `mod` 10)) s)) as [-> Hne].
  split; [| intros _; by apply Hne].
  cbn [string_forall].
  by destruct (pretty_N_char_digit (x `mod` 10)%N
                 ltac:(by apply N.mod_lt)) as [-> _].
Qed.

Lemma pretty_N_go_value (x : N) (s : string) :
  ∃ k : nat, ∀ acc : Z,
    int_go acc (pretty_N_go x s) = int_go (acc * 10 ^ Z.of_nat k + Z.of_N x) s.
Proof.
  revert s. induction (N.lt_wf_0 x) as [x _ IH]; intros s.
  assert (x = 0 ∨ 0 < x)%N as [-> | Hx] by lia.
  { exists 0%nat. intros acc. rewrite pretty_N_go_0. f_equal. cbn. lia. }
  destruct (IH (x `div` 10)%N ltac:(by apply N.div_lt)
               (String (pretty_N_char (x `mod` 10)) s)) as [k Hk].
  exists (S k). intros acc. rewrite pretty_N_go_step, Hk by done.
  cbn [int_go]. f_equal.
  destruct (pretty_N_char_digit (x `mod` 10)%N
              ltac:(by apply N.mod_lt)) as [_ ->].
  rewrite Nat2Z.inj_succ, Z.pow_succ_r by lia.
  rewrite (N.div_mod x 10) at 3 by done.
  rewrite N2Z.inj_add, N2Z.inj_mul. change (Z.of_N 10) with 10. lia.
Qed.

(** The text of a natural number is a text of digits, and reading it gives
    the number back. *)
Lemma pretty_digits (n : Z) :
  0 ≤ n → isdigit (pretty n) = true ∧ int (pretty n) = Ok n.
Proof.
  intros Hn.
  assert (Hd : isdigit (pretty n) = true ∧ int_go 0 (pretty n) = n).
  { destruct n as [|p|p]; [done | | lia].
    change (pretty (Z.pos p)) with (pretty_N_go (N.pos p) EmptyString).
    destruct (pretty_N_go_digits (N.pos p) EmptyString) as [Hdig _].
    destruct (pretty_N_go_value (N.pos p) EmptyString) as [k Hk].
    split.
    - unfold isdigit. rewrite Hdig. cbn [string_forall]. rewrite andb_true_r.
      rewrite pretty_N_go_step by done.
      by apply pretty_N_go_digits.
    - rewrite Hk. cbn [int_go]. lia. }
  destruct Hd as [Hd Hv]. split; [done |]. unfold int. by rewrite Hd, Hv.
Qed.

Lemma is_digit_class (c : ascii) :
  is_digit c = true →
  negb (isspace c) = true ∧ not_newline c = true ∧ Ascii.eqb c "." = false.
Proof. destruct c as [[] [] [] [] [] [] [] []]; vm_compute; intros H; done. Qed.

Lemma isspace_newline (c : ascii) :
  negb (isspace c) = true → not_newline c = true.
Proof. destruct c as [[] [] [] [] [] [] [] []]; vm_compute; intros H; done. Qed.

Lemma digits_contains (s : string) :
  string_forall is_digit s = true → contains "." s = false.
Proof.
  induction s as [|c s IH]; [done |]. cbn.
  intros [Hc Hs]%andb_prop. destruct (is_digit_class c Hc) as (_ & _ & ->).
  by apply IH.
Qed.

(** ** [s.split(sep)] *)

Lemma split_on_cons (sep c : ascii) (s : string) :
  split_on sep (String c s) =
    if Ascii.eqb c sep then EmptyString :: split_on sep s
    else match split_on sep s with
         | a :: rest => String c a :: rest
         | [] => [String c EmptyString]
         end.
Proof. reflexivity. Qed.

Lemma split_on_nonempty (sep : ascii) (s : string) : split_on sep s ≠ [].
Proof.
  induction s as [|c s IH]; [done |]. rewrite split_on_cons.
  destruct (Ascii.eqb c sep); [done |]. by destruct (split_on sep s).
Qed.

Lemma split_on_app (sep : ascii) (a b : string) :
  contains sep a = false →
  split_on sep (a +:+ String sep b) = a :: split_on sep b.
Proof.
  induction a as [|c a IH].
  - intros _. rewrite append_nil_l, split_on_cons. by rewrite Ascii.eqb_refl.
  - cbn [contains]. intros [Hc Ha]%orb_false_elim.
    rewrite append_cons, split_on_cons, Hc, IH by done. done.
Qed.

(** ** The banner line *)

Lemma ver_pattern_elim (line : string) :
  re_match ver_pattern line = true →
  ∃ w t : string, line = "# Linux/" +:+ w +:+ " Kernel Configuration" +:+ t.
Proof.
  unfold ver_pattern. cbn [re_match].
  destruct (strip_prefix "# Linux/" line) as [s|] eqn:Hs; [| done].
  apply strip_prefix_elim in Hs as ->.
  intros (w & t & -> & _ & Hk)%re_star_elim.
  destruct (strip_prefix " Kernel Configuration" t) as [t'|] eqn:Ht; [| done].
  apply strip_prefix_elim in Ht as ->. by exists w, t'.
Qed.

(** A line that the pattern matches has three tokens or more: reading the
    third one does not fail. *)
Lemma banner_third_token (line : string) :
  re_match ver_pattern line = true →
  ∃ ver_str : string, getitem (split (strip line)) 2 = Ok ver_str.
Proof.
  intros (w & t & ->)%ver_pattern_elim. rewrite split_strip.
  change ("# Linux/" +:+ w +:+ " Kernel Configuration" +:+ t)
    with ("#" +:+ String " " ("Linux/" +:+ w +:+ String " " ("Kernel Configuration" +:+ t))).
  rewrite split_space by done.
  rewrite <- (append_assoc "Linux/" w), split_space by done.
  pose proof (split_nonspace "L" ("inux/" +:+ w) eq_refl) as Hx.
  pose proof (split_nonspace "K" ("ernel Configuration" +:+ t) eq_refl) as Hy.
  change (String "L" ("inux/" +:+ w)) with ("Linux/" +:+ w) in Hx.
  change (String "K" ("ernel Configuration" +:+ t))
    with ("Kernel Configuration" +:+ t) in Hy.
  destruct (split ("Linux/" +:+ w)) as [|x [|x' X]]; [done | |];
    destruct (split ("Kernel Configuration" +:+ t)) as [|y Y]; try done;
    cbn; eauto.
Qed.

Lemma detect_version_loop_total (lines : list string) :
  ∃ v msg, detect_version_loop lines = Ok (v, msg) ∧
    ((∃ a b, v = Some (a, b) ∧ msg = None ∧ 0 ≤ a ∧ 0 ≤ b) ∨
     (v = None ∧ is_Some msg)).
Proof.
  induction lines as [|line rest IH]; cbn [detect_version_loop].
  { eexists _, _. split; [done |]. right. split; [done | by eexists]. }
  destruct (re_match ver_pattern line) eqn:Hre; [| exact IH].
  destruct (banner_third_token line Hre) as [ver_str ->]. cbn.
  destruct (split_on "." ver_str) as [|v0 [|v1 [|v2 tl]]];
    try (eexists _, _; split; [done |]; right; split; [done | by eexists]).
  destruct (isdigit v0) eqn:H0, (isdigit v1) eqn:H1; cbn;
    try (eexists _, _; split; [done |]; right; split; [done | by eexists]).
  unfold int. rewrite H0, H1. cbn.
  eexists _, _. split; [done |]. left. eexists _, _.
  split; [done |]. split; [done |].
  unfold isdigit in H0, H1.
  apply andb_prop in H0 as [_ H0]. apply andb_prop in H1 as [_ H1].
  split; by apply int_go_nonneg.
Qed.

Lemma detect_version_loop_skip (pre lines : list string) :
  Forall (λ l, re_match ver_pattern l = false) pre →
  detect_version_loop (pre ++ lines) = detect_version_loop lines.
Proof.
  induction 1 as [|l pre Hl _ IH]; [done |].
  cbn [app detect_version_loop]. by rewrite Hl.
Qed.

(** X1. Version detection never raises, whatever the ASCII text: it
    answers with a version of two numbers that are not negative and no
    message, or with no version and a message. A text without a banner line
    gets the message [no kernel version detected]. *)
Theorem detect_version_total (text : string) :
  (∃ v msg, detect_version text = Ok (v, msg) ∧
     ((∃ a b, v = Some (a, b) ∧ msg = None ∧ 0 ≤ a ∧ 0 ≤ b) ∨
      (v = None ∧ is_Some msg))) ∧
  (Forall (λ l, re_match ver_pattern l = false) (readlines text) →
   detect_version text = Ok (None, Some "no kernel version detected")).
Proof.
  split; [apply detect_version_loop_total |].
  intros Hno. unfold detect_version.
  rewrite <- (app_nil_r (readlines text)).
  by rewrite detect_version_loop_skip.
Qed.

(** X2. The first banner line [# Linux/arch M.m.p Kernel Configuration]
    of a file, with numbers [M] and [m] that are not negative, gives the
    version [(M, m)], whatever the lines after it: printing and detection
    of a version are a round trip. *)
Theorem detect_version_banner (text : string) (pre rest : list string)
    (arch p : string) (M m : Z) :
  readlines text =
    pre ++ ("# Linux/" +:+ arch +:+ " " +:+ pretty M +:+ "." +:+ pretty m +:+ "."
            +:+ p +:+ " Kernel Configuration" +:+ String "010" EmptyString) :: rest →
  Forall (λ l, re_match ver_pattern l = false) pre →
  string_forall (λ c, negb (isspace c)) arch = true →
  string_forall (λ c, negb (isspace c)) p = true →
  0 ≤ M → 0 ≤ m →
  detect_version text = Ok (Some (M, m), None).
Proof.
  intros Hlines Hpre Harch Hp HM Hm.
  unfold detect_version. rewrite Hlines, detect_version_loop_skip by done.
  destruct (pretty_digits M HM) as [HdM HiM].
  destruct (pretty_digits m Hm) as [Hdm Him].
  assert (HsM : string_forall is_digit (pretty M) = true)
    by (unfold isdigit in HdM; by apply andb_prop in HdM as [_ ?]).
  assert (Hsm : string_forall is_digit (pretty m) = true)
    by (unfold isdigit in Hdm; by apply andb_prop in Hdm as [_ ?]).
  set (ver := pretty M +:+ "." +:+ pretty m +:+ "." +:+ p).
  assert (Hver : string_forall (λ c, negb (isspace c)) ver = true).
  { unfold ver. rewrite !string_forall_app, Hp.
    rewrite (string_forall_impl is_digit _ (pretty M)), (string_forall_impl is_digit _ (pretty m));
      try done; intros c Hc; by destruct (is_digit_class c Hc). }
  assert (Hne : ver ≠ EmptyString).
  { unfold ver. unfold isdigit in HdM. apply andb_prop in HdM as [HneM _].
    destruct (pretty M); [done |]. by rewrite append_cons. }
  set (line := "# Linux/" +:+ _).
  assert (Hline : line = "# Linux/" +:+ (arch +:+ String " " ver)
                         +:+ " Kernel Configuration" +:+ String "010" EmptyString).
  { unfold line, ver. by repeat (rewrite ?append_assoc, ?append_cons, ?append_nil_l). }
  assert (Hre : re_match ver_pattern line = true).
  { rewrite Hline. unfold ver_pattern. cbn [re_match]. rewrite strip_prefix_app.
    apply re_star_intro; [| by rewrite strip_prefix_app].
    rewrite string_forall_app. cbn [string_forall].
    rewrite (string_forall_impl _ not_newline arch isspace_newline Harch).
    by rewrite (string_forall_impl _ not_newline ver isspace_newline Hver). }
  assert (Hparts : getitem (split (strip line)) 2 = Ok ver).
  { rewrite split_strip, Hline.
    change ("# Linux/" +:+ (arch +:+ String " " ver) +:+ " Kernel Configuration"
            +:+ String "010" EmptyString)
      with ("#" +:+ String " " ("Linux/" +:+ (arch +:+ String " " ver)
            +:+ String " " ("Kernel" +:+ String " " ("Configuration"
            +:+ String "010" EmptyString)))).
    rewrite split_space by done.
    rewrite (append_assoc arch), (append_cons " " ver).
    rewrite <- (append_assoc "Linux/" arch).
    rewrite (split_space ("Linux/" +:+ arch)) by done.
    rewrite (split_word ("Linux/" +:+ arch)); [| done |].
    - rewrite (split_space ver) by done. by rewrite (split_word ver).
    - by rewrite string_forall_app, Harch. }
  cbn [detect_version_loop]. rewrite Hre, Hparts. cbn.
  unfold ver at 1. rewrite !(append_cons "." EmptyString), !append_nil_l.
  rewrite (split_on_app "." (pretty M)) by (by apply digits_contains).
  rewrite (split_on_app "." (pretty m)) by (by apply digits_contains).
  pose proof (split_on_nonempty "." p) as Hp3.
  destruct (split_on "." p) as [|v2 tl]; [done |].
  by rewrite HdM, Hdm, HiM, Him.
Qed.

Lemma detect_version_banner_witness :
  detect_version ("#" +:+ String "010" ("# Linux/x86_64 5.10.0-rc1 Kernel Configuration"
                  +:+ String "010" ("CONFIG_BUG=y" +:+ String "010" EmptyString)))
  = Ok (Some (5, 10), None).
Proof.
  apply (detect_version_banner _ ["#" +:+ String "010" EmptyString]
           ["CONFIG_BUG=y" +:+ String "010" EmptyString] "x86_64" "0-rc1" 5 10);
    [reflexivity | by repeat constructor | reflexivity | reflexivity | lia | lia].
Defined.

(** X3. The first banner line of a file decides. If its third token has
    fewer than three pieces between dots, or the first or the second piece
    is not a text of digits, there is no version and the message names the
    token, even when a later line is a good banner. *)
Theorem detect_version_malformed (text : string) (pre rest : list string)
    (line ver_str : string) :
  readlines text = pre ++ line :: rest →
  Forall (λ l, re_match ver_pattern l = false) pre →
  re_match ver_pattern line = true →
  getitem (split (strip line)) 2 = Ok ver_str →
  ((length (split_on "." ver_str) < 3)%nat ∨
   ∃ v0 v1 tl, split_on "." ver_str = v0 :: v1 :: tl ∧
               (isdigit v0 = false ∨ isdigit v1 = false)) →
  detect_version text =
    Ok (None, Some ("failed to parse the version " +:+ dq +:+ ver_str +:+ dq)).
Proof.
  intros Hlines Hpre Hre Hparts Hbad.
  unfold detect_version. rewrite Hlines, detect_version_loop_skip by done.
  cbn [detect_version_loop]. rewrite Hre, Hparts. cbn.
  destruct Hbad as [Hlen | (v0 & v1 & tl & -> & Hd)].
  - destruct (split_on "." ver_str) as [|v0 [|v1 [|v2 tl]]]; try done.
    cbn in Hlen. lia.
  - destruct tl as [|v2 tl]; [done |].
    destruct Hd as [-> | ->]; [done |]. by rewrite orb_true_r.
Qed.

Lemma detect_version_malformed_witness :
  detect_version ("# Linux/x86_64 5.x.0 Kernel Configuration" +:+ String "010"
                  ("# Linux/x86_64 5.10.0 Kernel Configuration" +:+ String "010" EmptyString))
  = Ok (None, Some ("failed to parse the version " +:+ dq +:+ "5.x.0" +:+ dq)).
Proof.
  apply (detect_version_malformed _ []
           ["# Linux/x86_64 5.10.0 Kernel Configuration" +:+ String "010" EmptyString]
           ("# Linux/x86_64 5.x.0 Kernel Configuration" +:+ String "010" EmptyString));
    [reflexivity | constructor | reflexivity | reflexivity |].
  right. exists "5", "x", ["0"]. split; [reflexivity | by right].
Defined.

End VersionDetection.

(** ** Evaluation as a whole *)

Module Evaluation.
Import Checks Spec Semantics Strings CompoundChecks.

Section LoopFacts.
Variable f : check → Res check.

(** Running a loop again on the children it left gives the same state. *)
Lemma OR_loop_idem (i : nat) (opts : list check) (st : loop_state) :
  Forall (λ x, ∀ x', f x = Ok x' → f x' = Ok x') opts →
  OR_loop f i opts = Ok st → OR_loop f i (loop_opts st) = Ok st.
Proof.
  intros Hall. revert i st.
  induction Hall as [|x l Hx _ IH]; intros i st; cbn.
  - by intros [= <-].
  - destruct (f x) as [x'|] eqn:Hfx; cbn; [| done].
    destruct (result_str x') as [r|] eqn:Hr; cbn; [| done].
    destruct (startswith r "OK") eqn:Hp.
    + destruct (if bool_decide (i ≠ 0%nat) then OR_describe x' r else Ok r)
        as [r'|] eqn:Hd; cbn; [| done].
      intros [= <-]. cbn. rewrite (Hx x' eq_refl). cbn. rewrite Hr. cbn.
      by rewrite Hp, Hd.
    + destruct (OR_loop f (S i) l) as [st0|] eqn:Hl; cbn; [| done].
      intros [= <-]. cbn. rewrite (Hx x' eq_refl). cbn. rewrite Hr. cbn.
      by rewrite Hp, (IH _ _ Hl).
Qed.

Lemma AND_loop_idem (i : nat) (opts : list check) (st : loop_state) :
  Forall (λ x, ∀ x', f x = Ok x' → f x' = Ok x') opts →
  AND_loop f i opts = Ok st → AND_loop f i (loop_opts st) = Ok st.
Proof.
  intros Hall. revert i st.
  induction Hall as [|x l Hx _ IH]; intros i st; cbn.
  - by intros [= <-].
  - destruct (AND_loop f (S i) l) as [st0|] eqn:Hl; cbn; [| done].
    destruct (loop_end st0) as [r0|] eqn:He.
    + intros [= <-]. cbn. rewrite (IH _ _ Hl). cbn. by rewrite He.
    + destruct (f x) as [x'|] eqn:Hfx; cbn; [| done].
      destruct (bool_decide (i = 0%nat)) eqn:Hi.
      * intros [= <-]. cbn. rewrite (IH _ _ Hl). cbn. rewrite He.
        rewrite (Hx x' eq_refl). cbn. by rewrite Hi.
      * destruct (result_str x') as [r|] eqn:Hr; cbn; [| done].
        destruct (startswith r "OK") eqn:Hp; cbn.
        -- intros [= <-]. cbn. rewrite (IH _ _ Hl). cbn. rewrite He.
           rewrite (Hx x' eq_refl). cbn. rewrite Hi, Hr. cbn. by rewrite Hp.
        -- destruct (AND_describe x' r) as [r'|] eqn:Hd; cbn; [| done].
           intros [= <-]. cbn. rewrite (IH _ _ Hl). cbn. rewrite He.
           rewrite (Hx x' eq_refl). cbn. rewrite Hi, Hr. cbn. by rewrite Hp, Hd.
Qed.

(** A loop changes of its children what [check()] changes of a child. *)
Lemma OR_loop_frame {B : Type} (g : check → B) (i : nat) (opts : list check)
    (st : loop_state) :
  Forall (λ x, ∀ x', f x = Ok x' → g x' = g x) opts →
  OR_loop f i opts = Ok st → map g (loop_opts st) = map g opts.
Proof.
  intros Hall. revert i st.
  induction Hall as [|x l Hx _ IH]; intros i st; cbn.
  - by intros [= <-].
  - destruct (f x) as [x'|] eqn:Hfx; cbn; [| done].
    destruct (result_str x') as [r|]; cbn; [| done].
    destruct (startswith r "OK").
    + destruct (if bool_decide (i ≠ 0%nat) then OR_describe x' r else Ok r);
        cbn; [| done].
      intros [= <-]. cbn. by rewrite (Hx x' eq_refl).
    + destruct (OR_loop f (S i) l) as [st0|] eqn:Hl; cbn; [| done].
      intros [= <-]. cbn. by rewrite (Hx x' eq_refl), (IH _ _ Hl).
Qed.

Lemma AND_loop_frame {B : Type} (g : check → B) (i : nat) (opts : list check)
    (st : loop_state) :
  Forall (λ x, ∀ x', f x = Ok x' → g x' = g x) opts →
  AND_loop f i opts = Ok st → map g (loop_opts st) = map g opts.
Proof.
  intros Hall. revert i st.
  induction Hall as [|x l Hx _ IH]; intros i st; cbn.
  - by intros [= <-].
  - destruct (AND_loop f (S i) l) as [st0|] eqn:Hl; cbn; [| done].
    destruct (loop_end st0) as [r0|].
    + intros [= <-]. cbn. by rewrite (IH _ _ Hl).
    + destruct (f x) as [x'|] eqn:Hfx; cbn; [| done].
      destruct (bool_decide (i = 0%nat)).
      * intros [= <-]. cbn. by rewrite (Hx x' eq_refl), (IH _ _ Hl).
      * destruct (result_str x') as [r|]; cbn; [| done].
        destruct (startswith r "OK"); cbn.
        -- intros [= <-]. cbn. by rewrite (Hx x' eq_refl), (IH _ _ Hl).
        -- destruct (AND_describe x' r); cbn; [| done].
           intros [= <-]. cbn. by rewrite (Hx x' eq_refl), (IH _ _ Hl).
Qed.

End LoopFacts.

Lemma VersionCheck_check_idem (v v' : VersionCheck) :
  VersionCheck_check v = Ok v' → VersionCheck_check v' = Ok v'.
Proof.
  destruct v as [e d rs]. unfold VersionCheck_check. cbn.
  destruct (ver_item d 0) as [v0|] eqn:H0; cbn; [| done].
  destruct (e.1 <? v0) eqn:H1; [intros [= <-]; cbn; by rewrite H0; cbn; rewrite H1 |].
  destruct (v0 <? e.1) eqn:H2;
    [intros [= <-]; cbn; rewrite H0; cbn; by rewrite H1, H2 |].
  destruct (ver_item d 1) as [v1|] eqn:H3; cbn; [| done].
  destruct (e.2 <=? v1) eqn:H4; intros [= <-]; cbn;
    rewrite H0; cbn; rewrite H1, H2, H3; cbn; by rewrite H4.
Qed.

Lemma do_check_idem (c : check) :
  ∀ c', do_check c = Ok c' → do_check c' = Ok c'.
Proof.
  induction c as [o|o|v|res opts IH|res opts IH] using check_induction; intros c'.
  - intros [= <-]. by destruct o.
  - intros [= <-]. by destruct o.
  - cbn. destruct (VersionCheck_check v) as [v'|] eqn:Hv; cbn; [| done].
    intros [= <-]. cbn. by rewrite (VersionCheck_check_idem v v' Hv).
  - rewrite do_check_OR.
    destruct (OR_loop do_check 0 opts) as [st|] eqn:Hst; cbn; [| done].
    pose proof (OR_loop_idem do_check 0 opts st IH Hst) as Hagain.
    destruct (loop_end st) as [r|] eqn:He.
    + intros [= <-]. rewrite do_check_OR, Hagain. cbn. by rewrite He.
    + destruct (getitem (loop_opts st) 0) as [c0|] eqn:Hg; cbn; [| done].
      intros [= <-]. rewrite do_check_OR, Hagain. cbn. rewrite He, Hg. done.
  - rewrite do_check_AND.
    destruct (AND_loop do_check 0 opts) as [st|] eqn:Hst; cbn; [| done].
    pose proof (AND_loop_idem do_check 0 opts st IH Hst) as Hagain.
    destruct (loop_end st) as [r|] eqn:He.
    + intros [= <-]. rewrite do_check_AND, Hagain. cbn. by rewrite He.
    + intros [= <-]. rewrite do_check_AND, Hagain. cbn. by rewrite He.
Qed.

Lemma do_check_frame (c : check) :
  ∀ c', do_check c = Ok c' → forget_results c' = forget_results c.
Proof.
  induction c as [o|o|v|res opts IH|res opts IH] using check_induction; intros c'.
  - by intros [= <-].
  - by intros [= <-].
  - cbn. unfold VersionCheck_check.
    destruct (ver_item (ver v) 0) as [v0|]; cbn; [| done].
    destruct (_ <? v0); cbn; [by intros [= <-] |].
    destruct (v0 <? _); cbn; [by intros [= <-] |].
    destruct (ver_item (ver v) 1) as [v1|]; cbn; [| done].
    destruct (_ <=? v1); cbn; by intros [= <-].
  - rewrite do_check_OR.
    destruct (OR_loop do_check 0 opts) as [st|] eqn:Hst; cbn; [| done].
    pose proof (OR_loop_frame do_check forget_results 0 opts st IH Hst) as Hsame.
    destruct (loop_end st) as [r|].
    + intros [= <-]. cbn. by rewrite Hsame.
    + destruct (getitem (loop_opts st) 0); cbn; [| done].
      intros [= <-]. cbn. by rewrite Hsame.
  - rewrite do_check_AND.
    destruct (AND_loop do_check 0 opts) as [st|] eqn:Hst; cbn; [| done].
    pose proof (AND_loop_frame do_check forget_results 0 opts st IH Hst) as Hsame.
    destruct (loop_end st) as [r|]; intros [= <-]; cbn; by rewrite Hsame.
Qed.

Lemma perform_checks_Forall2 (checklist checklist' : list check) :
  perform_checks checklist = Ok checklist' ↔
  Forall2 (λ c c', do_check c = Ok c') checklist checklist'.
Proof.
  revert checklist'. induction checklist as [|c l IH]; intros l'; cbn.
  - split; [by intros [= <-] | by inversion 1].
  - split.
    + destruct (do_check c) as [c'|] eqn:Hc; cbn; [| done].
      destruct (perform_checks l) as [l1|] eqn:Hl; cbn; [| done].
      intros [= <-]. constructor; [done |]. by apply IH.
    + inversion 1 as [|? c' ? l1 Hc Hl]; subst. rewrite Hc. cbn.
      apply IH in Hl. by rewrite Hl.
Qed.

(** X4. Checking a checklist that has been checked changes nothing: every
    entry, with its children, stays as the first run left it. *)
Theorem perform_checks_idempotent (checklist checklist' : list check) :
  perform_checks checklist = Ok checklist' →
  perform_checks checklist' = Ok checklist'.
Proof.
  rewrite !perform_checks_Forall2.
  induction 1 as [|c c' l l' Hc _ IH]; constructor; [| done].
  by apply (do_check_idem c).
Qed.

Lemma perform_checks_idempotent_witness :
  let checked :=
    [OR (Some "FAIL: not found")
        [KconfigCheck (mkOptCheck "CONFIG_BUG" (Some "y") "kspp" "self_protection" None
                         (Some "FAIL: not found"));
         AND (Some "FAIL: version < 5.5")
             [KconfigCheck (mkOptCheck "CONFIG_REFCOUNT_FULL" (Some "y") "kspp"
                              "self_protection" None None);
              Version (mkVersionCheck (5, 5) (Tuple [4; 19]) (Some "FAIL: version < 5.5"))]]] in
  perform_checks checked = Ok checked.
Proof.
  intros checked.
  apply (perform_checks_idempotent
           [OR None [kconfig_check "CONFIG_BUG" (Some "y") None;
                     AND None [kconfig_check "CONFIG_REFCOUNT_FULL" (Some "y") None;
                               version_check (5, 5) [4; 19]]]]).
  reflexivity.
Defined.

(** X5. Evaluation writes [result] attributes and nothing else: the names,
    the expected values, the states, the versions and the shape of every
    entry of the checklist are what they were. *)
Theorem perform_checks_frame (checklist checklist' : list check) :
  perform_checks checklist = Ok checklist' →
  map forget_results checklist' = map forget_results checklist.
Proof.
  rewrite perform_checks_Forall2.
  induction 1 as [|c c' l l' Hc _ IH]; [done |].
  cbn. by rewrite (do_check_frame c c' Hc), IH.
Qed.

Lemma perform_checks_frame_witness :
  ∃ checklist' : list check,
    perform_checks [OR None [kconfig_check "CONFIG_BUG" (Some "y") (Some "y");
                             version_check (5, 5) [4; 19]]] = Ok checklist' ∧
    map forget_results checklist' =
      [OR None [kconfig_check "CONFIG_BUG" (Some "y") (Some "y");
                version_check (5, 5) [4; 19]]].
Proof.
  eexists. split; [reflexivity |].
  apply (perform_checks_frame
           [OR None [kconfig_check "CONFIG_BUG" (Some "y") (Some "y");
                     version_check (5, 5) [4; 19]]]).
  reflexivity.
Defined.

(** ** Outcomes and the Boolean reading of the rules *)

Lemma pass_not_FAIL (r : string) : is_pass r = true → startswith r "FAIL" = false.
Proof. by intros [t ->]%startswith_elim. Qed.

Lemma AND_describe_FAIL (c : check) (r r' : string) :
  AND_describe c r = Ok r' → startswith r' "FAIL" = true.
Proof.
  unfold AND_describe. destruct (_ || _).
  { destruct (name_of c); cbn; [| done]. destruct (expected_of c); cbn; [| done].
    by intros [= <-]. }
  case_bool_decide.
  { destruct (name_of c); cbn; [| done]. by intros [= <-]. }
  destruct (startswith r "FAIL: version") eqn:Hv; cbn; [| done].
  intros [= <-]. by apply startswith_elim in Hv as [t ->].
Qed.

Lemma OptCheck_outcome_verdict (o : OptCheck) :
  is_pass (OptCheck_outcome (expected o) (state o)) = opt_verdict o ∧
  startswith (OptCheck_outcome (expected o) (state o)) "FAIL" = negb (opt_verdict o).
Proof.
  unfold OptCheck_outcome, opt_verdict.
  destruct (expected o) as [e|], (state o) as [s|];
    repeat (case_bool_decide; cbn); try done; congruence.
Qed.

(** What [evaluates] says of a child whose outcome is at hand. *)
Lemma evaluates_elim (x x' : check) (r : string) :
  evaluates x → do_check x = Ok x' → result_of x' = Some r →
  outcome_ok x r ∧ is_pass r = verdict x ∧ startswith r "FAIL" = negb (verdict x).
Proof.
  intros (x'' & r'' & Hx & Hr & H) Hx' Hr'.
  rewrite Hx in Hx'. injection Hx' as <-. rewrite Hr in Hr'. by injection Hr' as <-.
Qed.

Lemma all_failed (opts opts' : list check) :
  Forall2 (λ x x', do_check x = Ok x' ∧ failed x') opts opts' →
  (∀ x, x ∈ opts → evaluates x) → existsb verdict opts = false.
Proof.
  induction 1 as [|x x' l l' [Hx (r & Hr & Hf)] _ IH]; intros Hk; [done |].
  destruct (evaluates_elim x x' r (Hk x ltac:(left)) Hx Hr) as (_ & Hv & _).
  cbn. rewrite <- Hv, Hf. cbn. apply IH. intros y Hy. apply Hk. by right.
Qed.

Lemma all_passed (opts opts' : list check) :
  Forall2 (λ x x', do_check x = Ok x' ∧ passed x') opts opts' →
  (∀ x, x ∈ opts → evaluates x) → forallb verdict opts = true.
Proof.
  induction 1 as [|x x' l l' [Hx (r & Hr & Hf)] _ IH]; intros Hk; [done |].
  destruct (evaluates_elim x x' r (Hk x ltac:(left)) Hx Hr) as (_ & Hv & _).
  cbn. rewrite <- Hv, Hf. cbn. apply IH. intros y Hy. apply Hk. by right.
Qed.

(** Evaluation of an entry that is ready never raises, and its outcome
    tells whether the rule is satisfied. *)
Lemma do_check_sound (c : check) :
  wf c = true → populated c = true → nesting_ok c = true → evaluates c.
Proof.
  induction c as [o|o|v|res opts IH|res opts IH] using check_induction;
    intros Hwf Hpop Hnest.
  - exists (KconfigCheck (OptCheck_check o)), (OptCheck_outcome (expected o) (state o)).
    split; [done |]. split; [done |]. split; [apply OptCheck_outcome_form |].
    apply OptCheck_outcome_verdict.
  - exists (CmdlineCheck (OptCheck_check o)), (OptCheck_outcome (expected o) (state o)).
    split; [done |]. split; [done |]. split; [apply OptCheck_outcome_form |].
    apply OptCheck_outcome_verdict.
  - destruct v as [[M m] d rs]. cbn in Hpop.
    destruct d as [|[|a [|b t]]]; try done.
    unfold evaluates. cbn. unfold VersionCheck_check, version_verdict. cbn.
    destruct (M <? a) eqn:H1;
      [eexists _, _; split; [reflexivity |]; split; [reflexivity |];
       split; [by left | done] |].
    destruct (a <? M) eqn:H2.
    { eexists _, _. split; [reflexivity |]. split; [reflexivity |].
      split; [by right |]. cbn.
      assert ((a =? M) = false) as -> by lia. done. }
    cbn. assert ((a =? M) = true) as -> by lia. cbn.
    destruct (m <=? b);
      (eexists _, _; split; [reflexivity |]; split; [reflexivity |]; split);
      [by left | done | by right | done].
  - cbn in Hwf, Hpop, Hnest.
    apply andb_prop in Hwf as [Hshape Hwfs]. apply andb_prop in Hnest as [Hnot Hnests].
    assert (Hkids : ∀ x, x ∈ opts → evaluates x).
    { intros x Hx. rewrite Forall_forall in IH.
      apply IH; [done | by eapply forallb_elem ..]. }
    assert (Hall : Forall (λ x, ∃ x' r, do_check x = Ok x' ∧ result_of x' = Some r) opts).
    { apply Forall_forall. intros x Hx.
      destruct (Hkids x Hx) as (x' & r & ? & ? & _). eauto. }
    destruct (first_pass do_check opts Hall)
      as [(opts' & Hnone) | (pre & pre' & post & c & c' & r & -> & Hpre & Hc & Hr & Hp)].
    + pose proof (all_failed opts opts' Hnone Hkids) as Hv.
      destruct opts as [|c0 rest]; [done |].
      inversion Hnone as [|? c0' ? rest' [H0 (r0 & Hr0 & Hf0)] Hrest]; subst.
      exists (OR (Some r0) (c0' :: rest')), r0.
      rewrite do_check_OR, (OR_loop_none do_check 0 (c0 :: rest) (c0' :: rest') Hnone).
      cbn [mbind Res_bind loop_end loop_opts getitem lookup list_lookup result_of].
      rewrite Hr0. split; [done |]. split; [done |].
      destruct (evaluates_elim c0 c0' r0 (Hkids c0 ltac:(left)) H0 Hr0)
        as (Hout & Hv0 & Hfail).
      cbn [verdict]. rewrite Hv. cbn [existsb] in Hv.
      apply orb_false_elim in Hv as [Hv0' _]. rewrite Hv0' in Hfail.
      split; [| by rewrite Hf0].
      right.
      destruct c0 as [o|o| | |]; try (by destruct rest); cbn in Hout;
        (destruct Hout as [Hs | ?]; [| done]);
        apply simple_pass_is_pass in Hs; congruence.
    + unfold evaluates.
      rewrite (OR_check_at res pre pre' post c c' r Hpre Hc Hr Hp).
      destruct (evaluates_elim c c' r
                  (Hkids c ltac:(apply elem_of_app; right; left)) Hc Hr)
        as (Hout & Hvc & Hfc).
      assert (Hv : verdict (OR res (pre ++ c :: post)) = true).
      { cbn [verdict]. rewrite existsb_app. cbn [existsb].
        by rewrite <- Hvc, Hp, orb_true_r. }
      rewrite Hv.
      destruct pre as [|p0 pre1].
      * cbn. exists (OR (Some r) (pre' ++ c' :: post)), r.
        split; [done |]. split; [done |]. split; [by left |].
        split; [done |]. by apply pass_not_FAIL.
      * assert (Hwfc : wf c = true)
          by (eapply forallb_elem; [exact Hwfs | apply elem_of_app; right; left]).
        assert (Hnc : is_OR c = false).
        { apply negb_true_iff.
          apply (forallb_elem _ _ c Hnot). cbn. apply elem_of_app; right; left. }
        destruct (OR_describe_ok c c' r Hwfc Hc Hr Hout Hnc Hp) as (r' & -> & Hp').
        cbn. exists (OR (Some r') (pre' ++ c' :: post)), r'.
        split; [done |]. split; [done |]. split; [by left |].
        split; [done |]. by apply pass_not_FAIL.
  - cbn in Hwf, Hpop, Hnest.
    apply andb_prop in Hwf as [Hshape Hwfs]. apply andb_prop in Hnest as [Hnot Hnests].
    assert (Hkids : ∀ x, x ∈ opts → evaluates x).
    { intros x Hx. rewrite Forall_forall in IH.
      apply IH; [done | by eapply forallb_elem ..]. }
    destruct opts as [|c0 rest]; [done |].
    assert (Hall : Forall (λ x, ∃ x' r, do_check x = Ok x' ∧ result_of x' = Some r) rest).
    { apply Forall_forall. intros x Hx.
      destruct (Hkids x ltac:(by right)) as (x' & r & ? & ? & _). eauto. }
    destruct (last_fail do_check rest Hall)
      as [(rest' & Hpass) | (pre & post & post' & c & c' & r & -> & Hpost & Hc & Hr & Hp)].
    + destruct (Hkids c0 ltac:(left)) as (c0' & r0 & H0 & Hr0 & Hout & Hv0 & Hf0).
      exists (AND (Some r0) (c0' :: rest')), r0.
      rewrite do_check_AND, (AND_loop_first do_check c0 c0' rest rest' Hpass H0).
      cbn [mbind Res_bind loop_end loop_opts result_of verdict forallb].
      rewrite (all_passed rest rest' Hpass) by (intros x Hx; apply Hkids; by right).
      rewrite andb_true_r, Hr0.
      split; [done |]. split; [done |]. split; [| done].
      destruct c0 as [o|o| | |]; try (by destruct rest); cbn in Hout;
        (destruct Hout as [? | Hf]; [by left |]);
        right; by apply simple_fail_is_pass.
    + unfold evaluates.
      change (c0 :: pre ++ c :: post) with ((c0 :: pre) ++ c :: post).
      rewrite (AND_check_at res (c0 :: pre) post post' c c' r
                 ltac:(discriminate) Hpost Hc Hr Hp).
      destruct (evaluates_elim c c' r
                  (Hkids c ltac:(right; apply elem_of_app; right; left)) Hc Hr)
        as (Hout & Hvc & Hfc).
      assert (Hv : verdict (AND res ((c0 :: pre) ++ c :: post)) = false).
      { cbn [verdict]. rewrite forallb_app. cbn [forallb].
        by rewrite <- Hvc, Hp, andb_false_r. }
      rewrite Hv.
      assert (Hwfc : wf c = true)
        by (eapply forallb_elem; [exact Hwfs | right; apply elem_of_app; right; left]).
      assert (Hnc : is_AND c = false).
      { apply negb_true_iff.
        apply (forallb_elem _ _ c Hnot). cbn. apply elem_of_app; right; left. }
      destruct (AND_describe_ok c c' r Hwfc Hc Hr Hout Hnc Hp) as (r' & Hd & Hp').
      rewrite Hd.
      cbn. exists (AND (Some r') ((c0 :: pre) ++ c' :: post')), r'.
      split; [done |]. split; [done |]. split; [by right |].
      split; [done |]. by apply (AND_describe_FAIL c' r r').
Qed.


(** X6. The outcome of a rule is its Boolean reading. On an entry built by
    the constructors, populated and nested as the catalog nests, evaluation
    never raises; the outcome starts with [OK] iff the rule is satisfied (an
    [OR] by one of its children, an [AND] by all of them, a simple check by
    its state, a version check by the kernel version) and with [FAIL] iff
    it is not. *)
Theorem do_check_verdict (c : check) :
  wf c = true → populated c = true → nesting_ok c = true →
  ∃ (c' : check) (r : string),
    do_check c = Ok c' ∧ result_of c' = Some r ∧
    is_pass r = verdict c ∧ startswith r "FAIL" = negb (verdict c).
Proof.
  intros Hwf Hpop Hnest.
  destruct (do_check_sound c Hwf Hpop Hnest) as (c' & r & Hc & Hr & _ & Hv & Hf).
  by exists c', r.
Qed.

Lemma do_check_verdict_witness :
  let rule :=
    OR None [cmdline_check "rodata" (Some "1") None;
             AND None [kconfig_check "CONFIG_RODATA_DEFAULT" (Some "y") (Some "y");
                       cmdline_check "rodata" (Some "is not set") None]] in
  verdict rule = true ∧
  ∃ (c' : check) (r : string),
    do_check rule = Ok c' ∧ result_of c' = Some r ∧
    is_pass r = verdict rule ∧ startswith r "FAIL" = negb (verdict rule).
Proof.
  intros rule. split; [reflexivity |].
  apply (do_check_verdict rule); reflexivity.
Defined.

End Evaluation.

(** ** The report *)

Module Reporting.
Import Checks Spec Semantics Report Strings CompoundChecks Evaluation.


Lemma forallb_map_Forall {A : Type} (g : A → bool) (h : A → A) (l : list A) :
  Forall (λ x, g (h x) = g x) l → forallb g (map h l) = forallb g l.
Proof. induction 1 as [|x l Hx _ IH]; [done |]. cbn. by rewrite Hx, IH. Qed.

Lemma concat_map_Forall {A B : Type} (g : A → list B) (h : A → A) (l : list A) :
  Forall (λ x, g (h x) = g x) l → concat (map g (map h l)) = concat (map g l).
Proof. induction 1 as [|x l Hx _ IH]; [done |]. cbn. by rewrite Hx, IH. Qed.


Lemma simple_names_forget (c : check) :
  simple_names (forget_results c) = simple_names c.
Proof.
  induction c as [o|o|v|res opts IH|res opts IH] using check_induction; try done; cbn.
  - by apply concat_map_Forall.
  - by apply concat_map_Forall.
Qed.


Lemma do_check_same_names (c c' : check) :
  do_check c = Ok c' → simple_names c' = simple_names c.
Proof.
  intros Hc.
  by rewrite <- (simple_names_forget c'), (do_check_frame c c' Hc), simple_names_forget.
Qed.













(** ** Options without a check *)

Lemma append_name_spec (o : check) (known : list string) :
  is_complex o = false → append_name o known = Ok (known ++ simple_names o).
Proof.
  destruct o as [o|o|v|res opts|res opts]; try done; intros _; cbn.
  by rewrite app_nil_r.
Qed.

Lemma known_o3_spec (o2 : check) (n : string) (opts : list check) (known : list string) :
  name_of o2 = Ok n →
  known_o3 o2 opts known =
    if forallb (λ o3, negb (is_complex o3)) opts
    then Ok (known ++ concat (map simple_names opts))
    else Raise (AssertionError ("unexpected ComplexOptCheck inside " +:+ n)).
Proof.
  intros Hn. revert known.
  induction opts as [|o3 rest IH]; intros known; cbn; [by rewrite app_nil_r |].
  destruct (is_complex o3) eqn:Hc; cbn; [by rewrite Hn |].
  rewrite (append_name_spec o3 known Hc). cbn. rewrite IH.
  destruct (forallb _ rest); [| done]. by rewrite app_assoc.
Qed.

(** The second level of the walk: it collects the names, or stops on the
    assertion. *)
Lemma known_o2_spec (opts : list check) (known : list string) :
  Forall (λ o, wf o = true) opts →
  if forallb (λ o2, forallb (λ o3, negb (is_complex o3)) (opts_of o2)) opts
  then known_o2 opts known = Ok (known ++ concat (map simple_names opts))
  else ∃ msg : string, known_o2 opts known = Raise (AssertionError msg).
Proof.
  intros Hwf. revert known.
  induction Hwf as [|o2 rest Hwf2 _ IH]; intros known; cbn; [by rewrite app_nil_r |].
  destruct (is_complex o2) eqn:Hc; cbn.
  - assert (Hty : type_of o2 ≠ version) by (by destruct o2).
    destruct (wf_name_of o2 Hwf2 Hty) as (n & _ & Hn & _).
    rewrite (known_o3_spec o2 n _ known Hn).
    assert (Hnames : simple_names o2 = concat (map simple_names (opts_of o2)))
      by (by destruct o2).
    destruct (forallb _ (opts_of o2)); cbn; [| by eexists].
    specialize (IH (known ++ concat (map simple_names (opts_of o2)))).
    destruct (forallb _ rest); [| done].
    by rewrite IH, Hnames, app_assoc.
  - rewrite (append_name_spec o2 known Hc). cbn.
    assert (Hopts : opts_of o2 = []) by (by destruct o2).
    rewrite Hopts. cbn.
    specialize (IH (known ++ simple_names o2)).
    destruct (forallb _ rest); [| done]. by rewrite IH, app_assoc.
Qed.

Lemma known_o2_walkable (opts : list check) (known : list string) :
  forallb (λ o2, forallb (λ o3, negb (is_complex o3)) (opts_of o2)) opts = true →
  known_o2 opts known = Ok (known ++ concat (map simple_names opts)).
Proof.
  revert known.
  induction opts as [|o2 rest IH]; intros known; cbn; [by rewrite app_nil_r |].
  intros [H2 Hrest]%andb_prop.
  destruct (is_complex o2) eqn:Hc; cbn.
  - assert (Hnames : simple_names o2 = concat (map simple_names (opts_of o2)))
      by (by destruct o2).
    assert (H3 : known_o3 o2 (opts_of o2) known
                 = Ok (known ++ concat (map simple_names (opts_of o2)))).
    { clear -H2. revert known.
      induction (opts_of o2) as [|o3 tl IH3]; intros known; cbn;
        [by rewrite app_nil_r |].
      cbn in H2. apply andb_prop in H2 as [Hc3 Htl]. rewrite Hc3. cbn.
      apply negb_true_iff in Hc3.
      rewrite (append_name_spec o3 known Hc3). cbn.
      by rewrite (IH3 Htl), app_assoc. }
    rewrite H3. cbn. by rewrite (IH _ Hrest), Hnames, app_assoc.
  - rewrite (append_name_spec o2 known Hc). cbn.
    by rewrite (IH _ Hrest), app_assoc.
Qed.

Lemma known_o1_walkable (checklist : list check) (known : list string) :
  Forall (λ c, walkable c = true) checklist →
  known_o1 checklist known = Ok (known ++ concat (map simple_names checklist)).
Proof.
  intros Hall. revert known.
  induction Hall as [|o1 rest H1 _ IH]; intros known; cbn; [by rewrite app_nil_r |].
  unfold walkable in H1. apply andb_prop in H1 as [Hty Hdeep].
  destruct (is_complex o1) eqn:Hc; cbn.
  - rewrite (known_o2_walkable _ known Hdeep). cbn.
    assert (Hnames : simple_names o1 = concat (map simple_names (opts_of o1)))
      by (by destruct o1).
    by rewrite IH, Hnames, app_assoc.
  - destruct o1 as [o|o|v|res opts|res opts]; try done; cbn;
      by rewrite IH, <- app_assoc.
Qed.

Lemma known_o1_app (a b : list check) (known : list string) :
  known_o1 (a ++ b) known = (known' ← known_o1 a known; known_o1 b known').
Proof.
  revert known. induction a as [|o1 a IH]; intros known; [done |].
  cbn [app known_o1].
  destruct (if negb (is_complex o1) then _ else _) as [k|]; cbn; [apply IH | done].
Qed.

(** X9. The report of the options without a check. On a checklist that the
    walk can go through (no version check at the top level, no complex
    check below the second level), the report never raises; it has a line
    for an option of the file iff no simple check of the checklist, at any
    depth, has the name of that option. *)
Theorem print_unknown_options_spec (checklist : list check)
    (items : list (string * string)) :
  Forall (λ c, walkable c = true) checklist →
  ∃ lines : list string,
    print_unknown_options checklist items = Ok lines ∧
    ∀ line : string,
      line ∈ lines ↔
      ∃ option value : string,
        (option, value) ∈ items ∧
        (option ∉ concat (map simple_names checklist)) ∧
        line = "[?] No check for option " +:+ option +:+ " (" +:+ value +:+ ")".
Proof.
  intros Hwalk. unfold print_unknown_options.
  rewrite (known_o1_walkable checklist [] Hwalk). cbn. eexists. split; [done |].
  intros line. rewrite list_elem_of_omap. split.
  - intros ([option value] & Hin & Hline).
    case_bool_decide; [| done]. injection Hline as <-. by exists option, value.
  - intros (option & value & Hin & Hnot & ->). exists (option, value).
    split; [done |]. by rewrite bool_decide_eq_true_2.
Qed.

Lemma print_unknown_options_spec_witness :
  ∃ lines : list string,
    print_unknown_options
      [kconfig_check "CONFIG_BUG" (Some "y") None;
       OR None [kconfig_check "CONFIG_STRICT_KERNEL_RWX" (Some "y") None;
                AND None [kconfig_check "CONFIG_DEBUG_RODATA" (Some "y") None;
                          version_check (4, 11) []]]]
      [("CONFIG_DEBUG_RODATA", "y"); ("CONFIG_SLUB", "y")] = Ok lines ∧
    ∀ line : string,
      line ∈ lines ↔
      ∃ option value : string,
        (option, value) ∈ [("CONFIG_DEBUG_RODATA", "y"); ("CONFIG_SLUB", "y")] ∧
        (option ∉ ["CONFIG_BUG"; "CONFIG_STRICT_KERNEL_RWX"; "CONFIG_DEBUG_RODATA"]) ∧
        line = "[?] No check for option " +:+ option +:+ " (" +:+ value +:+ ")".
Proof.
  apply (print_unknown_options_spec
           [kconfig_check "CONFIG_BUG" (Some "y") None;
            OR None [kconfig_check "CONFIG_STRICT_KERNEL_RWX" (Some "y") None;
                     AND None [kconfig_check "CONFIG_DEBUG_RODATA" (Some "y") None;
                               version_check (4, 11) []]]]).
  by repeat constructor.
Defined.

(** X10. A complex check below the second level of an entry stops the
    report of the options without a check on a failed assertion, although
    population and evaluation go through such an entry. *)
Theorem print_unknown_options_too_deep (pre post : list check) (c : check)
    (items : list (string * string)) :
  Forall (λ c, walkable c = true) pre →
  wf c = true → too_deep c →
  ∃ msg : string,
    print_unknown_options (pre ++ c :: post) items = Raise (AssertionError msg).
Proof.
  intros Hpre Hwf (o2 & o3 & H2 & H3 & Hc3).
  unfold print_unknown_options.
  rewrite known_o1_app, (known_o1_walkable pre [] Hpre). cbn.
  assert (Hc : is_complex c = true)
    by (destruct c; try done; by apply elem_of_nil in H2).
  rewrite Hc. cbn.
  assert (Hwfs : Forall (λ o, wf o = true) (opts_of c)).
  { apply Forall_forall. intros x Hx.
    destruct c as [| | |res opts|res opts]; try done; cbn in Hx.
    - by apply (wf_child res opts x (or_introl Hwf)).
    - by apply (wf_child res opts x (or_intror Hwf)). }
  pose proof (known_o2_spec (opts_of c) (concat (map simple_names pre)) Hwfs) as Hwalk.
  destruct (forallb _ (opts_of c)) eqn:Hdeep.
  - pose proof (forallb_elem _ _ o2 Hdeep H2) as Hd2. cbn in Hd2.
    pose proof (forallb_elem _ _ o3 Hd2 H3) as Hd3. cbn in Hd3.
    by rewrite Hc3 in Hd3.
  - destruct Hwalk as [msg ->]. by exists msg.
Qed.

Lemma print_unknown_options_too_deep_witness :
  ∃ msg : string,
    print_unknown_options
      [kconfig_check "CONFIG_BUG" (Some "y") None;
       OR None [kconfig_check "CONFIG_A" (Some "y") None;
                AND None [kconfig_check "CONFIG_B" (Some "y") None;
                          OR None [kconfig_check "CONFIG_C" (Some "y") None;
                                   kconfig_check "CONFIG_D" (Some "y") None]]]]
      [("CONFIG_SLUB", "y")] = Raise (AssertionError msg).
Proof.
  apply (print_unknown_options_too_deep
           [kconfig_check "CONFIG_BUG" (Some "y") None] []
           (OR None [kconfig_check "CONFIG_A" (Some "y") None;
                     AND None [kconfig_check "CONFIG_B" (Some "y") None;
                               OR None [kconfig_check "CONFIG_C" (Some "y") None;
                                        kconfig_check "CONFIG_D" (Some "y") None]]])).
  - by repeat constructor.
  - reflexivity.
  - exists (AND None [kconfig_check "CONFIG_B" (Some "y") None;
                      OR None [kconfig_check "CONFIG_C" (Some "y") None;
                               kconfig_check "CONFIG_D" (Some "y") None]]),
           (OR None [kconfig_check "CONFIG_C" (Some "y") None;
                     kconfig_check "CONFIG_D" (Some "y") None]).
    split; [| split; [| reflexivity]].
    + apply list_elem_of_further, list_elem_of_here.
    + apply list_elem_of_further, list_elem_of_here.
Defined.

(** ** The records of the mode [json] *)







End Reporting.

(** ** The rule catalog, for every architecture *)

Module CatalogFacts.
Import Checks Parsers Spec Semantics Report Catalog.

Lemma arch_cases (arch : string) :
  arch = "X86_64" ∨ arch = "X86_32" ∨ arch = "ARM64" ∨ arch = "ARM" ∨
  (arch ≠ "X86_64" ∧ arch ≠ "X86_32" ∧ arch ≠ "ARM64" ∧ arch ≠ "ARM").
Proof.
  destruct (decide (arch = "X86_64")); [by left |].
  destruct (decide (arch = "X86_32")); [by right; left |].
  destruct (decide (arch = "ARM64")); [by right; right; left |].
  destruct (decide (arch = "ARM")); [by right; right; right; left |].
  by right; right; right; right.
Qed.

Lemma snoc_all_spec (l cs : list check) : snoc_all l cs = l ++ cs.
Proof.
  unfold snoc_all. revert l.
  induction cs as [|c cs IH]; intros l; cbn; [by rewrite app_nil_r |].
  by rewrite IH, <- app_assoc.
Qed.

(** The tests on an architecture name that is not one of the four. *)
Ltac other_arch :=
  repeat match goal with
  | |- context [bool_decide (?a = ?s)] =>
      rewrite (bool_decide_eq_false_2 (a = s)) by done
  | |- context [bool_decide (?a ∈ ?l)] =>
      rewrite (bool_decide_eq_false_2 (a ∈ l))
        by (rewrite ?elem_of_cons, elem_of_nil; tauto)
  end.

(** For a name that is not one of the four, the catalog is that of the
    empty name: the rules that do not depend on the architecture. *)
Lemma add_kconfig_checks_other (l : list check) (arch : string) :
  arch ≠ "X86_64" → arch ≠ "X86_32" → arch ≠ "ARM64" → arch ≠ "ARM" →
  add_kconfig_checks l arch = add_kconfig_checks l EmptyString.
Proof.
  intros H1 H2 H3 H4. unfold add_kconfig_checks at 1.
  other_arch. vm_compute. reflexivity.
Qed.

Lemma add_cmdline_checks_other (l : list check) (arch : string) :
  arch ≠ "X86_64" → arch ≠ "X86_32" → arch ≠ "ARM64" → arch ≠ "ARM" →
  add_cmdline_checks l arch = add_cmdline_checks l EmptyString.
Proof.
  intros H1 H2 H3 H4. unfold add_cmdline_checks at 1.
  other_arch. vm_compute. reflexivity.
Qed.

(** The catalog of a given name, by evaluation. *)
Ltac catalog_at f A :=
  let t := eval vm_compute in (f (@nil check) A) in
  match t with
  | Ok ?L =>
      exists L; split; [| split];
      [ rewrite <- snoc_all_spec; vm_compute; reflexivity
      | vm_compute; reflexivity
      | vm_compute; reflexivity ]
  end.

Lemma kconfig_catalog (l : list check) (arch : string) :
  ∃ l0 : list check,
    add_kconfig_checks l arch = Ok (l ++ l0) ∧
    add_kconfig_checks [] arch = Ok l0 ∧
    forallb catalog_entry l0 = true.
Proof.
  destruct (arch_cases arch) as [-> | [-> | [-> | [-> | (H1 & H2 & H3 & H4)]]]].
  - catalog_at add_kconfig_checks "X86_64".
  - catalog_at add_kconfig_checks "X86_32".
  - catalog_at add_kconfig_checks "ARM64".
  - catalog_at add_kconfig_checks "ARM".
  - rewrite !(add_kconfig_checks_other _ arch) by done.
    catalog_at add_kconfig_checks EmptyString.
Qed.

Lemma cmdline_catalog (l : list check) (arch : string) :
  ∃ l0 : list check,
    add_cmdline_checks l arch = Ok (l ++ l0) ∧
    add_cmdline_checks [] arch = Ok l0 ∧
    forallb catalog_entry l0 = true.
Proof.
  destruct (arch_cases arch) as [-> | [-> | [-> | [-> | (H1 & H2 & H3 & H4)]]]].
  - catalog_at add_cmdline_checks "X86_64".
  - catalog_at add_cmdline_checks "X86_32".
  - catalog_at add_cmdline_checks "ARM64".
  - catalog_at add_cmdline_checks "ARM".
  - rewrite !(add_cmdline_checks_other _ arch) by done.
    catalog_at add_cmdline_checks EmptyString.
Qed.

Lemma catalog_entry_elim (c : check) :
  catalog_entry c = true → wf c = true ∧ nesting_ok c = true ∧ walkable c = true.
Proof. unfold catalog_entry. by intros [[? ?]%andb_prop ?]%andb_prop. Qed.

(** X11. The catalog of the build options, for every architecture name,
    also one that is not supported: the function never raises, it keeps the
    entries that the list has and appends its rules, the same whatever the
    list holds; every rule satisfies the assertions of the constructors, is
    nested as evaluation expects (no [OR] below an [OR] or [AND] below an
    [AND] after the first child) and can be walked by the report of the
    options without a check. *)
Theorem add_kconfig_checks_appends (l : list check) (arch : string) :
  ∃ l0 : list check,
    add_kconfig_checks l arch = Ok (l ++ l0) ∧
    add_kconfig_checks [] arch = Ok l0 ∧
    Forall (λ c, wf c = true ∧ nesting_ok c = true ∧ walkable c = true) l0.
Proof.
  destruct (kconfig_catalog l arch) as (l0 & Hl & H0 & Hall).
  exists l0. split; [done |]. split; [done |].
  apply Forall_forall. intros c Hc. apply catalog_entry_elim.
  rewrite forallb_forall in Hall. by apply Hall, list_elem_of_In.
Qed.

(** X12. The catalog of the boot parameters, for every architecture name:
    the function never raises, keeps the entries that the list has and
    appends its rules, the same whatever the list holds; every rule
    satisfies the assertions of the constructors, is nested as evaluation
    expects and can be walked by the report. *)
Theorem add_cmdline_checks_appends (l : list check) (arch : string) :
  ∃ l0 : list check,
    add_cmdline_checks l arch = Ok (l ++ l0) ∧
    add_cmdline_checks [] arch = Ok l0 ∧
    Forall (λ c, wf c = true ∧ nesting_ok c = true ∧ walkable c = true) l0.
Proof.
  destruct (cmdline_catalog l arch) as (l0 & Hl & H0 & Hall).
  exists l0. split; [done |]. split; [done |].
  apply Forall_forall. intros c Hc. apply catalog_entry_elim.
  rewrite forallb_forall in Hall. by apply Hall, list_elem_of_In.
Qed.

End CatalogFacts.

(** ** A whole run *)

Module Pipeline.
Import Checks Parsers Spec Semantics Report Catalog VersionDetect Driver.
Import Strings CompoundChecks Evaluation Reporting CatalogFacts.

Lemma forallb_map_eq {A : Type} (g g' : A → bool) (h : A → A) (l : list A) :
  (∀ x, g (h x) = g' x) → forallb g (map h l) = forallb g' l.
Proof. intros Hg. induction l as [|x l IH]; [done |]. cbn. by rewrite Hg, IH. Qed.

(** ** Population keeps what evaluation and the report need *)

Section Shape.
Variable h : check → check.
Hypothesis h_type : ∀ c, type_of (h c) = type_of c.
Hypothesis h_opts : ∀ c, opts_of (h c) = map h (opts_of c).



End Shape.






Lemma is_opt_check_bind (d : data) (t : opt_type) (c : check) :
  is_opt_check (bind_data d t c) = is_opt_check c.
Proof. destruct c; cbn; try done; by case_bool_decide. Qed.

Lemma wf_bind (d : data) (t : opt_type) (c : check) :
  wf (bind_data d t c) = wf c.
Proof.
  induction c as [o|o|v|res opts IH|res opts IH] using check_induction; cbn;
    try (by case_bool_decide).
  all: f_equal; [| by apply forallb_map_Forall].
  all: destruct opts as [|c0 [|c1 rest]]; cbn; try done; apply is_opt_check_bind.
Qed.

Lemma nesting_ok_bind (d : data) (t : opt_type) (c : check) :
  nesting_ok (bind_data d t c) = nesting_ok c.
Proof.
  induction c as [o|o|v|res opts IH|res opts IH] using check_induction; cbn;
    try (by case_bool_decide).
  all: f_equal; [| by apply forallb_map_Forall].
  all: destruct opts as [|c0 rest]; [done |]; cbn.
  all: apply forallb_map_eq; intros x; destruct x; cbn; try done; by case_bool_decide.
Qed.

Lemma populated_bind_version (a b : Z) (t : list Z) (c : check) :
  populated (bind_data (Tuple (a :: b :: t)) version c) = true.
Proof.
  induction c as [o|o|v|res opts IH|res opts IH] using check_induction; cbn; try done.
  all: induction IH as [|x l Hx _ IHl]; [done |]; cbn; by rewrite Hx, IHl.
Qed.









End Pipeline.

(** ** The data that a rule depends on *)

Module Dependence.
Import Checks Parsers Spec Semantics Report Catalog.
Import Strings CompoundChecks Evaluation Reporting CatalogFacts Pipeline.

(** X15. Normalization of a boot parameter value is idempotent: a value
    that has been normalized is left as it is. *)
Theorem normalize_cmdline_options_idempotent (option value : string) :
  normalize_cmdline_options option (normalize_cmdline_options option value)
  = normalize_cmdline_options option value.
Proof.
  unfold normalize_cmdline_options.
  destruct (bool_decide (option = "pti")); [done |].
  destruct (bool_decide (option = "debugfs")); [done |].
  destruct (bool_decide (value ∈ truthy_values)) eqn:Ht; [by vm_compute |].
  destruct (bool_decide (value ∈ falsy_values)) eqn:Hf; [by vm_compute |].
  by rewrite Ht, Hf.
Qed.

(** X16. The catalog of the boot parameters agrees with the parser, for
    every architecture name: every boot parameter check of every rule, at
    any depth, expects a value that normalization leaves as it is. No rule
    expects a spelling, [on] say, that the parser turns into another. *)
Theorem add_cmdline_checks_normalized (arch : string) :
  ∃ l0 : list check,
    add_cmdline_checks [] arch = Ok l0 ∧
    Forall (λ c, expects_normalized c = true) l0.
Proof.
  assert (Hat : ∀ A : string,
            (∃ l0, add_cmdline_checks [] A = Ok l0 ∧ forallb expects_normalized l0 = true) →
            ∃ l0, add_cmdline_checks [] A = Ok l0 ∧
                  Forall (λ c, expects_normalized c = true) l0).
  { intros A (l0 & Hl & Hall). exists l0. split; [done |].
    apply Forall_forall. intros c Hc. rewrite forallb_forall in Hall.
    by apply Hall, list_elem_of_In. }
  destruct (arch_cases arch) as [-> | [-> | [-> | [-> | (H1 & H2 & H3 & H4)]]]].
  - apply Hat. eexists. split; vm_compute; reflexivity.
  - apply Hat. eexists. split; vm_compute; reflexivity.
  - apply Hat. eexists. split; vm_compute; reflexivity.
  - apply Hat. eexists. split; vm_compute; reflexivity.
  - rewrite (add_cmdline_checks_other [] arch) by done.
    apply Hat. eexists. split; vm_compute; reflexivity.
Qed.

Lemma existsb_map_impl {A : Type} (g : A → bool) (h h' : A → A) (l : list A) :
  Forall (λ x, g (h x) = true → g (h' x) = true) l →
  existsb g (map h l) = true → existsb g (map h' l) = true.
Proof.
  induction 1 as [|x l Hx _ IH]; [done |]. cbn.
  intros [H | H]%orb_prop; [by rewrite (Hx H) | by rewrite (IH H), orb_true_r].
Qed.

Lemma forallb_map_impl {A : Type} (g : A → bool) (h h' : A → A) (l : list A) :
  Forall (λ x, g (h x) = true → g (h' x) = true) l →
  forallb g (map h l) = true → forallb g (map h' l) = true.
Proof.
  induction 1 as [|x l Hx _ IH]; [done |]. cbn.
  intros [H Hl]%andb_prop. by rewrite (Hx H), (IH Hl).
Qed.

(** A rule that is satisfied on a kernel version is satisfied on every
    later one. *)
Lemma verdict_version_mono (c : check) (a b a' b' : Z) :
  lex_ge (a', b') (a, b) →
  verdict (bind_data (Tuple [a; b]) version c) = true →
  verdict (bind_data (Tuple [a'; b']) version c) = true.
Proof.
  intros Hge.
  induction c as [o|o|v|res opts IH|res opts IH] using check_induction; cbn;
    try done.
  - destruct v as [[M m] d rs]. rewrite !bool_decide_eq_true_2 by done.
    unfold version_verdict. cbn. unfold lex_ge in Hge. cbn in Hge.
    rewrite !orb_true_iff, !andb_true_iff, !Z.ltb_lt, !Z.eqb_eq, !Z.leb_le. lia.
  - by apply existsb_map_impl.
  - by apply forallb_map_impl.
Qed.

(** X17. The rules are monotone in the kernel version. If a rule that the
    constructors can build, nested as the catalog nests, evaluates to an
    outcome of the [OK] class on a kernel version, it does so on every
    version that is not older, with the same build options and boot
    parameters. *)
Theorem do_check_version_monotone (c : check) (a b a' b' : Z) :
  wf c = true → nesting_ok c = true → lex_ge (a', b') (a, b) →
  (∃ (c1 : check) (r : string),
     do_check (bind_data (Tuple [a; b]) version c) = Ok c1 ∧
     result_of c1 = Some r ∧ is_pass r = true) →
  ∃ (c2 : check) (r' : string),
    do_check (bind_data (Tuple [a'; b']) version c) = Ok c2 ∧
    result_of c2 = Some r' ∧ is_pass r' = true.
Proof.
  intros Hwf Hnest Hge (c1 & r & Hc1 & Hr & Hp).
  assert (Hsound : ∀ x y : Z, evaluates (bind_data (Tuple [x; y]) version c)).
  { intros x y. apply do_check_sound.
    - by rewrite wf_bind.
    - apply populated_bind_version.
    - by rewrite nesting_ok_bind. }
  destruct (evaluates_elim _ c1 r (Hsound a b) Hc1 Hr) as (_ & Hv & _).
  destruct (Hsound a' b') as (c2 & r' & Hc2 & Hr' & _ & Hv' & _).
  exists c2, r'. split; [done |]. split; [done |].
  rewrite Hv'. apply (verdict_version_mono c a b a' b' Hge). by rewrite <- Hv.
Qed.

Lemma do_check_version_monotone_witness :
  ∃ (c2 : check) (r' : string),
    do_check (bind_data (Tuple [5; 10]) version
                (OR None [kconfig_check "CONFIG_REFCOUNT_FULL" (Some "y") None;
                          VersionCheck_init (5, 5)])) = Ok c2 ∧
    result_of c2 = Some r' ∧ is_pass r' = true.
Proof.
  apply (do_check_version_monotone
           (OR None [kconfig_check "CONFIG_REFCOUNT_FULL" (Some "y") None;
                     VersionCheck_init (5, 5)]) 5 5 5 10).
  - reflexivity.
  - reflexivity.
  - right. cbn. lia.
  - eexists _, _. split; [reflexivity |]. split; reflexivity.
Defined.

Lemma bind_data_agree (m1 m2 : gmap string string) (t : opt_type) (c : check) :
  t ≠ version →
  (∀ n : string, n ∈ simple_names c → m1 !! n = m2 !! n) →
  bind_data (Dict m1) t c = bind_data (Dict m2) t c.
Proof.
  intros Ht.
  induction c as [o|o|v|res opts IH|res opts IH] using check_induction; cbn;
    intros Hagree.
  - by rewrite (Hagree (name o)) by (by apply list_elem_of_singleton).
  - by rewrite (Hagree (name o)) by (by apply list_elem_of_singleton).
  - by rewrite bool_decide_eq_false_2.
  - f_equal. induction IH as [|x l Hx _ IHl]; [done |]. cbn in *. f_equal.
    + apply Hx. intros n Hn. apply Hagree, elem_of_app. by left.
    + apply IHl. intros n Hn. apply Hagree, elem_of_app. by right.
  - f_equal. induction IH as [|x l Hx _ IHl]; [done |]. cbn in *. f_equal.
    + apply Hx. intros n Hn. apply Hagree, elem_of_app. by left.
    + apply IHl. intros n Hn. apply Hagree, elem_of_app. by right.
Qed.

(** X18. A population pass reads the options that have a check and no
    other: two maps of build options, or of boot parameters, that agree on
    the names of the simple checks of the checklist, at any depth, give the
    same checklist, so the same outcomes whatever else the files hold. *)
Theorem populate_with_data_local (checklist : list check)
    (m1 m2 : gmap string string) (t : opt_type) :
  t = kconfig ∨ t = cmdline →
  (∀ n : string, n ∈ concat (map simple_names checklist) → m1 !! n = m2 !! n) →
  populate_with_data checklist (Dict m1) t = populate_with_data checklist (Dict m2) t.
Proof.
  intros Ht Hagree.
  assert (Hpass : ∀ m, pass_ok (Dict m) t = true) by (by destruct Ht as [-> | ->]).
  rewrite (Population.populate_with_data_spec (Dict m1) t (Hpass m1)).
  rewrite (Population.populate_with_data_spec (Dict m2) t (Hpass m2)).
  destruct (top_level_ok checklist); [| done]. f_equal.
  induction checklist as [|c l IH]; [done |]. cbn in *. f_equal.
  - apply bind_data_agree; [by destruct Ht as [-> | ->] |].
    intros n Hn. apply Hagree, elem_of_app. by left.
  - apply IH. intros n Hn. apply Hagree, elem_of_app. by right.
Qed.

Lemma populate_with_data_local_witness :
  populate_with_data
    [OR None [kconfig_check "CONFIG_BUG" (Some "y") None; VersionCheck_init (5, 5)]]
    (Dict (<["CONFIG_BUG" := "y"]> ∅)) kconfig
  = populate_with_data
      [OR None [kconfig_check "CONFIG_BUG" (Some "y") None; VersionCheck_init (5, 5)]]
      (Dict (<["CONFIG_SLUB" := "y"]> (<["CONFIG_BUG" := "y"]> ∅))) kconfig.
Proof.
  apply (populate_with_data_local
           [OR None [kconfig_check "CONFIG_BUG" (Some "y") None; VersionCheck_init (5, 5)]]
           (<["CONFIG_BUG" := "y"]> ∅)
           (<["CONFIG_SLUB" := "y"]> (<["CONFIG_BUG" := "y"]> ∅)) kconfig).
  - by left.
  - intros n Hn. cbn in Hn. apply list_elem_of_singleton in Hn as ->. reflexivity.
Defined.

End Dependence.

(** ** The order of the lines of a build configuration *)

Module LineOrder.
Import Checks Parsers Spec Semantics Report Catalog Driver.
Import Strings CompoundChecks Reporting CatalogFacts.






Lemma arch_verdict_perm (l l' : list string) :
  l ≡ₚ l' → arch_verdict l = arch_verdict l'.
Proof.
  intros Hperm. pose proof (Permutation_length Hperm) as Hlen.
  destruct l as [|a [|b l]], l' as [|a' [|b' l']]; try done.
  by apply Permutation_singleton_l in Hperm as [= ->].
Qed.

(** X20. The architecture that is detected does not depend on the order of
    the lines of the file either. *)
Theorem detect_arch_order (text text' : string) :
  readlines text ≡ₚ readlines text' →
  detect_arch text supported_archs = detect_arch text' supported_archs.
Proof.
  intros Hperm. unfold detect_arch.
  rewrite !Detection.detect_arch_loop_spec;
    try apply Detection.supported_archs_ok; try done.
  f_equal. cbn. apply arch_verdict_perm. by rewrite Hperm.
Qed.

Lemma detect_arch_order_witness :
  detect_arch ("CONFIG_X86_64=y" +:+ String "010" ("CONFIG_BUG=y" +:+ String "010" EmptyString))
              supported_archs
  = detect_arch ("CONFIG_BUG=y" +:+ String "010" ("CONFIG_X86_64=y" +:+ String "010" EmptyString))
                supported_archs.
Proof.
  apply (detect_arch_order
           ("CONFIG_X86_64=y" +:+ String "010" ("CONFIG_BUG=y" +:+ String "010" EmptyString))
           ("CONFIG_BUG=y" +:+ String "010" ("CONFIG_X86_64=y" +:+ String "010" EmptyString))).
  apply perm_swap.
Defined.

End LineOrder.

(** ** Printing the preferences *)

Module Preferences.
Import Checks Parsers Spec Semantics Report Catalog Driver.
Import Reporting CatalogFacts.



End Preferences.

(** ** The catalog and the parsers *)

Module Satisfiable.
Import Checks Parsers Spec Semantics Report Catalog.
Import Strings CatalogFacts.



End Satisfiable.
